(** * azul-client: the configuration store ([azul_client/config.py])

    A shallow embedding of [config.py] together with the parts of the
    Python runtime it drives: [str] methods, [json.dumps]/[json.loads],
    [configparser.ConfigParser] (reading, [__setitem__], [__getitem__] with
    [BasicInterpolation], writing), the pydantic-settings construction of
    [Config] and [ConfigLocation], the process environment, the file system
    and the re-entrant [FileLock] used as a decorator; and the two
    functions of the integration test that call the store under the lock.

    Scope of the model.
    - Text is Python [str] restricted to the code points below 256, held in
      [string]; a file is the text it decodes to.
    - Integers are [Z]; floating-point values and pydantic's lax
      string-to-number conversions are an interface ([Lax]).
    - A token is [None] or built from booleans, integers, strings, lists
      and dictionaries with string keys ([pyval]); tuples and dictionaries
      with other keys are not among the values, and an object of any other
      class is [PObj].
    - A float in a token is one that [json.loads] has read, and is held as
      its literal ([PFloat]): it can be loaded, compared by its literal
      and dropped. What needs its value is reported as [Unsupported]:
      [json.dumps] of it, and its validation as a number or a boolean. So
      are [\u] escapes above 255 in a JSON text.
    - Interpreter resource limits (recursion depth, integer-string digits)
      and file-system failures (permissions, directories) are not modelled;
      the lock file is kept apart from the store's files.
    - One thread of control per process; another process appears only as a
      possible holder of the OS-level lock, which it then keeps for good:
      a wait for it ends in [filelock.Timeout] when the timeout of the
      lock is [0] or more and finite, and has no end otherwise. *)

From Stdlib Require Import String Ascii List ZArith Lia Bool.
From Stdlib Require Import DecimalString DecimalZ DecimalPos DecimalFacts.
From Stdlib Require Import Wf_nat.
From stdpp Require Import base strings gmap.
Import ListNotations.

Local Open Scope string_scope.
Local Open Scope Z_scope.
#[local] Arguments String.append !s1 s2 : simpl nomatch.

(** ** Python [str] *)

Module Py.

(** [str.isspace] on one character, for the code points below 256. *)
Definition isspace (c : ascii) : bool :=
  match c with
  | "009" | "010" | "011" | "012" | "013"
  | "028" | "029" | "030" | "031" | " " | "133" | "160" => true
  | _ => false
  end%char.

(** [s.lstrip()]. *)
Fixpoint lstrip (s : string) : string :=
  match s with
  | EmptyString => EmptyString
  | String c s' => if isspace c then lstrip s' else s
  end.

Definition is_empty (s : string) : bool :=
  match s with EmptyString => true | _ => false end.

(** [s.rstrip()]. *)
Fixpoint rstrip (s : string) : string :=
  match s with
  | EmptyString => EmptyString
  | String c s' =>
      let r := rstrip s' in
      if isspace c && is_empty r then EmptyString else String c r
  end.

(** [s.strip()]. *)
Definition strip (s : string) : string := lstrip (rstrip s).

(** [s.rstrip(chars)] for a one-character [chars]. *)
Fixpoint rstrip_char (x : ascii) (s : string) : string :=
  match s with
  | EmptyString => EmptyString
  | String c s' =>
      let r := rstrip_char x s' in
      if Ascii.eqb c x && is_empty r then EmptyString else String c r
  end.

(** [str.lower] on one character: A-Z, and the Latin-1 capitals. *)
Definition lower_char (c : ascii) : ascii :=
  let n := nat_of_ascii c in
  if ((65 <=? n)%nat && (n <=? 90)%nat)
     || ((192 <=? n)%nat && (n <=? 222)%nat && negb (n =? 215)%nat)
  then ascii_of_nat (n + 32) else c.

(** [s.lower()]. *)
Fixpoint lower (s : string) : string :=
  match s with
  | EmptyString => EmptyString
  | String c s' => String (lower_char c) (lower s')
  end.

(** [c in s] for a character [c]. *)
Fixpoint contains (c : ascii) (s : string) : bool :=
  match s with
  | EmptyString => false
  | String d s' => Ascii.eqb c d || contains c s'
  end.

(** Does every character of [s] satisfy [p]? *)
Fixpoint all_chars (p : ascii -> bool) (s : string) : bool :=
  match s with
  | EmptyString => true
  | String c s' => p c && all_chars p s'
  end.

(** [s.startswith(p)]. *)
Fixpoint startswith (p s : string) : bool :=
  match p with
  | EmptyString => true
  | String c p' =>
      match s with
      | String d s' => Ascii.eqb c d && startswith p' s'
      | EmptyString => false
      end
  end.

(** [sub in s] for a string [sub]. *)
Fixpoint occurs (sub s : string) : bool :=
  startswith sub s
  || match s with
     | EmptyString => false
     | String _ s' => occurs sub s'
     end.

(** [sep.join(l)]. *)
Fixpoint join (sep : string) (l : list string) : string :=
  match l with
  | [] => EmptyString
  | [x] => x
  | x :: l' => x +:+ sep +:+ join sep l'
  end.

(** [s.replace(old, new)] for a one-character [old]. *)
Fixpoint replace_char (old : ascii) (new : string) (s : string) : string :=
  match s with
  | EmptyString => EmptyString
  | String c s' =>
      if Ascii.eqb c old then new +:+ replace_char old new s'
      else String c (replace_char old new s')
  end.

(** [s.replace(cc, empty)] for the two-character string [cc = c c]: matches are
    taken left to right and do not overlap. *)
Fixpoint remove_double (x : ascii) (s : string) : string :=
  match s with
  | String c (String d s' as t) =>
      if Ascii.eqb c x && Ascii.eqb d x then remove_double x s'
      else String c (remove_double x t)
  | _ => s
  end.

(** [s[n:]]. *)
Fixpoint drop (n : nat) (s : string) : string :=
  match n, s with
  | S n', String _ s' => drop n' s'
  | _, _ => s
  end.

(** [str(b)] for a [bool]. *)
Definition str_of_bool (b : bool) : string := if b then "True" else "False".

(** [str(z)] for an [int]. *)
Definition str_of_Z (z : Z) : string := NilZero.string_of_int (Z.to_int z).

End Py.

(** ** Exceptions and results *)

(** The exceptions the library functions can raise, by the Python class
    that carries them.  [Unsupported] marks an input outside the modelled
    fragment.  [OutOfFuel] is no exception of Python: it marks the bound of
    a loop of the model, which the loops of [json.loads] never reach. *)
Inductive exn : Type :=
| ValueError           (* configparser: invalid interpolation syntax on set *)
| TypeError            (* json.dumps: object is not JSON serializable *)
| JSONDecodeError      (* json.loads *)
| ConfigParserError    (* configparser.Error raised while reading a file *)
| InterpolationError   (* configparser.InterpolationError raised by get *)
| ValidationError      (* pydantic *)
| KeyError             (* mapping lookups of configparser *)
| InvalidSection       (* Exception("config section [...] is invalid") *)
| Unsupported
| OutOfFuel.

Inductive result (A : Type) : Type :=
| Ok (a : A)
| Err (e : exn).
Arguments Ok {A} a.
Arguments Err {A} e.

Definition rbind {A B : Type} (r : result A) (f : A -> result B) : result B :=
  match r with
  | Ok a => f a
  | Err e => Err e
  end.

#[global] Instance result_bind : MBind result :=
  fun A B f r => rbind r f.
#[global] Instance result_ret : MRet result := @Ok.

(** How a call of the store ends: it returns, it raises an exception of
    the library functions, the wait for the lock ends in
    [filelock.Timeout], or the wait for the lock has no end and the call
    never returns ([Blocked]). *)
Inductive outcome (A : Type) : Type :=
| Returns (a : A)
| Raises (e : exn)
| LockTimeout
| Blocked.
Arguments Returns {A} a.
Arguments Raises {A} e.
Arguments LockTimeout {A}.
Arguments Blocked {A}.

Definition is_ok {A : Type} (r : result A) : bool :=
  match r with Ok _ => true | Err _ => false end.

(** ** Insertion-ordered dictionaries with [str] keys *)

Module Dict.

Definition t (V : Type) : Type := list (string * V).

Fixpoint get {V : Type} (k : string) (d : t V) : option V :=
  match d with
  | [] => None
  | (k', v) :: d' => if String.eqb k k' then Some v else get k d'
  end.

Definition mem {V : Type} (k : string) (d : t V) : bool :=
  match get k d with Some _ => true | None => false end.

(** [d[k] = v]: an existing key keeps its position, a new one goes last. *)
Fixpoint set {V : Type} (k : string) (v : V) (d : t V) : t V :=
  match d with
  | [] => [(k, v)]
  | (k', v') :: d' =>
      if String.eqb k k' then (k, v) :: d' else (k', v') :: set k v d'
  end.

Definition keys {V : Type} (d : t V) : list string := map fst d.

(** Are the strings of [l] pairwise different? *)
Fixpoint distinct (l : list string) : bool :=
  match l with
  | [] => true
  | x :: l' => negb (existsb (String.eqb x) l') && distinct l'
  end.

(** [dict(pairs)]. *)
Definition of_pairs {V : Type} (l : list (string * V)) : t V :=
  fold_left (fun d kv => set (fst kv) (snd kv) d) l [].

(** [d.update(e)]. *)
Definition update {V : Type} (d e : t V) : t V :=
  fold_left (fun d kv => set (fst kv) (snd kv) d) e d.

End Dict.

(** ** Python values and [json] *)

(** The values an [auth_token] can hold.  [PObj] stands for any object the
    JSON encoder has no rule for (a set, bytes, a datetime, ...).
    [PFloat] is a float that [json.loads] has read, held as the literal it
    was read from, that is the text [float] was given: two literals of
    the same number are kept apart. *)
#[local] Unset Elimination Schemes.
Inductive pyval : Type :=
| PNone
| PBool (b : bool)
| PInt (z : Z)
| PStr (s : string)
| PList (l : list pyval)
| PDict (d : list (string * pyval))
| PObj (id : nat)
| PFloat (literal : string).
#[local] Set Elimination Schemes.

Module Json.

Definition dquote : ascii := "034"%char.
Definition backslash : ascii := "092"%char.

Definition hex_digit (n : nat) : ascii :=
  if (n <? 10)%nat then ascii_of_nat (48 + n) else ascii_of_nat (87 + n).

(** [ESCAPE_DCT] and the [\uXXXX] fallback of [encode_basestring_ascii]. *)
Definition escape_char (c : ascii) : string :=
  let n := nat_of_ascii c in
  if Ascii.eqb c dquote then String backslash (String dquote EmptyString)
  else if Ascii.eqb c backslash then String backslash (String backslash EmptyString)
  else if (n =? 8)%nat then "\b"
  else if (n =? 12)%nat then "\f"
  else if (n =? 10)%nat then "\n"
  else if (n =? 13)%nat then "\r"
  else if (n =? 9)%nat then "\t"
  else if (32 <=? n)%nat && (n <=? 126)%nat then String c EmptyString
  else "\u00" +:+ String (hex_digit (n / 16)) (String (hex_digit (n mod 16)) EmptyString).

Fixpoint escape (s : string) : string :=
  match s with
  | EmptyString => EmptyString
  | String c s' => escape_char c +:+ escape s'
  end.

(** [encode_basestring_ascii(s)]. *)
Definition encode_string (s : string) : string :=
  String dquote (escape s +:+ String dquote EmptyString).

(** The results of a list of computations, or the first error. *)
Fixpoint sequence {A : Type} (l : list (result A)) : result (list A) :=
  match l with
  | [] => Ok []
  | r :: l' => x ← r; xs ← sequence l'; Ok (x :: xs)
  end.

(** [json.dumps(v)] with the default separators and [ensure_ascii]. The
    text of a float is its [repr], which the literal does not give. *)
Fixpoint dumps (v : pyval) : result string :=
  match v with
  | PNone => Ok "null"
  | PBool b => Ok (if b then "true" else "false")
  | PInt z => Ok (Py.str_of_Z z)
  | PStr s => Ok (encode_string s)
  | PList l =>
      items ← sequence (map dumps l);
      Ok ("[" +:+ Py.join ", " items +:+ "]")
  | PDict d =>
      items ← sequence
                (map (fun kv =>
                        j ← dumps (snd kv);
                        Ok (encode_string (fst kv) +:+ ": " +:+ j)) d);
      Ok ("{" +:+ Py.join ", " items +:+ "}")
  | PObj _ => Err TypeError
  | PFloat _ => Err Unsupported
  end.

(** The nesting depth of a value. *)
Fixpoint depth (v : pyval) : nat :=
  match v with
  | PList l => S (list_max (map depth l))
  | PDict d => S (list_max (map (fun kv => depth (snd kv)) d))
  | _ => O
  end.

(** The values [json.dumps] and [json.loads] carry unchanged: no foreign
    object, no float, and the keys of every dictionary pairwise different
    (as in any Python [dict]). *)
Fixpoint representable (v : pyval) : bool :=
  match v with
  | PList l => forallb representable l
  | PDict d =>
      Dict.distinct (map fst d)
      && forallb (fun kv => representable (snd kv)) d
  | PObj _ => false
  | PFloat _ => false
  | _ => true
  end.

(** The characters [dumps] writes for a value without a percent sign:
    printable ASCII other than the percent sign. *)
Definition text_char (c : ascii) : bool :=
  let n := nat_of_ascii c in
  (32 <=? n)%nat && (n <=? 126)%nat && negb (Ascii.eqb c "%").

(** No percent sign in any string of the value, keys included. *)
Fixpoint percent_free (v : pyval) : bool :=
  match v with
  | PStr s => negb (Py.contains "%" s)
  | PList l => forallb percent_free l
  | PDict d =>
      forallb (fun kv => negb (Py.contains "%" (fst kv))
                         && percent_free (snd kv)) d
  | _ => true
  end.

(** [WHITESPACE]: blank, tab, line feed, carriage return. *)
Definition is_ws (c : ascii) : bool :=
  match c with
  | " " | "009" | "010" | "013" => true
  | _ => false
  end%char.

Fixpoint skip_ws (s : string) : string :=
  match s with
  | EmptyString => EmptyString
  | String c s' => if is_ws c then skip_ws s' else s
  end.

Definition is_digit (c : ascii) : bool :=
  let n := nat_of_ascii c in (48 <=? n)%nat && (n <=? 57)%nat.

Definition hex_val (c : ascii) : option nat :=
  let n := nat_of_ascii c in
  if (48 <=? n)%nat && (n <=? 57)%nat then Some (n - 48)%nat
  else if (97 <=? n)%nat && (n <=? 102)%nat then Some (n - 87)%nat
  else if (65 <=? n)%nat && (n <=? 70)%nat then Some (n - 55)%nat
  else None.

Definition hex4 (a b c d : ascii) : option nat :=
  match hex_val a, hex_val b, hex_val c, hex_val d with
  | Some x, Some y, Some z, Some w => Some (((x * 16 + y) * 16 + z) * 16 + w)%nat
  | _, _, _, _ => None
  end.

(** [BACKSLASH]: the one-character escapes. *)
Definition unescape (e : ascii) : option ascii :=
  if Ascii.eqb e dquote then Some dquote
  else if Ascii.eqb e backslash then Some backslash
  else match e with
       | "/" => Some "/"
       | "b" => Some "008"
       | "f" => Some "012"
       | "n" => Some "010"
       | "r" => Some "013"
       | "t" => Some "009"
       | _ => None
       end%char.

(** [scanstring(s, end)], [s] being the text after the opening quote;
    returns the decoded string and the text after the closing quote. *)
Fixpoint scanstring (s : string) : result (string * string) :=
  match s with
  | EmptyString => Err JSONDecodeError
  | String c r =>
      if Ascii.eqb c dquote then Ok (EmptyString, r)
      else if Ascii.eqb c backslash then
        match r with
        | EmptyString => Err JSONDecodeError
        | String e r1 =>
            if Ascii.eqb e "u" then
              match r1 with
              | String h1 (String h2 (String h3 (String h4 r2))) =>
                  match hex4 h1 h2 h3 h4 with
                  | Some n =>
                      if (n <? 256)%nat then
                        '(x, rest) ← scanstring r2;
                        Ok (String (ascii_of_nat n) x, rest)
                      else Err Unsupported
                  | None => Err JSONDecodeError
                  end
              | _ => Err JSONDecodeError
              end
            else
              match unescape e with
              | Some ch =>
                  '(x, rest) ← scanstring r1; Ok (String ch x, rest)
              | None => Err JSONDecodeError
              end
        end
      else if (nat_of_ascii c <? 32)%nat then Err JSONDecodeError
      else '(x, rest) ← scanstring r; Ok (String c x, rest)
  end.

(** The longest prefix of digits, and what follows it. *)
Fixpoint span_digits (s : string) : string * string :=
  match s with
  | EmptyString => (EmptyString, EmptyString)
  | String c s' =>
      if is_digit c then
        let (ds, r) := span_digits s' in (String c ds, r)
      else (EmptyString, s)
  end.

(** The [integer] group of [NUMBER_RE], an optional minus sign followed by
    [0] or by a digit string that does not start with [0]. *)
Definition match_integer (s : string) : option (string * string) :=
  let body (sign t : string) :=
    match t with
    | EmptyString => None
    | String c r =>
        if Ascii.eqb c "0" then Some (sign +:+ "0", r)
        else if is_digit c then
          let (ds, r') := span_digits r in Some (sign +:+ String c ds, r')
        else None
    end in
  match s with
  | String "-" t => body "-" t
  | _ => body EmptyString s
  end.

(** Does the text go on with the [frac] or [exp] group of [NUMBER_RE]? *)
Definition starts_digit (s : string) : bool :=
  match s with String c _ => is_digit c | EmptyString => false end.

Definition has_frac_or_exp (r : string) : bool :=
  match r with
  | String "." t => starts_digit t
  | String c t =>
      if Ascii.eqb c "e" || Ascii.eqb c "E" then
        match t with
        | String s u =>
            if Ascii.eqb s "+" || Ascii.eqb s "-" then starts_digit u
            else is_digit s
        | EmptyString => false
        end
      else false
  | EmptyString => false
  end.

(** The [frac] group of [NUMBER_RE]: a point and at least one digit. *)
Definition match_frac (r : string) : string * string :=
  match r with
  | String "." t =>
      if starts_digit t
      then let (ds, r') := span_digits t in (String "." ds, r')
      else (EmptyString, r)
  | _ => (EmptyString, r)
  end.

(** The [exp] group of [NUMBER_RE]: [e] or [E], an optional sign and at
    least one digit. *)
Definition match_exp (r : string) : string * string :=
  match r with
  | String c t =>
      if Ascii.eqb c "e" || Ascii.eqb c "E" then
        match t with
        | String s u =>
            if Ascii.eqb s "+" || Ascii.eqb s "-" then
              if starts_digit u
              then let (ds, r') := span_digits u in
                   (String c (String s ds), r')
              else (EmptyString, r)
            else if is_digit s
            then let (ds, r') := span_digits t in (String c ds, r')
            else (EmptyString, r)
        | EmptyString => (EmptyString, r)
        end
      else (EmptyString, r)
  | EmptyString => (EmptyString, r)
  end.

(** [parse_float(integer + (frac or '') + (exp or ''))], for the text
    [integer] of the integer group and what follows it. *)
Definition float_literal (integer rest : string) : pyval * string :=
  let (frac, r1) := match_frac rest in
  let (exp, r2) := match_exp r1 in
  (PFloat (integer +:+ frac +:+ exp), r2).

(** [parse_constant], where no number starts. *)
Definition match_constant (s : string) : result (pyval * string) :=
  if Py.startswith "NaN" s then Ok (PFloat "NaN", Py.drop 3 s)
  else if Py.startswith "Infinity" s then Ok (PFloat "Infinity", Py.drop 8 s)
  else if Py.startswith "-Infinity" s
  then Ok (PFloat "-Infinity", Py.drop 9 s)
  else Err JSONDecodeError.

(** [int(text)] for a text matched by [match_integer]. *)
Definition int_of_text (t : string) : result pyval :=
  match NilZero.int_of_string t with
  | Some d => Ok (PInt (Z.of_int d))
  | None => Err JSONDecodeError
  end.

Section Scanner.
(** [scan_once], as passed to [JSONObject] and [JSONArray]. *)
Variable scan : string -> result (pyval * string).

(** The [while True] loop of [JSONArray]; [s] starts at a value. Every
    turn takes at least one character, so that a bound [k] above the
    length of [s] is not reached. *)
Fixpoint array_loop (k : nat) (acc : list pyval) (s : string)
  : result (pyval * string) :=
  match k with
  | O => Err OutOfFuel
  | S k' =>
      '(v, s1) ← scan s;
      match skip_ws s1 with
      | String "]" rest => Ok (PList (acc ++ [v]), rest)
      | String "," s2 => array_loop k' (acc ++ [v]) (skip_ws s2)
      | _ => Err JSONDecodeError
      end
  end.

(** [JSONArray], [s] being the text after the opening bracket. *)
Definition JSONArray (s : string) : result (pyval * string) :=
  match skip_ws s with
  | String "]" rest => Ok (PList [], rest)
  | s1 => array_loop (S (String.length s1)) [] s1
  end.

(** The [while True] loop of [JSONObject]; [s] is the text after the
    opening quote of a key, and [k] a bound above its length. *)
Fixpoint object_loop (k : nat) (acc : list (string * pyval)) (s : string)
  : result (pyval * string) :=
  match k with
  | O => Err OutOfFuel
  | S k' =>
      '(key, s1) ← scanstring s;
      match skip_ws s1 with
      | String ":" s2 =>
          '(v, s3) ← scan (skip_ws s2);
          match skip_ws s3 with
          | String "}" rest =>
              Ok (PDict (Dict.of_pairs (acc ++ [(key, v)])), rest)
          | String "," s4 =>
              match skip_ws s4 with
              | String c s5 =>
                  if Ascii.eqb c dquote
                  then object_loop k' (acc ++ [(key, v)]) s5
                  else Err JSONDecodeError
              | EmptyString => Err JSONDecodeError
              end
          | _ => Err JSONDecodeError
          end
      | _ => Err JSONDecodeError
      end
  end.

(** [JSONObject], [s] being the text after the opening brace. *)
Definition JSONObject (s : string) : result (pyval * string) :=
  match skip_ws s with
  | String "}" rest => Ok (PDict [], rest)
  | String c s1 =>
      if Ascii.eqb c dquote then object_loop (S (String.length s1)) [] s1
      else Err JSONDecodeError
  | EmptyString => Err JSONDecodeError
  end.
End Scanner.

(** [_scan_once(string, idx)]; [n] bounds the nesting depth, and is not
    reached when it is above the length of [s]. *)
Fixpoint scan_once (n : nat) (s : string) : result (pyval * string) :=
  match n with
  | O => Err OutOfFuel
  | S n' =>
      match s with
      | EmptyString => Err JSONDecodeError
      | String c r =>
          if Ascii.eqb c dquote then
            '(x, rest) ← scanstring r; Ok (PStr x, rest)
          else if Ascii.eqb c "{" then JSONObject (scan_once n') r
          else if Ascii.eqb c "[" then JSONArray (scan_once n') r
          else if Py.startswith "null" s then Ok (PNone, Py.drop 4 s)
          else if Py.startswith "true" s then Ok (PBool true, Py.drop 4 s)
          else if Py.startswith "false" s then Ok (PBool false, Py.drop 5 s)
          else
            match match_integer s with
            | Some (t, rest) =>
                if has_frac_or_exp rest then Ok (float_literal t rest)
                else v ← int_of_text t; Ok (v, rest)
            | None => match_constant s
            end
      end
  end.

(** The first character of an encoded value. *)
Definition starts_value (j : string) : bool :=
  match j with
  | String c _ =>
      Ascii.eqb c dquote || Ascii.eqb c "{" || Ascii.eqb c "["
      || Ascii.eqb c "n" || Ascii.eqb c "t" || Ascii.eqb c "f"
      || Ascii.eqb c "-" || is_digit c
  | EmptyString => false
  end.

(** What may follow an encoded value inside a document. *)
Definition ends_value (rest : string) : bool :=
  match rest with
  | String c _ => Ascii.eqb c "," || Ascii.eqb c "]" || Ascii.eqb c "}"
  | EmptyString => true
  end.

(** The members of an encoded object, from after the opening quote of the
    first key up to the closing brace, followed by [rest]. *)
Fixpoint object_text (d : list (string * string)) (rest : string) : string :=
  match d with
  | [] => String "}" rest
  | (k, j) :: d' =>
      escape k +:+ String dquote (": " +:+ j +:+
        match d' with
        | [] => String "}" rest
        | _ => ", " +:+ String dquote (object_text d' rest)
        end)
  end.

(** The first character of an encoded number. *)
Definition starts_number (j : string) : bool :=
  match j with
  | String c _ => Ascii.eqb c "-" || is_digit c
  | EmptyString => false
  end.

(** A decimal numeral without a leading zero. *)
Definition headed (u : Decimal.uint) : Prop :=
  match u with
  | Decimal.Nil | Decimal.D0 _ => False
  | _ => True
  end.

(** [json.loads(s)]: leading blanks, one value, trailing blanks, the end. *)
Definition loads (s : string) : result pyval :=
  '(v, rest) ← scan_once (S (String.length s)) (skip_ws s);
  match skip_ws rest with
  | EmptyString => Ok v
  | _ => Err JSONDecodeError
  end.

(** [j] is the encoding of [v], and scanning it gives [v] back whatever
    follows. *)
Definition roundtrips (v : pyval) (j : string) : Prop :=
  dumps v = Ok j /\ starts_value j = true /\
  forall n rest, (depth v < n)%nat -> ends_value rest = true ->
    scan_once n (j +:+ rest) = Ok (v, rest).

(** What a scanner [scan] must do on the encoding [j] of [x]. *)
Definition scans (scan : string -> result (pyval * string))
    (x : pyval) (j : string) : Prop :=
  starts_value j = true /\
  forall rest, ends_value rest = true -> scan (j +:+ rest) = Ok (x, rest).

(** The encoding is at least as long as the value is deep, and plain
    text when the value has no percent sign. *)
Definition bounded (v : pyval) (j : string) : Prop :=
  (depth v <= String.length j)%nat
  /\ (percent_free v = true -> Py.all_chars text_char j = true).

End Json.

(** ** [configparser.ConfigParser] *)

Module ConfigParser.

Definition NL : ascii := "010"%char.
Definition CR : ascii := "013"%char.
Definition TAB : ascii := "009"%char.

Definition default_section : string := "DEFAULT".

(** A parser object after reading: [_defaults] and [_sections]. *)
Record t : Type := mk {
  defaults : Dict.t string;
  sections : Dict.t (Dict.t string);
}.

(** [ConfigParser()]. *)
Definition empty : t := {| defaults := []; sections := [] |}.

(** Text-mode reading: ["\r\n"] and a lone ["\r"] become ["\n"]. *)
Fixpoint universal_newlines (s : string) : string :=
  match s with
  | EmptyString => EmptyString
  | String c s' =>
      if Ascii.eqb c CR then
        match s' with
        | String d s'' =>
            if Ascii.eqb d NL then String NL (universal_newlines s'')
            else String NL (universal_newlines s')
        | EmptyString => String NL EmptyString
        end
      else String c (universal_newlines s')
  end.

(** The lines a file object yields, without their terminators. *)
Fixpoint readlines (s : string) : list string :=
  match s with
  | EmptyString => []
  | String c s' =>
      if Ascii.eqb c NL then EmptyString :: readlines s'
      else match readlines s' with
           | [] => [String c EmptyString]
           | l :: ls => String c l :: ls
           end
  end.

(** *** [_read] *)

Inductive cursor : Type :=
| NoSection
| InDefault
| InSection (name : string).

(** The loop state of [_read]: the two dictionaries (values are lists of
    lines until [_join_multiline_values]), [cursect], [optname] and
    [indent_level]. *)
Record pstate : Type := mkp {
  p_defaults : Dict.t (list string);
  p_sections : Dict.t (Dict.t (list string));
  p_cur : cursor;
  p_opt : option string;
  p_indent : nat;
}.

Definition pstart : pstate :=
  {| p_defaults := []; p_sections := []; p_cur := NoSection;
     p_opt := None; p_indent := O |}.

Definition cursect (st : pstate) : option (Dict.t (list string)) :=
  match p_cur st with
  | NoSection => None
  | InDefault => Some (p_defaults st)
  | InSection n => Dict.get n (p_sections st)
  end.

Definition set_cursect (st : pstate) (d : Dict.t (list string)) : pstate :=
  match p_cur st with
  | NoSection => st
  | InDefault =>
      {| p_defaults := d; p_sections := p_sections st; p_cur := p_cur st;
         p_opt := p_opt st; p_indent := p_indent st |}
  | InSection n =>
      {| p_defaults := p_defaults st;
         p_sections := Dict.set n d (p_sections st); p_cur := p_cur st;
         p_opt := p_opt st; p_indent := p_indent st |}
  end.

(** [cursect[optname].append(v)]. *)
Definition append_line (st : pstate) (v : string) : pstate :=
  match cursect st, p_opt st with
  | Some d, Some o =>
      match Dict.get o d with
      | Some ls => set_cursect st (Dict.set o (ls ++ [v])%list d)
      | None => st
      end
  | _, _ => st
  end.

(** A full-line comment: the stripped line starts with [#] or [;]. *)
Definition is_comment (v : string) : bool :=
  Py.startswith "#" v || Py.startswith ";" v.

(** [NONSPACECRE.search(line).start()], or [0] without a match. *)
Fixpoint first_nonspace (line : string) : nat :=
  match line with
  | EmptyString => O
  | String c s' =>
      if Py.isspace c then
        match Py.lstrip s' with
        | EmptyString => O
        | _ => S (first_nonspace s')
        end
      else O
  end.

(** The text before the last occurrence of [c]. *)
Fixpoint before_last (c : ascii) (s : string) : option string :=
  match s with
  | EmptyString => None
  | String d s' =>
      match before_last c s' with
      | Some p => Some (String d p)
      | None => if Ascii.eqb d c then Some EmptyString else None
      end
  end.

(** [SECTCRE.match(value).group('header')]: an opening bracket, then the
    longest non-empty text that is followed by a closing bracket. *)
Definition match_section (v : string) : option string :=
  match v with
  | String "[" r =>
      match before_last "]" r with
      | Some h => if Py.is_empty h then None else Some h
      | None => None
      end
  | _ => None
  end.

(** The text before and after the first [=] or [:]. *)
Fixpoint split_delim (s : string) : option (string * string) :=
  match s with
  | EmptyString => None
  | String c s' =>
      if Ascii.eqb c "=" || Ascii.eqb c ":" then Some (EmptyString, s')
      else match split_delim s' with
           | Some (k, v) => Some (String c k, v)
           | None => None
           end
  end.

(** [OPTCRE.match(value)]: the groups [option] and [value]. *)
Definition match_option (v : string) : option (string * string) :=
  match split_delim v with
  | Some (k, x) => Some (Py.rstrip k, Py.lstrip x)
  | None => None
  end.

(** The branch of [_read] for a section header [name]. *)
Definition enter_section (st : pstate) (ind : nat) (name : string)
  : result pstate :=
  if Dict.mem name (p_sections st) then Err ConfigParserError
  else if String.eqb name default_section then
    Ok {| p_defaults := p_defaults st; p_sections := p_sections st;
          p_cur := InDefault; p_opt := None; p_indent := ind |}
  else
    Ok {| p_defaults := p_defaults st;
          p_sections := (p_sections st ++ [(name, [])])%list;
          p_cur := InSection name; p_opt := None; p_indent := ind |}.

(** The branch of [_read] for an option line. *)
Definition enter_option (st : pstate) (ind : nat) (v : string)
  : result pstate :=
  match cursect st with
  | None => Err ConfigParserError
  | Some d =>
      match match_option v with
      | None => Err ConfigParserError
      | Some (k, x) =>
          if Py.is_empty k then Err ConfigParserError
          else
            let o := Py.lower (Py.rstrip k) in
            if Dict.mem o d then Err ConfigParserError
            else
              let st' := set_cursect st (Dict.set o [Py.strip x] d) in
              Ok {| p_defaults := p_defaults st';
                    p_sections := p_sections st'; p_cur := p_cur st';
                    p_opt := Some o; p_indent := ind |}
      end
  end.

(** One turn of the loop of [_read] on [line].  A parsing error that
    [_read] records and raises after the loop is raised here at once. *)
Definition read_line (st : pstate) (line : string) : result pstate :=
  let value := Py.strip line in
  if is_comment value then Ok st
  else if Py.is_empty value then Ok (append_line st EmptyString)
  else
    let ind := first_nonspace line in
    let continuation :=
      match cursect st, p_opt st with
      | Some _, Some _ => (p_indent st <? ind)%nat
      | _, _ => false
      end in
    if continuation then Ok (append_line st value)
    else
      match match_section value with
      | Some name => enter_section st ind name
      | None => enter_option st ind value
      end.

Fixpoint read_lines (st : pstate) (lines : list string) : result pstate :=
  match lines with
  | [] => Ok st
  | l :: ls => st' ← read_line st l; read_lines st' ls
  end.

(** [_join_multiline_values] on one dictionary. *)
Definition join_values (d : Dict.t (list string)) : Dict.t string :=
  map (fun kv => (fst kv, Py.rstrip (Py.join (String NL EmptyString) (snd kv)))) d.

(** [_read(fp, fpname)] into a new parser, [text] being the file. *)
Definition read_string (text : string) : result t :=
  st ← read_lines pstart (readlines (universal_newlines text));
  Ok {| defaults := join_values (p_defaults st);
        sections := map (fun kv => (fst kv, join_values (snd kv)))
                        (p_sections st) |}.

(** [cfg = ConfigParser(); cfg.read(location)]: a file that cannot be
    opened is skipped. *)
Definition read (file : option string) : result t :=
  match file with
  | None => Ok empty
  | Some text => read_string text
  end.

(** *** [BasicInterpolation] *)

(** The text up to the first [c], and the text after it. *)
Fixpoint split_at (c : ascii) (s : string) : option (string * string) :=
  match s with
  | EmptyString => None
  | String d s' =>
      if Ascii.eqb d c then Some (EmptyString, s')
      else match split_at c s' with
           | Some (a, b) => Some (String d a, b)
           | None => None
           end
  end.

(** [_KEYCRE.match(s)]: the variable name and the text after the match. *)
Definition keycre_match (s : string) : option (string * string) :=
  match s with
  | String "%" (String "(" r) =>
      match split_at ")" r with
      | Some (var, String "s" rest) =>
          if Py.is_empty var then None else Some (var, rest)
      | _ => None
      end
  | _ => None
  end.

(** [_KEYCRE.sub('', s)]; [skip] counts the characters of a match still to
    be dropped. *)
Fixpoint keycre_sub (skip : nat) (s : string) : string :=
  match s with
  | EmptyString => EmptyString
  | String c r =>
      match skip with
      | S k => keycre_sub k r
      | O =>
          match keycre_match s with
          | Some (var, _) => keycre_sub (String.length var + 3) r
          | None => String c (keycre_sub O r)
          end
      end
  end.

(** [before_set]: does the value pass the interpolation syntax check? *)
Definition before_set_ok (value : string) : bool :=
  negb (Py.contains "%" (keycre_sub O (Py.remove_double "%" value))).

(** [_interpolate_some]; [d] is the number of nesting levels left before
    [MAX_INTERPOLATION_DEPTH] is exceeded. *)
Fixpoint interpolate_some (d : nat) (lookup : string -> option string)
  : string -> result string :=
  match d with
  | O => fun _ => Err InterpolationError
  | S d' =>
      (fix go (skip : nat) (s : string) : result string :=
         match s with
         | EmptyString => Ok EmptyString
         | String c r =>
             match skip with
             | S k => go k r
             | O =>
                 if Ascii.eqb c "%" then
                   match r with
                   | String "%" _ => t ← go 1%nat r; Ok (String "%" t)
                   | String "(" _ =>
                       match keycre_match s with
                       | Some (var, _) =>
                           match lookup (Py.lower var) with
                           | Some v =>
                               x ← (if Py.contains "%" v
                                    then interpolate_some d' lookup v
                                    else Ok v);
                               t ← go (String.length var + 3)%nat r;
                               Ok (x +:+ t)
                           | None => Err InterpolationError
                           end
                       | None => Err InterpolationError
                       end
                   | _ => Err InterpolationError
                   end
                 else t ← go O r; Ok (String c t)
             end
         end) O
  end.

Definition MAX_INTERPOLATION_DEPTH : nat := 10.

(** *** The mapping protocol *)

Definition has_section (cfg : t) (name : string) : bool :=
  Dict.mem name (sections cfg).

(** [has_option(section, option)]. *)
Definition has_option (cfg : t) (section option : string) : bool :=
  if Py.is_empty section || String.eqb section default_section then
    Dict.mem (Py.lower option) (defaults cfg)
  else
    match Dict.get section (sections cfg) with
    | None => false
    | Some d =>
        Dict.mem (Py.lower option) d || Dict.mem (Py.lower option) (defaults cfg)
    end.

(** [_unify_values(section, None)] as a lookup: the section, then the
    defaults. *)
Definition unify_values (cfg : t) (section : string) (k : string)
  : option string :=
  let d := match Dict.get section (sections cfg) with
           | Some d => d
           | None => []
           end in
  match Dict.get k d with
  | Some v => Some v
  | None => Dict.get k (defaults cfg)
  end.

(** [get(section, option)] with interpolation. *)
Definition get (cfg : t) (section option : string) : result string :=
  match unify_values cfg section (Py.lower option) with
  | None => Err KeyError
  | Some value =>
      interpolate_some MAX_INTERPOLATION_DEPTH (unify_values cfg section) value
  end.

(** [options(section)], and [defaults()] for the default section: what a
    section proxy iterates over. *)
Definition proxy_options (cfg : t) (section : string) : list string :=
  if String.eqb section default_section then Dict.keys (defaults cfg)
  else
    match Dict.get section (sections cfg) with
    | Some d => Dict.keys (Dict.update d (defaults cfg))
    | None => []
    end.

(** [SectionProxy.__getitem__(key)]. *)
Definition proxy_getitem (cfg : t) (section key : string) : result string :=
  if has_option cfg section key then get cfg section key else Err KeyError.

Fixpoint proxy_collect (cfg : t) (section : string) (ks : list string)
  : result (Dict.t string) :=
  match ks with
  | [] => Ok []
  | k :: ks' =>
      v ← proxy_getitem cfg section k;
      d ← proxy_collect cfg section ks';
      Ok ((k, v) :: d)
  end.

(** [{**cfg[section]}]: [KeyError] when the section is unknown, otherwise
    the options of the proxy with their interpolated values. *)
Definition getitem_dict (cfg : t) (section : string) : result (Dict.t string) :=
  if String.eqb section default_section || has_section cfg section
  then proxy_collect cfg section (proxy_options cfg section)
  else Err KeyError.

(** *** [__setitem__] *)

(** [add_section(section)] as called by [read_dict], which ignores the
    refusal of an existing section and of the default section. *)
Definition add_section (cfg : t) (section : string) : t :=
  if String.eqb section default_section || has_section cfg section then cfg
  else {| defaults := defaults cfg;
          sections := (sections cfg ++ [(section, [])])%list |}.

(** [set(section, option, value)]. *)
Definition set (cfg : t) (section option value : string) : result t :=
  if negb (Py.is_empty value) && negb (before_set_ok value) then Err ValueError
  else if Py.is_empty section || String.eqb section default_section then
    Ok {| defaults := Dict.set (Py.lower option) value (defaults cfg);
          sections := sections cfg |}
  else
    match Dict.get section (sections cfg) with
    | None => Err KeyError
    | Some d =>
        Ok {| defaults := defaults cfg;
              sections := Dict.set section
                            (Dict.set (Py.lower option) value d)
                            (sections cfg) |}
    end.

Fixpoint set_all (cfg : t) (section : string) (items : list (string * string))
  : result t :=
  match items with
  | [] => Ok cfg
  | (k, v) :: items' =>
      cfg' ← set cfg section (Py.lower k) v;
      set_all cfg' section items'
  end.

(** [cfg[key] = items], [items] being a dictionary of strings with
    distinct lower-case keys. *)
Definition setitem (cfg : t) (key : string) (items : list (string * string))
  : result t :=
  let cleared :=
    if String.eqb key default_section then
      {| defaults := []; sections := sections cfg |}
    else if has_section cfg key then
      {| defaults := defaults cfg;
         sections := Dict.set key [] (sections cfg) |}
    else cfg in
  set_all (add_section cleared key) key items.

(** *** [write] *)

Definition write_item (kv : string * string) : string :=
  fst kv +:+ " = "
    +:+ Py.replace_char NL (String NL (String TAB EmptyString)) (snd kv)
    +:+ String NL EmptyString.

(** [_write_section(fp, name, items, " = ")]. *)
Definition write_section (name : string) (items : Dict.t string) : string :=
  "[" +:+ name +:+ "]" +:+ String NL EmptyString
    +:+ String.concat EmptyString (map write_item items)
    +:+ String NL EmptyString.

(** [cfg.write(fp)]: the text written to [fp]. *)
Definition write (cfg : t) : string :=
  (match defaults cfg with
   | [] => EmptyString
   | d => write_section default_section d
   end)
  +:+ String.concat EmptyString
        (map (fun s => write_section (fst s) (snd s)) (sections cfg)).

End ConfigParser.

(** ** pydantic and pydantic-settings *)

(** Floating-point values and the lax string conversions of pydantic-core:
    [float_str x] is [str(x)], [float_of_Z n] the float [n.0],
    [float_elapses x] tells whether [0 <= x < t] comes to hold as the time
    [t] goes by, that is whether [x] is a number, [0] or more, and not
    infinite,
    [lax_float s] and [lax_int s] what validating the string [s] against a
    [float] and an [int] field yields ([None] for a validation error). *)
Class Lax : Type := {
  pyfloat : Type;
  float_str : pyfloat -> string;
  float_of_Z : Z -> pyfloat;
  float_elapses : pyfloat -> bool;
  lax_float : string -> option pyfloat;
  lax_int : string -> option Z;
}.

Module Ini.

(** A value the file format carries unchanged when the file is read back:
    no blank at either end and no line break. *)
Definition plain (v : string) : bool :=
  String.eqb (Py.lstrip v) v && String.eqb (Py.rstrip v) v
  && negb (Py.contains ConfigParser.NL v)
  && negb (Py.contains ConfigParser.CR v).

(** A plain value that interpolation leaves alone: no percent sign. *)
Definition safe (v : string) : bool :=
  plain v && negb (Py.contains "%" v).

(** An option name the file format carries unchanged: not empty, lower
    case, no blank at either end, no delimiter, no line break, and a first
    character that starts neither a comment nor a section header. *)
Definition key_ok (k : string) : bool :=
  match k with
  | String c _ =>
      negb (Py.isspace c) && negb (Ascii.eqb c "#") && negb (Ascii.eqb c ";")
      && negb (Ascii.eqb c "[")
  | EmptyString => false
  end
  && String.eqb (Py.rstrip k) k && String.eqb (Py.lower k) k
  && negb (Py.contains "=" k) && negb (Py.contains ":" k)
  && negb (Py.contains ConfigParser.NL k)
  && negb (Py.contains ConfigParser.CR k).

(** A section name the file format carries unchanged. *)
Definition name_ok (n : string) : bool :=
  negb (Py.is_empty n)
  && negb (Py.contains ConfigParser.NL n)
  && negb (Py.contains ConfigParser.CR n).

Definition items_ok (items : Dict.t string) : bool :=
  Dict.distinct (Dict.keys items)
  && forallb (fun kv => key_ok (fst kv) && plain (snd kv)) items.

(** The parser states whose rendering by [write] reads back as
    themselves. *)
Definition wf (cfg : ConfigParser.t) : bool :=
  items_ok (ConfigParser.defaults cfg)
  && Dict.distinct (Dict.keys (ConfigParser.sections cfg))
  && forallb (fun s => name_ok (fst s)
                       && negb (String.eqb (fst s) ConfigParser.default_section)
                       && items_ok (snd s))
             (ConfigParser.sections cfg).

End Ini.

(** ** The rendering of [write], line by line *)

Module Canon.
Import ConfigParser.

(** The text made of the lines [ls], each with its terminator. *)
Definition unlines (ls : list string) : string :=
  String.concat EmptyString (map (fun l => l +:+ String NL EmptyString) ls).

Definition item_line (kv : string * string) : string :=
  fst kv +:+ " = " +:+ snd kv.

(** The stripped form of an item line. *)
Definition stripped_item (k v : string) : string :=
  k +:+ " =" +:+ (if Py.is_empty v then EmptyString else " " +:+ v).

Definition block_lines (name : string) (items : Dict.t string) : list string :=
  ("[" +:+ name +:+ "]") :: (map item_line items ++ [EmptyString])%list.

Definition section_lines (secs : Dict.t (Dict.t string)) : list string :=
  concat (map (fun s => block_lines (fst s) (snd s)) secs).

Definition cfg_lines (cfg : t) : list string :=
  (match defaults cfg with
   | [] => []
   | d => block_lines default_section d
   end ++ section_lines (sections cfg))%list.

Definition with_opt (st : pstate) (o : option string) : pstate :=
  mkp (p_defaults st) (p_sections st) (p_cur st) o (p_indent st).

(** The dictionary [_read] builds from the item lines of [items]. *)
Definition single (items : Dict.t string) : Dict.t (list string) :=
  map (fun kv => (fst kv, [snd kv])) items.

Fixpoint last_key (o : option string) (items : Dict.t string) : option string :=
  match items with
  | [] => o
  | (k, _) :: r => last_key (Some k) r
  end.

(** The dictionary of a block once its closing blank line is read: one
    line per value, and an empty second line for the last option. *)
Definition blank (o : option string) (d : Dict.t (list string))
  : Dict.t (list string) :=
  match o with
  | Some k =>
      match Dict.get k d with
      | Some ls => Dict.set k (ls ++ [EmptyString])%list d
      | None => d
      end
  | None => d
  end.

Definition raw (items : Dict.t string) : Dict.t (list string) :=
  blank (last_key None items) (single items).

Definition raw_sections (secs : Dict.t (Dict.t string))
  : Dict.t (Dict.t (list string)) :=
  map (fun s => (fst s, raw (snd s))) secs.

Definition sections_ok (secs : Dict.t (Dict.t string)) : bool :=
  forallb (fun s => Ini.name_ok (fst s)
                    && negb (String.eqb (fst s) default_section)
                    && Ini.items_ok (snd s)) secs.

(** No occurrence of [c] in the line [l]. *)
Definition clean (c : ascii) (l : string) : bool := negb (Py.contains c l).

(** A value [set] accepts. *)
Definition accepted (v : string) : bool := Py.is_empty v || before_set_ok v.

(** The items of a section after [read_dict] stored [items] into [d]. *)
Definition stored (items : list (string * string)) (d : Dict.t string)
  : Dict.t string :=
  fold_left (fun d kv => Dict.set (Py.lower (Py.lower (fst kv))) (snd kv) d)
            items d.

End Canon.

(** What the conversions must satisfy: printing then validating is the
    identity, and a printed float is plain text for the file format. *)
Class LaxLaws (L : Lax) : Prop := {
  lax_float_str : forall x : pyfloat, lax_float (float_str x) = Some x;
  float_str_safe : forall x : pyfloat, Ini.safe (float_str x) = true;
  lax_int_str : forall z : Z, lax_int (Py.str_of_Z z) = Some z;
}.

(** An instance for the examples: a float is a whole number [n], printed
    as [n.0], which is how Python prints the float below [10 ^ 16] in
    magnitude. The conversions accept a text in plain decimal notation,
    with a final [.0] for a float; pydantic accepts further notations
    (blanks around the number, a leading [+], underscores, an exponent,
    other fractions), which this instance refuses. The theorems are
    stated for every instance of [Lax], under [LaxLaws] where they need
    it; this one serves to evaluate them, on texts of the accepted
    notations. *)
Module WholeSeconds.

Definition int_of_str (s : string) : option Z :=
  match NilZero.int_of_string s with
  | Some d => Some (Z.of_int d)
  | None => None
  end.

(** [s] without a final [".0"], if it has one. *)
Fixpoint chop_point_zero (s : string) : option string :=
  match s with
  | String "." (String "0" EmptyString) => Some EmptyString
  | String c s' =>
      match chop_point_zero s' with
      | Some p => Some (String c p)
      | None => None
      end
  | EmptyString => None
  end.

Definition float_of_str (s : string) : option Z :=
  match chop_point_zero s with
  | Some p => int_of_str p
  | None => int_of_str s
  end.

#[global] Instance lax : Lax := {|
  pyfloat := Z;
  float_str := fun n => Py.str_of_Z n +:+ ".0";
  float_of_Z := fun n => n;
  float_elapses := fun n => Z.leb 0 n;
  lax_float := float_of_str;
  lax_int := int_of_str;
|}.

End WholeSeconds.

Module Pydantic.

(** Validation of a string against a [bool] field. *)
Definition lax_bool (s : string) : option bool :=
  let l := Py.lower s in
  if existsb (String.eqb l) ["0"; "off"; "f"; "false"; "n"; "no"] then Some false
  else if existsb (String.eqb l) ["1"; "on"; "t"; "true"; "y"; "yes"] then Some true
  else None.

(** The environment source of pydantic-settings: variable names are
    compared in lower case, [{k.lower(): v for k, v in os.environ.items()}]. *)
Definition env_vars (environ : list (string * string)) : Dict.t string :=
  Dict.of_pairs (map (fun kv => (Py.lower (fst kv), snd kv)) environ).

End Pydantic.

Section Settings.
Context {L : Lax}.

(** *** [class ConfigLocation(BaseSettings)] *)

Record ConfigLocation : Type := mkConfigLocation {
  azul_config_location : string;
  token_refresh_path_lock : string;
  token_lock_timeout : pyfloat;
}.

(** [ConfigLocation()]: each field from the environment when a variable
    of its name is set, otherwise the class default [dflt]. *)
Definition ConfigLocation_new (dflt : ConfigLocation)
    (environ : list (string * string)) : result ConfigLocation :=
  let env := Pydantic.env_vars environ in
  let path :=
    match Dict.get "azul_config_location" env with
    | Some v => v
    | None => azul_config_location dflt
    end in
  let lockp :=
    match Dict.get "token_refresh_path_lock" env with
    | Some v => v
    | None => token_refresh_path_lock dflt
    end in
  match Dict.get "token_lock_timeout" env with
  | Some v =>
      match lax_float v with
      | Some x => Ok (mkConfigLocation path lockp x)
      | None => Err ValidationError
      end
  | None => Ok (mkConfigLocation path lockp (token_lock_timeout dflt))
  end.

(** *** [class Config(BaseSettings)] *)

Record Config : Type := mkConfig {
  azul_url : string;
  oidc_url : string;
  auth_type : string;
  auth_scopes : string;
  auth_client_id : string;
  auth_client_secret : string;
  azul_verify_ssl : bool;
  auth_token : pyval;
  auth_token_time : Z;
  max_timeout : pyfloat;
  oidc_timeout : pyfloat;
}.

(** The compiled-in defaults of the fields. *)
Definition Config_defaults : Config := {|
  azul_url := "http://localhost";
  oidc_url := "http://keycloak/.well-known/openid-configuration";
  auth_type := "callback";
  auth_scopes := EmptyString;
  auth_client_id := "azul-web";
  auth_client_secret := EmptyString;
  azul_verify_ssl := true;
  auth_token := PDict [];
  auth_token_time := 0;
  max_timeout := float_of_Z 300;
  oidc_timeout := float_of_Z 10;
|}.

Definition Config_fields : list string :=
  [ "azul_url"; "oidc_url"; "auth_type"; "auth_scopes"; "auth_client_id";
    "auth_client_secret"; "azul_verify_ssl"; "auth_token"; "auth_token_time";
    "max_timeout"; "oidc_timeout" ].

(** [no_trailing_slash]. *)
Definition no_trailing_slash (v : string) : string := Py.rstrip_char "/" v.

Definition validate_str (v : pyval) : result string :=
  match v with
  | PStr s => Ok s
  | _ => Err ValidationError
  end.

Definition validate_bool (v : pyval) : result bool :=
  match v with
  | PBool b => Ok b
  | PStr s =>
      match Pydantic.lax_bool s with
      | Some b => Ok b
      | None => Err ValidationError
      end
  | PInt z =>
      if Z.eqb z 0 then Ok false
      else if Z.eqb z 1 then Ok true else Err ValidationError
  | PFloat _ => Err Unsupported
  | _ => Err ValidationError
  end.

Definition validate_int (v : pyval) : result Z :=
  match v with
  | PInt z => Ok z
  | PStr s =>
      match lax_int s with
      | Some z => Ok z
      | None => Err ValidationError
      end
  | PFloat _ => Err Unsupported
  | _ => Err ValidationError
  end.

Definition validate_float (v : pyval) : result pyfloat :=
  match v with
  | PInt z => Ok (float_of_Z z)
  | PStr s =>
      match lax_float s with
      | Some x => Ok x
      | None => Err ValidationError
      end
  | PFloat _ => Err Unsupported
  | _ => Err ValidationError
  end.

(** Validation against [dict | None]. *)
Definition validate_token (v : pyval) : result pyval :=
  match v with
  | PNone => Ok PNone
  | PDict d => Ok (PDict d)
  | _ => Err ValidationError
  end.

(** The value of an environment variable as the settings source hands it
    to validation: the text itself, or for the [dict | None] field the
    decoded JSON when the text decodes; a text that decodes to [None] is
    dropped by the source, as if the variable were not set. *)
Definition env_value (name v : string) : result (option pyval) :=
  if String.eqb name "auth_token" then
    match Json.loads v with
    | Ok PNone => Ok None
    | Ok x => Ok (Some x)
    | Err Unsupported => Err Unsupported
    | Err OutOfFuel => Err OutOfFuel
    | Err _ => Ok (Some (PStr v))
    end
  else Ok (Some (PStr v)).

(** The input of one field: the keyword argument, else the environment
    variable of that name, else nothing (the default applies). *)
Definition field_input (environ : list (string * string))
    (kwargs : Dict.t pyval) (name : string) : result (option pyval) :=
  match Dict.get name kwargs with
  | Some v => Ok (Some v)
  | None =>
      match Dict.get name (Pydantic.env_vars environ) with
      | Some v => env_value name v
      | None => Ok None
      end
  end.

Definition field {A : Type} (environ : list (string * string))
    (kwargs : Dict.t pyval) (name : string)
    (validate : pyval -> result A) (dflt : A) : result A :=
  i ← field_input environ kwargs name;
  match i with
  | Some v => validate v
  | None => Ok dflt
  end.

(** [Config] called with the keyword arguments [kwargs]: keywords that
    name no field are refused. *)
Definition Config_new (environ : list (string * string))
    (kwargs : Dict.t pyval) : result Config :=
  if negb (forallb (fun k => existsb (String.eqb k) Config_fields)
                   (Dict.keys kwargs))
  then Err ValidationError
  else
    let f {A : Type} := @field A environ kwargs in
    let d := Config_defaults in
    tok ← f "auth_token" validate_token (auth_token d);
    url ← f "azul_url" validate_str (azul_url d);
    oidc ← f "oidc_url" validate_str (oidc_url d);
    ty ← f "auth_type" validate_str (auth_type d);
    sc ← f "auth_scopes" validate_str (auth_scopes d);
    cid ← f "auth_client_id" validate_str (auth_client_id d);
    sec ← f "auth_client_secret" validate_str (auth_client_secret d);
    ssl ← f "azul_verify_ssl" validate_bool (azul_verify_ssl d);
    time ← f "auth_token_time" validate_int (auth_token_time d);
    mt ← f "max_timeout" validate_float (max_timeout d);
    ot ← f "oidc_timeout" validate_float (oidc_timeout d);
    Ok {| azul_url := no_trailing_slash url; oidc_url := oidc;
          auth_type := ty; auth_scopes := sc; auth_client_id := cid;
          auth_client_secret := sec; azul_verify_ssl := ssl;
          auth_token := tok; auth_token_time := time;
          max_timeout := mt; oidc_timeout := ot |}.

(** [tmp = self.model_dump(); tmp["auth_token"] = token], each value as
    [read_dict] stores it ([str(value)]). *)
Definition dump_items (self : Config) (token : string)
  : list (string * string) :=
  [ ("azul_url", azul_url self);
    ("oidc_url", oidc_url self);
    ("auth_type", auth_type self);
    ("auth_scopes", auth_scopes self);
    ("auth_client_id", auth_client_id self);
    ("auth_client_secret", auth_client_secret self);
    ("azul_verify_ssl", Py.str_of_bool (azul_verify_ssl self));
    ("auth_token", token);
    ("auth_token_time", Py.str_of_Z (auth_token_time self));
    ("max_timeout", float_str (max_timeout self));
    ("oidc_timeout", float_str (oidc_timeout self)) ].

(** No environment variable names a field of [Config]. *)
Definition no_settings_env (environ : list (string * string)) : bool :=
  forallb (fun f => negb (Dict.mem f (Pydantic.env_vars environ)))
          Config_fields.


(** The text fields are values the file format carries unchanged. *)
Definition fields_safe (c : Config) : bool :=
  Ini.safe (azul_url c) && Ini.safe (oidc_url c) && Ini.safe (auth_type c)
  && Ini.safe (auth_scopes c) && Ini.safe (auth_client_id c)
  && Ini.safe (auth_client_secret c).

(** Every option of the default section of [cfg] is a field of [Config]. *)
Definition defaults_known (cfg : ConfigParser.t) : bool :=
  forallb (fun k => existsb (String.eqb k) Config_fields)
          (Dict.keys (ConfigParser.defaults cfg)).

(** The token values [Config] accepts and [json] carries unchanged through
    the file: [None] or a dictionary, representable, without percent sign. *)
Definition token_ok (v : pyval) : bool :=
  match v with
  | PNone | PDict _ => Json.representable v && Json.percent_free v
  | _ => false
  end.

(** The records [save] followed by [get_config] gives back: the base URL
    is in the form [no_trailing_slash] leaves it in, the text fields are
    values the file format carries unchanged, the token is as above. *)
Definition storable (c : Config) : bool :=
  String.eqb (no_trailing_slash (azul_url c)) (azul_url c)
  && Ini.safe (azul_url c) && Ini.safe (oidc_url c) && Ini.safe (auth_type c)
  && Ini.safe (auth_scopes c) && Ini.safe (auth_client_id c)
  && Ini.safe (auth_client_secret c)
  && token_ok (auth_token c).

End Settings.

(** ** The process: module globals, environment, files, lock *)

Section Store.
Context {L : Lax}.

(** The state of a [FileLock] object: its file, its timeout, the lock
    counter of its context and whether it holds the OS-level lock
    ([is_locked]). *)
Record FileLock : Type := mkFileLock {
  lock_file : string;
  lock_timeout : pyfloat;
  lock_counter : nat;
  is_locked : bool;
}.

Record World : Type := mkWorld {
  (** outside the process *)
  fs : gmap string string;          (* regular files, by path *)
  held_elsewhere : bool;            (* another process holds the lock file *)
  (** the process *)
  environ : list (string * string); (* os.environ *)
  stderr : list string;             (* what print(..., file=sys.stderr) wrote *)
  flock_calls : nat;                (* OS-level lock attempts so far *)
  funlock_calls : nat;              (* OS-level unlocks so far *)
  (** the globals of config.py *)
  config_section : string;
  location_defaults : ConfigLocation;
  config_location : ConfigLocation;
  _lock_azul_config : FileLock;
}.

Definition set_fs (f : gmap string string) (w : World) : World :=
  mkWorld f (held_elsewhere w) (environ w) (stderr w) (flock_calls w)
    (funlock_calls w) (config_section w) (location_defaults w)
    (config_location w) (_lock_azul_config w).

Definition set_environ (e : list (string * string)) (w : World) : World :=
  mkWorld (fs w) (held_elsewhere w) e (stderr w) (flock_calls w)
    (funlock_calls w) (config_section w) (location_defaults w)
    (config_location w) (_lock_azul_config w).

Definition set_stderr (o : list string) (w : World) : World :=
  mkWorld (fs w) (held_elsewhere w) (environ w) o (flock_calls w)
    (funlock_calls w) (config_section w) (location_defaults w)
    (config_location w) (_lock_azul_config w).

Definition set_config_section (s : string) (w : World) : World :=
  mkWorld (fs w) (held_elsewhere w) (environ w) (stderr w) (flock_calls w)
    (funlock_calls w) s (location_defaults w)
    (config_location w) (_lock_azul_config w).

Definition set_lock (calls unlocks : nat) (l : FileLock) (w : World) : World :=
  mkWorld (fs w) (held_elsewhere w) (environ w) (stderr w) calls
    unlocks (config_section w) (location_defaults w)
    (config_location w) l.

(** Computations of the process: an outcome and the world after it. *)
Definition M (A : Type) : Type := World -> outcome A * World.

Definition ret {A : Type} (a : A) : M A := fun w => (Returns a, w).
Definition raise {A : Type} (e : exn) : M A := fun w => (Raises e, w).
Definition bind {A B : Type} (m : M A) (k : A -> M B) : M B :=
  fun w =>
    match m w with
    | (Returns a, w') => k a w'
    | (Raises e, w') => (Raises e, w')
    | (LockTimeout, w') => (LockTimeout, w')
    | (Blocked, w') => (Blocked, w')
    end.
Definition lift {A : Type} (r : result A) : M A :=
  fun w =>
    match r with
    | Ok a => (Returns a, w)
    | Err e => (Raises e, w)
    end.
Definition gets {A : Type} (f : World -> A) : M A :=
  fun w => (Returns (f w), w).
Definition modify (f : World -> World) : M unit := fun w => (Returns tt, f w).

#[global] Instance M_bind : MBind M := fun A B k m => bind m k.
#[global] Instance M_ret : MRet M := @ret.

(** [print(text, file=sys.stderr)]. *)
Definition print (text : string) : M unit :=
  modify (fun w => set_stderr (stderr w ++ [text])%list w).

(** [os.environ[k] = v], for the code around the store. *)
Definition putenv (k v : string) : M unit :=
  modify (fun w => set_environ (Dict.set k v (environ w)) w).

(** *** [filelock.FileLock] *)

(** [acquire()]: the counter goes up; a lock this object already holds is
    not asked for again; otherwise the OS-level lock is taken. When
    another process keeps it, the loop of [acquire] asks again until
    [0 <= timeout < elapsed], where it raises [Timeout] and takes the
    counter down again; with a timeout that is negative, infinite or not
    a number it asks without end, the counter staying up. The attempts
    of one such wait are counted as one. *)
Definition acquire : M unit := fun w =>
  let l := _lock_azul_config w in
  if is_locked l then
    (Returns tt, set_lock (flock_calls w) (funlock_calls w)
                   (mkFileLock (lock_file l) (lock_timeout l)
                               (S (lock_counter l)) true) w)
  else if held_elsewhere w then
    if float_elapses (lock_timeout l) then
      (LockTimeout, set_lock (S (flock_calls w)) (funlock_calls w) l w)
    else
      (Blocked, set_lock (S (flock_calls w)) (funlock_calls w)
                  (mkFileLock (lock_file l) (lock_timeout l)
                              (S (lock_counter l)) false) w)
  else
    (Returns tt, set_lock (S (flock_calls w)) (funlock_calls w)
                   (mkFileLock (lock_file l) (lock_timeout l)
                               (S (lock_counter l)) true) w).

(** [release()]: the counter goes down, and the OS-level lock is given up
    when it reaches zero. *)
Definition release (w : World) : World :=
  let l := _lock_azul_config w in
  if is_locked l then
    match lock_counter l with
    | S (S n) =>
        set_lock (flock_calls w) (funlock_calls w)
          (mkFileLock (lock_file l) (lock_timeout l) (S n) true) w
    | _ =>
        set_lock (flock_calls w) (S (funlock_calls w))
          (mkFileLock (lock_file l) (lock_timeout l) O false) w
    end
  else w.

(** [@_lock_azul_config]: the body runs between [acquire] and [release],
    and the release happens on every way out of the body. *)
Definition locked {A : Type} (body : M A) : M A := fun w =>
  match acquire w with
  | (Returns _, w1) =>
      match body w1 with
      | (r, w2) => (r, release w2)
      end
  | (Raises e, w') => (Raises e, w')
  | (LockTimeout, w') => (LockTimeout, w')
  | (Blocked, w') => (Blocked, w')
  end.

(** *** [config.py] *)

(** [switch_section(section)]. *)
Definition switch_section (section : string) : M unit :=
  modify (set_config_section section).

(** [ConfigLocation().azul_config_location]. *)
Definition current_location : M string :=
  fun w =>
    match ConfigLocation_new (location_defaults w) (environ w) with
    | Ok cl => (Returns (azul_config_location cl), w)
    | Err e => (Raises e, w)
    end.

(** The body of [Config.save]. *)
Definition save_body (self : Config) : M unit :=
  token ← lift (Json.dumps (auth_token self));
  let tmp := dump_items self token in
  location ← current_location;
  file ← gets (fun w => fs w !! location);
  cfg ← lift (ConfigParser.read file);
  section ← gets config_section;
  cfg' ← lift (ConfigParser.setitem cfg section tmp);
  target ← current_location;
  modify (fun w => set_fs (<[target := ConfigParser.write cfg']> (fs w)) w).

(** [Config.save]. *)
Definition save (self : Config) : M unit := locked (save_body self).

(** [conf["auth_token"] = json.loads(conf["auth_token"])] when the entry
    is present and not empty; the keyword arguments for [Config]. *)
Definition decode_token (conf : Dict.t string) : result (Dict.t pyval) :=
  let kwargs := map (fun kv => (fst kv, PStr (snd kv))) conf in
  match Dict.get "auth_token" conf with
  | Some v =>
      if Py.is_empty v then Ok kwargs
      else x ← Json.loads v; Ok (Dict.set "auth_token" x kwargs)
  | None => Ok kwargs
  end.

(** [get_config], lines 93 to 96: the branch for a file that is not
    there. *)
Definition generate_default (location : string) : M unit :=
  _ ← print ("ERROR - no config found - generating default at "
               +:+ location);
  _ ← print "You will likely need to edit this config.";
  env ← gets environ;
  conf ← lift (Config_new env []);
  save conf.

(** [get_config], lines 98 to 116: from the notice "Loading config" on. *)
Definition load_section (location : string) : M Config :=
  section ← gets config_section;
  _ ← print ("Loading config [" +:+ section +:+ "] from " +:+ location);
  file ← gets (fun w => fs w !! location);
  tmp ← lift (ConfigParser.read file);
  conf ← match ConfigParser.getitem_dict tmp section with
         | Ok d => ret d
         | Err KeyError =>
             if String.eqb section "default" then
               _ ← print ("Config section [" +:+ section
                            +:+ "] is invalid, generating defaults");
               ret []
             else raise InvalidSection
         | Err e => raise e
         end;
  kwargs ← lift (decode_token conf);
  env ← gets environ;
  config ← lift (Config_new env kwargs);
  _ ← print ("using Azul API at " +:+ azul_url config
               +:+ String ConfigParser.NL EmptyString);
  ret config.

(** The body of [get_config]. *)
Definition get_config_body : M Config :=
  location ← current_location;
  file ← gets (fun w => fs w !! location);
  _ ← match file with
      | Some _ => ret tt
      | None => generate_default location
      end;
  load_section location.

(** [get_config]. *)
Definition get_config : M Config := locked get_config_body.

(** [conf.auth_token = {}; conf.auth_token_time = 0]. *)
Definition reset_auth (conf : Config) : Config :=
  mkConfig (azul_url conf) (oidc_url conf) (auth_type conf)
    (auth_scopes conf) (auth_client_id conf) (auth_client_secret conf)
    (azul_verify_ssl conf) (PDict []) 0 (max_timeout conf)
    (oidc_timeout conf).

(** [clear_auth]. *)
Definition clear_auth : M unit :=
  locked (conf ← get_config; save (reset_auth conf)).

(** The module at import time: the class defaults of [ConfigLocation]
    ([ini] under the home directory, [lck] under the temporary directory),
    [config_location = ConfigLocation()] and the lock made from it. *)
Definition import_module (ini lck : string) (files : gmap string string)
    (env : list (string * string)) (elsewhere : bool) : result World :=
  let dflt := mkConfigLocation ini lck (float_of_Z 30) in
  cl ← ConfigLocation_new dflt env;
  Ok (mkWorld files elsewhere env [] O O "default" dflt cl
        (mkFileLock (token_refresh_path_lock cl) (token_lock_timeout cl)
                    O false)).

(** *** Notions for the statements *)

(** The process can take the lock now: it holds it already, or nobody
    does. *)
Definition lock_ok (w : World) : bool :=
  let l := _lock_azul_config w in
  if is_locked l then (0 <? lock_counter l)%nat
  else (lock_counter l =? 0)%nat && negb (held_elsewhere w).

(** The world after a successful [acquire]. *)
Definition acquired (w : World) : World :=
  let l := _lock_azul_config w in
  set_lock (if is_locked l then flock_calls w else S (flock_calls w))
    (funlock_calls w)
    (mkFileLock (lock_file l) (lock_timeout l) (S (lock_counter l)) true) w.

(** What [save], [get_config] and [clear_auth] never change. *)
Definition globals (w : World)
  : list (string * string) * string * ConfigLocation * ConfigLocation * bool
    * string * pyfloat :=
  (environ w, config_section w, location_defaults w, config_location w,
   held_elsewhere w, lock_file (_lock_azul_config w),
   lock_timeout (_lock_azul_config w)).

(** Where the process looks for its files: the environment, the class
    defaults and the module-level instance of [ConfigLocation], and the
    file and timeout of the lock. *)
Definition places (w : World)
  : list (string * string) * ConfigLocation * ConfigLocation
    * string * pyfloat :=
  (environ w, location_defaults w, config_location w,
   lock_file (_lock_azul_config w), lock_timeout (_lock_azul_config w)).

(** The path [ConfigLocation().azul_config_location] evaluates to. *)
Definition location_of (w : World) : result string :=
  cl ← ConfigLocation_new (location_defaults w) (environ w);
  Ok (azul_config_location cl).

(** [get_config] from the line that prints "Loading config" on, as a
    function of what it reads: the text of the file, the active section
    and the environment. *)
Definition read_config (text section : string)
    (env : list (string * string)) : outcome Config :=
  match ConfigParser.read_string text with
  | Err e => Raises e
  | Ok tmp =>
      match
        match ConfigParser.getitem_dict tmp section with
        | Ok d => Ok d
        | Err KeyError =>
            if String.eqb section "default" then Ok [] else Err InvalidSection
        | Err e => Err e
        end
      with
      | Err e => Raises e
      | Ok conf =>
          match decode_token conf with
          | Err e => Raises e
          | Ok kwargs =>
              match Config_new env kwargs with
              | Ok c => Returns c
              | Err e => Raises e
              end
          end
      end
  end.

(** The parser state [Config.save] writes out, as a function of what it
    reads: the record, the file and the active section. *)
Definition merged (self : Config) (file : option string) (section : string)
  : result ConfigParser.t :=
  token ← Json.dumps (auth_token self);
  cfg ← ConfigParser.read file;
  ConfigParser.setitem cfg section (dump_items self token).

(** The stored content of the section [name] of a parser state. *)
Definition section_items (cfg : ConfigParser.t) (name : string)
  : option (Dict.t string) :=
  if String.eqb name ConfigParser.default_section
  then Some (ConfigParser.defaults cfg)
  else Dict.get name (ConfigParser.sections cfg).

(** The calls the code around the store makes. *)
Inductive call : Type :=
| CallSwitch (section : string)
| CallSave (self : Config)
| CallLoad
| CallClearAuth.

Definition run_call (c : call) (w : World) : World :=
  match c with
  | CallSwitch s => snd (switch_section s w)
  | CallSave self => snd (save self w)
  | CallLoad => snd (get_config w)
  | CallClearAuth => snd (clear_auth w)
  end.

Definition run_calls (cs : list call) (w : World) : World :=
  fold_left (fun w c => run_call c w) cs w.

(** A computation that runs under the held lock without touching it: the
    lock object and the OS-level counts are as before, and it does not end
    in a wait for the lock. *)
Definition steady {A : Type} (m : M A) : Prop :=
  forall w,
    is_locked (_lock_azul_config w) = true ->
    (0 < lock_counter (_lock_azul_config w))%nat ->
    _lock_azul_config (snd (m w)) = _lock_azul_config w
    /\ flock_calls (snd (m w)) = flock_calls w
    /\ funlock_calls (snd (m w)) = funlock_calls w
    /\ held_elsewhere (snd (m w)) = held_elsewhere w
    /\ fst (m w) <> LockTimeout
    /\ fst (m w) <> Blocked.

(** A computation that only adds to what was printed. *)
Definition grows {A : Type} (m : M A) : Prop :=
  forall w, exists rest, stderr (snd (m w)) = (stderr w ++ rest)%list.

(** A computation that leaves the projection [f] of the world alone. *)
Definition keeps {A X : Type} (f : World -> X) (m : M A) : Prop :=
  forall w, f (snd (m w)) = f w.

End Store.

(** ** Callers: [tests/integration/test_binary_data_upload_multiprocessing.py] *)

Section Callers.
Context {L : Lax}.

(** [conf.auth_token_time = 0]. *)
Definition reset_time (conf : Config) : Config :=
  mkConfig (azul_url conf) (oidc_url conf) (auth_type conf)
    (auth_scopes conf) (auth_client_id conf) (auth_client_secret conf)
    (azul_verify_ssl conf) (auth_token conf) 0 (max_timeout conf)
    (oidc_timeout conf).

(** [update_azul_ini], decorated with the lock. *)
Definition update_azul_ini : M unit :=
  locked (conf ← get_config; save (reset_time conf)).

(** [for _i in range(n): body]. *)
Fixpoint for_range (n : nat) (body : M unit) : M unit :=
  match n with
  | O => ret tt
  | S n' => _ ← body; for_range n' body
  end.

(** [save_to_azul_init(_index)]: [except Exception] catches what the
    updates raise, the timeout of the lock included; an update that waits
    for the lock without end keeps the function from returning. The line
    it prints after an exception goes to the standard output, which is not
    part of the world. *)
Definition save_to_azul_init (_index : Z) : M string := fun w =>
  match for_range 4 update_azul_ini w with
  | (Returns _, w') => (Returns "success", w')
  | (Raises _, w') => (Returns "fail", w')
  | (LockTimeout, w') => (Returns "fail", w')
  | (Blocked, w') => (Blocked, w')
  end.

(** *** Further notions for the statements *)

(** The record [Config] builds from the fields of [c]: the base URL goes
    through [no_trailing_slash]. *)
Definition normalized (c : Config) : Config :=
  mkConfig (no_trailing_slash (azul_url c)) (oidc_url c) (auth_type c)
    (auth_scopes c) (auth_client_id c) (auth_client_secret c)
    (azul_verify_ssl c) (auth_token c) (auth_token_time c) (max_timeout c)
    (oidc_timeout c).

(** The records whose values the file format carries unchanged, whatever
    the end of the base URL. *)
Definition carried (c : Config) : bool :=
  fields_safe c && token_ok (auth_token c).

End Callers.

(** ** A concrete process, for the examples *)

Module Demo.

Definition home_ini : string := "/home/user/.azul.ini".
Definition tmp_lock : string := "/tmp/azul-token-refresh.lock".
Definition other_ini : string := "/tmp/other.ini".

Definition class_defaults : ConfigLocation (L := WholeSeconds.lax) :=
  mkConfigLocation home_ini tmp_lock 30.

(** The process right after the import of [config.py], on the files
    [files] and with the environment [env]; nobody holds the lock. *)
Definition fresh (files : gmap string string) (env : list (string * string))
  : World (L := WholeSeconds.lax) :=
  mkWorld files false env [] O O "default" class_defaults class_defaults
    (mkFileLock tmp_lock 30 O false).

(** The same process inside a function decorated with the lock. *)
Definition holding (files : gmap string string) : World :=
  acquired (fresh files []).

Definition defaults : Config (L := WholeSeconds.lax) := Config_defaults.

(** A record with a token and a time of issue. *)
Definition signed_in : Config (L := WholeSeconds.lax) :=
  mkConfig "https://azul.example" "https://sso.example/openid" "callback"
    "openid profile" "azul-web" "s3cret" false
    (PDict [("t", PStr "x"); ("expires_in", PInt 300)]) 1700000000 60 10.

(** Records that differ from the defaults in the client secret. *)
Definition with_secret (secret : string) : Config (L := WholeSeconds.lax) :=
  mkConfig "http://localhost"
    "http://keycloak/.well-known/openid-configuration" "callback"
    EmptyString "azul-web" secret true (PDict []) 0 300 10.

(** A record whose token holds a value [json] has no encoding for. *)
Definition with_object : Config (L := WholeSeconds.lax) :=
  mkConfig "http://localhost"
    "http://keycloak/.well-known/openid-configuration" "callback"
    EmptyString "azul-web" EmptyString true (PDict [("k", PObj 0)]) 0 300 10.

(** A file with one section written by hand, without spaces around the
    delimiter. *)
Definition by_hand : string :=
  "[b]" +:+ String ConfigParser.NL
    ("k=v" +:+ String ConfigParser.NL EmptyString).

(** A file in the form [write] gives it, with another profile. *)
Definition two_profiles : string :=
  ConfigParser.write
    (ConfigParser.mk []
       [("staging", [("azul_url", "https://staging.example")]);
        ("default", [("azul_url", "http://old.example");
                     ("auth_token_time", "5")])]).

(** A file whose default profile stores a token, a time of issue and a
    secret with an escaped percent sign. *)
Definition escaped_percent : string :=
  ConfigParser.write
    (ConfigParser.mk []
       [("default", [("auth_client_secret", "a%%b");
                     ("auth_token",
                      match Json.dumps (PDict [("t", PStr "x")]) with
                      | Ok j => j
                      | Err _ => EmptyString
                      end);
                     ("auth_token_time", "5")])]).

(** A file whose default profile stores a token that is not JSON: the
    text of a list, cut off after its first character. *)
Definition broken_token : string :=
  ConfigParser.write
    (ConfigParser.mk []
       [("default", [("auth_token", "[");
                     ("auth_token_time", "5")])]).

(** A file whose default profile has no token entry. *)
Definition no_token : string :=
  ConfigParser.write
    (ConfigParser.mk [] [("default", [("auth_scopes", EmptyString)])]).

(** A file whose default profile is signed in. *)
Definition signed_in_file : string :=
  ConfigParser.write
    (ConfigParser.mk []
       [("staging", [("azul_url", "https://staging.example")]);
        ("default",
         dump_items signed_in
           match Json.dumps (auth_token signed_in) with
           | Ok j => j
           | Err _ => EmptyString
           end)]).




(** The process while another one holds the lock. *)
Definition busy (files : gmap string string) : World (L := WholeSeconds.lax) :=
  mkWorld files true [] [] O O "default" class_defaults class_defaults
    (mkFileLock tmp_lock 30 O false).

(** The same in a process that was started with [TOKEN_LOCK_TIMEOUT=-1]:
    its lock waits without timeout. *)
Definition busy_for_good (files : gmap string string)
  : World (L := WholeSeconds.lax) :=
  match import_module home_ini tmp_lock files
          [("TOKEN_LOCK_TIMEOUT", "-1")] true with
  | Ok w => w
  | Err _ => busy files
  end.

(** A file with a line that is neither a header nor an option. *)
Definition malformed : string :=
  "[default]" +:+ String ConfigParser.NL
    ("azul_url" +:+ String ConfigParser.NL EmptyString).

(** A file whose default profile has an option that names no field. *)
Definition misspelt : string :=
  ConfigParser.write
    (ConfigParser.mk []
       [("default", [("azul_ur", "https://azul.example")])]).

(** A file whose default profile stores a JSON list as token. *)
Definition list_token : string :=
  ConfigParser.write
    (ConfigParser.mk []
       [("default", [("auth_token", "[1, 2]")])]).

(** A signed-in record whose base URL was assigned with slashes at its
    end. *)
Definition slashed : Config (L := WholeSeconds.lax) :=
  mkConfig "https://azul.example//" "https://sso.example/openid" "callback"
    "openid profile" "azul-web" "s3cret" false
    (PDict [("t", PStr "x")]) 1700000000 60 10.

End Demo.

(** * Proofs *)

Local Close Scope Z_scope.
Local Open Scope list_scope.
#[local] Unset Default Proof Using.

(** * Facts on strings *)

Module StrFacts.

Lemma sapp_assoc (a b c : string) : (a +:+ b) +:+ c = a +:+ (b +:+ c).
Proof. induction a; simpl; congruence. Qed.

Lemma sapp_nil_r (a : string) : a +:+ EmptyString = a.
Proof. induction a; simpl; congruence. Qed.

Lemma slength_app (a b : string) :
  String.length (a +:+ b) = (String.length a + String.length b)%nat.
Proof. induction a; simpl; congruence. Qed.

Lemma all_chars_app p a b :
  Py.all_chars p (a +:+ b) = Py.all_chars p a && Py.all_chars p b.
Proof. induction a; simpl; [reflexivity|]. rewrite IHa. apply andb_assoc. Qed.

Lemma all_chars_impl (p q : ascii -> bool) s :
  (forall c, p c = true -> q c = true) ->
  Py.all_chars p s = true -> Py.all_chars q s = true.
Proof.
  intros Hpq. induction s; simpl; [reflexivity|].
  intros [H1 H2]%andb_prop. rewrite (Hpq _ H1). auto.
Qed.

Lemma contains_all_chars c s :
  Py.all_chars (fun d => negb (Ascii.eqb c d)) s = negb (Py.contains c s).
Proof.
  induction s; simpl; [reflexivity|]. rewrite IHs, negb_orb. reflexivity.
Qed.

Lemma is_empty_app s t : Py.is_empty t = false -> Py.is_empty (s +:+ t) = false.
Proof. destruct s; simpl; auto. Qed.

Lemma rstrip_app s t :
  Py.is_empty (Py.rstrip t) = false -> Py.rstrip (s +:+ t) = s +:+ Py.rstrip t.
Proof.
  intros H. induction s as [|c s IH]; simpl; [reflexivity|].
  rewrite IH, is_empty_app by assumption. rewrite andb_false_r. reflexivity.
Qed.

Lemma rstrip_app_blank s t :
  Py.rstrip t = EmptyString -> Py.rstrip (s +:+ t) = Py.rstrip s.
Proof.
  intros H. induction s as [|c s IH]; simpl; [exact H|].
  rewrite IH. reflexivity.
Qed.

Lemma rstrip_nonempty s :
  Py.rstrip s = s -> Py.is_empty s = false -> Py.is_empty (Py.rstrip s) = false.
Proof. intros ->. auto. Qed.

Lemma contains_app c s t :
  Py.contains c (s +:+ t) = Py.contains c s || Py.contains c t.
Proof. induction s; simpl; [reflexivity|]. rewrite IHs, orb_assoc. reflexivity. Qed.

End StrFacts.

(** * Facts on [json]: decoding an encoding gives the value back *)

Module JsonFacts.
Import Json.

Lemma scanstring_escape_char c r x rest :
  scanstring r = Ok (x, rest) ->
  scanstring (escape_char c +:+ r) = Ok (String c x, rest).
Proof.
  intros H.
  destruct c as [[] [] [] [] [] [] [] []];
    match goal with
    | |- context [escape_char ?c] =>
        let e := eval vm_compute in (escape_char c) in
        change (escape_char c) with e
    end;
    cbn; rewrite H; reflexivity.
Qed.

Lemma scanstring_escape s rest :
  scanstring (escape s +:+ String dquote rest) = Ok (s, rest).
Proof.
  induction s as [|c s IH]; simpl.
  - reflexivity.
  - rewrite StrFacts.sapp_assoc. apply scanstring_escape_char, IH.
Qed.

(** Every character [escape] writes is printable ASCII; a percent sign
    comes from a percent sign. *)
Lemma escape_char_text c :
  Ascii.eqb c "%" = false ->
  Py.all_chars text_char (escape_char c) = true.
Proof.
  destruct c as [[] [] [] [] [] [] [] []]; intros H; try discriminate H;
    vm_compute; reflexivity.
Qed.

Lemma escape_text s :
  Py.contains "%" s = false -> Py.all_chars text_char (escape s) = true.
Proof.
  induction s as [|c s IH]; simpl; [reflexivity|].
  intros [H1 H2]%orb_false_elim.
  rewrite StrFacts.all_chars_app, IH by assumption.
  rewrite escape_char_text; [reflexivity|].
  rewrite Ascii.eqb_sym. exact H1.
Qed.

Lemma encode_string_text s :
  Py.contains "%" s = false -> Py.all_chars text_char (encode_string s) = true.
Proof.
  intros H. unfold encode_string. simpl.
  rewrite StrFacts.all_chars_app, escape_text by assumption. reflexivity.
Qed.

Lemma to_uint_headed p : headed (Pos.to_uint p).
Proof.
  pose proof (Unsigned.to_of (Pos.to_uint p)) as H.
  rewrite Unsigned.of_to in H. simpl in H.
  pose proof (Unsigned.to_uint_nonzero p) as Hz.
  assert (Hn : Decimal.nzhead (Pos.to_uint p) <> Decimal.Nil).
  { intros E. apply Hz. rewrite H. apply unorm_0. exact E. }
  rewrite (unorm_nzhead _ Hn) in H.
  destruct (Pos.to_uint p) eqn:E; simpl; auto.
  apply (nzhead_nonzero (Decimal.D0 u) u). symmetry. exact H.
Qed.

Lemma to_int_shape z :
  Z.to_int z = Decimal.Pos (Decimal.D0 Decimal.Nil)
  \/ exists u, headed u
       /\ (Z.to_int z = Decimal.Pos u \/ Z.to_int z = Decimal.Neg u).
Proof.
  destruct z as [|p|p]; simpl.
  - left. reflexivity.
  - right. exists (Pos.to_uint p). split; [apply to_uint_headed|auto].
  - right. exists (Pos.to_uint p). split; [apply to_uint_headed|auto].
Qed.

Lemma span_digits_uint u rest :
  starts_digit rest = false ->
  span_digits (NilEmpty.string_of_uint u +:+ rest)
  = (NilEmpty.string_of_uint u, rest).
Proof.
  intros H. induction u; simpl;
    try (rewrite IHu; reflexivity).
  destruct rest as [|c r]; simpl in *; [reflexivity|].
  rewrite H. reflexivity.
Qed.

Lemma all_digits_uint u :
  Py.all_chars is_digit (NilEmpty.string_of_uint u) = true.
Proof. induction u; simpl; auto. Qed.

Lemma match_integer_str z rest :
  starts_digit rest = false ->
  match_integer (Py.str_of_Z z +:+ rest) = Some (Py.str_of_Z z, rest).
Proof.
  intros H. unfold Py.str_of_Z.
  destruct (to_int_shape z) as [E|(u & Hu & [E|E])]; rewrite E.
  - reflexivity.
  - destruct u; simpl in Hu; try contradiction;
      simpl; unfold match_integer; simpl;
      rewrite (span_digits_uint u rest H); reflexivity.
  - destruct u; simpl in Hu; try contradiction;
      simpl; unfold match_integer; simpl;
      rewrite (span_digits_uint u rest H); reflexivity.
Qed.

Lemma int_of_string_str z :
  NilZero.int_of_string (Py.str_of_Z z) = Some (Z.to_int z).
Proof.
  unfold Py.str_of_Z. apply NilZero.isi.
  - destruct z; simpl; try discriminate.
    intros [= E]. apply (Unsigned.to_uint_nonnil p E).
  - destruct z; simpl; try discriminate.
    intros [= E]. apply (Unsigned.to_uint_nonnil p E).
Qed.

Lemma int_of_text_str z : int_of_text (Py.str_of_Z z) = Ok (PInt z).
Proof.
  unfold int_of_text. rewrite int_of_string_str, DecimalZ.of_to. reflexivity.
Qed.

Lemma pyval_induction (P : pyval -> Prop) :
  P PNone ->
  (forall b, P (PBool b)) ->
  (forall z, P (PInt z)) ->
  (forall s, P (PStr s)) ->
  (forall l, Forall P l -> P (PList l)) ->
  (forall d, Forall (fun kv => P (snd kv)) d -> P (PDict d)) ->
  (forall n, P (PObj n)) ->
  (forall f, P (PFloat f)) ->
  forall v, P v.
Proof.
  intros HN HB HI HS HL HD HO HF.
  fix IH 1. intros [ |b|z|s|l|d|n|f].
  - exact HN.
  - apply HB.
  - apply HI.
  - apply HS.
  - apply HL. induction l as [|x l IHl]; constructor; [apply IH|exact IHl].
  - apply HD. induction d as [|[k x] d IHd]; constructor; [apply IH|exact IHd].
  - apply HO.
  - apply HF.
Qed.

Lemma skip_ws_value j r :
  starts_value j = true -> skip_ws (j +:+ r) = j +:+ r.
Proof.
  destruct j as [|c j]; simpl; [discriminate|].
  destruct c as [[] [] [] [] [] [] [] []]; simpl; try discriminate; reflexivity.
Qed.

Lemma ends_value_digit rest :
  ends_value rest = true ->
  starts_digit rest = false /\ has_frac_or_exp rest = false.
Proof.
  destruct rest as [|c r]; simpl; [auto|].
  destruct c as [[] [] [] [] [] [] [] []]; simpl; try discriminate; auto.
Qed.

Lemma JSONArray_value scan s :
  starts_value s = true ->
  JSONArray scan s = array_loop scan (S (String.length s)) [] s.
Proof.
  intros H. unfold JSONArray.
  rewrite <- (StrFacts.sapp_nil_r s) at 1. rewrite skip_ws_value by assumption.
  rewrite StrFacts.sapp_nil_r.
  destruct s as [|c s]; [discriminate|].
  destruct c as [[] [] [] [] [] [] [] []]; simpl in H; try discriminate; reflexivity.
Qed.

Lemma scan_once_null n rest : scan_once (S n) ("null" +:+ rest) = Ok (PNone, rest).
Proof. reflexivity. Qed.

Lemma scan_once_bool n (b : bool) rest :
  scan_once (S n) ((if b then "true" else "false") +:+ rest) = Ok (PBool b, rest).
Proof. destruct b; reflexivity. Qed.

Lemma str_of_Z_starts z r : starts_number (Py.str_of_Z z +:+ r) = true.
Proof.
  unfold Py.str_of_Z.
  destruct (JsonFacts.to_int_shape z) as [E|(u & Hu & [E|E])]; rewrite E.
  - reflexivity.
  - destruct u; simpl in Hu; try contradiction; reflexivity.
  - reflexivity.
Qed.

Lemma scan_once_number n s :
  starts_number s = true ->
  scan_once (S n) s =
    match match_integer s with
    | Some (t, rest) =>
        if has_frac_or_exp rest then Ok (float_literal t rest)
        else v ← int_of_text t; Ok (v, rest)
    | None => match_constant s
    end.
Proof.
  destruct s as [|c s]; [discriminate|].
  destruct c as [[] [] [] [] [] [] [] []]; simpl; try discriminate; reflexivity.
Qed.

Lemma scan_once_int n z rest :
  ends_value rest = true ->
  scan_once (S n) (Py.str_of_Z z +:+ rest) = Ok (PInt z, rest).
Proof.
  intros H. destruct (ends_value_digit rest H) as [H1 H2].
  rewrite scan_once_number by apply str_of_Z_starts.
  rewrite JsonFacts.match_integer_str by assumption.
  rewrite H2, JsonFacts.int_of_text_str. reflexivity.
Qed.

Lemma scan_once_str n s rest :
  scan_once (S n) (encode_string s +:+ rest) = Ok (PStr s, rest).
Proof.
  unfold encode_string. simpl. rewrite StrFacts.sapp_assoc. simpl.
  rewrite JsonFacts.scanstring_escape. reflexivity.
Qed.

Lemma str_of_Z_value z : starts_value (Py.str_of_Z z) = true.
Proof.
  pose proof (str_of_Z_starts z EmptyString) as H.
  rewrite StrFacts.sapp_nil_r in H.
  destruct (Py.str_of_Z z) as [|c s]; [discriminate|].
  simpl in *. destruct (Ascii.eqb c "-"), (is_digit c); try discriminate;
    rewrite ?orb_true_r; reflexivity.
Qed.

Lemma array_loop_items scan l js :
  Forall2 (scans scan) l js -> l <> [] ->
  forall k acc rest, (length l <= k)%nat ->
    array_loop scan k acc (Py.join ", " js +:+ String "]" rest)
    = Ok (PList (acc ++ l), rest).
Proof.
  induction 1 as [|x j l js [Hj Hx] Hl IH]; [congruence|].
  intros _ k acc rest Hk. destruct k as [|k]; [simpl in Hk; lia|].
  destruct Hl as [|y jy l js Hy Hl].
  - simpl. rewrite Hx by reflexivity. reflexivity.
  - change (Py.join ", " (j :: jy :: js))
      with (j +:+ ", " +:+ Py.join ", " (jy :: js)).
    rewrite !StrFacts.sapp_assoc.
    cbn [array_loop]. rewrite Hx by reflexivity. cbn [mbind result_bind rbind].
    change (", " +:+ ?t) with (String "," (String " " t)).
    cbn [skip_ws is_ws].
    assert (Hs : skip_ws (Py.join ", " (jy :: js) +:+ String "]" rest)
                 = Py.join ", " (jy :: js) +:+ String "]" rest).
    { destruct Hy as [Hy _]. destruct js as [|jz js].
      - simpl. apply skip_ws_value, Hy.
      - change (Py.join ", " (jy :: jz :: js))
          with (jy +:+ ", " +:+ Py.join ", " (jz :: js)).
        rewrite StrFacts.sapp_assoc. apply skip_ws_value, Hy. }
    simpl in Hs |- *. rewrite Hs.
    rewrite IH; [|discriminate|simpl in *; lia].
    rewrite <- app_assoc. reflexivity.
Qed.

Lemma object_loop_items scan (d : list (string * pyval)) js :
  Forall2 (fun kv j => scans scan (snd kv) j) d js -> d <> [] ->
  forall k acc rest, (length d <= k)%nat ->
    object_loop scan k acc (object_text (combine (map fst d) js) rest)
    = Ok (PDict (Dict.of_pairs (acc ++ d)), rest).
Proof.
  induction 1 as [|[key x] j d js [Hj Hx] Hd IH]; [congruence|].
  intros _ k acc rest Hk. destruct k as [|k]; [simpl in Hk; lia|].
  cbn [map fst combine object_text object_loop].
  rewrite JsonFacts.scanstring_escape. cbn [mbind result_bind rbind].
  change (": " +:+ ?t) with (String ":" (String " " t)).
  cbn [skip_ws is_ws]. rewrite skip_ws_value by assumption.
  destruct Hd as [|[key2 y] jy d js Hy Hd].
  - cbn [map combine]. rewrite Hx by reflexivity. reflexivity.
  - cbn [map fst combine]. rewrite Hx by reflexivity.
    cbn [mbind result_bind rbind].
    change (", " +:+ ?t) with (String "," (String " " t)).
    cbn [skip_ws is_ws]. cbn.
    change (key2 :: map fst d) with (map fst ((key2, y) :: d)).
    change ((key2, jy) :: combine (map fst d) js)
      with (combine (map fst ((key2, y) :: d)) (jy :: js)) in *.
    specialize (IH ltac:(discriminate) k (acc ++ [(key, x)])%list rest).
    cbn [map fst combine] in IH |- *.
    assert (IH' := IH ltac:(simpl in *; lia)).
    rewrite <- app_assoc in IH'. exact IH'.
Qed.

Lemma starts_value_app j r : starts_value j = true -> starts_value (j +:+ r) = true.
Proof. destruct j; [discriminate|]. simpl. auto. Qed.

Lemma join_cons sep j j' js :
  Py.join sep (j :: j' :: js) = j +:+ sep +:+ Py.join sep (j' :: js).
Proof. reflexivity. Qed.

Lemma join_starts j js r :
  starts_value j = true -> starts_value (Py.join ", " (j :: js) +:+ r) = true.
Proof.
  intros H. destruct js as [|j' js].
  - simpl. apply starts_value_app, H.
  - rewrite join_cons, StrFacts.sapp_assoc. apply starts_value_app, H.
Qed.

Lemma length_join js r :
  Forall (fun j => starts_value j = true) js ->
  (length js <= String.length (Py.join ", " js +:+ r))%nat.
Proof.
  induction 1 as [|j js Hj Hjs IH]; [simpl; lia|].
  destruct js as [|j' js].
  - simpl. destruct j; [discriminate|]. simpl. lia.
  - rewrite join_cons, !StrFacts.sapp_assoc, StrFacts.slength_app.
    rewrite StrFacts.slength_app.
    destruct j; [discriminate|]. simpl in *. lia.
Qed.

Lemma distinct_of_pairs_acc {V} (d acc : list (string * V)) :
  Dict.distinct (map fst (acc ++ d)) = true ->
  fold_left (fun m kv => Dict.set (fst kv) (snd kv) m) d acc = (acc ++ d)%list.
Proof.
  revert acc. induction d as [|[k v] d IH]; intros acc H; simpl.
  - rewrite app_nil_r. reflexivity.
  - assert (E : Dict.set k v acc = (acc ++ [(k, v)])%list).
    { clear IH. induction acc as [|[k' v'] acc IHa]; simpl; [reflexivity|].
      simpl in H. apply andb_prop in H as [H1 H2].
      rewrite map_app, existsb_app in H1. simpl in H1.
      rewrite !negb_orb in H1.
      destruct (String.eqb_spec k k') as [->|_].
      - rewrite String.eqb_refl in H1. simpl in H1.
        rewrite andb_false_r in H1. discriminate.
      - rewrite IHa by assumption. reflexivity. }
    rewrite E. rewrite IH; rewrite <- app_assoc; [reflexivity|exact H].
Qed.

Lemma distinct_of_pairs {V} (d : list (string * V)) :
  Dict.distinct (map fst d) = true -> Dict.of_pairs d = d.
Proof. intros H. apply (distinct_of_pairs_acc d []), H. Qed.

Lemma depth_list x l n :
  In x l -> (list_max (map depth l) < n)%nat -> (depth x < n)%nat.
Proof.
  intros Hin H. assert (Hle : (list_max (map depth l) <= list_max (map depth l))%nat) by lia.
  apply list_max_le in Hle. rewrite List.Forall_forall in Hle.
  specialize (Hle (depth x) (in_map depth l x Hin)). lia.
Qed.

Lemma roundtrips_scans n x j :
  roundtrips x j -> (depth x < n)%nat -> scans (scan_once n) x j.
Proof. intros (_ & H1 & H2) Hn. split; auto. Qed.

Lemma object_text_join (kjs : list (string * string)) rest :
  kjs <> [] ->
  Py.join ", " (map (fun kj => encode_string (fst kj) +:+ ": " +:+ snd kj) kjs)
    +:+ String "}" rest
  = String dquote (object_text kjs rest).
Proof.
  induction kjs as [|[k j] kjs IH]; [congruence|]. intros _.
  destruct kjs as [|[k' j'] kjs].
  - simpl. unfold encode_string. simpl.
    rewrite ?StrFacts.sapp_assoc. simpl. rewrite ?StrFacts.sapp_assoc. reflexivity.
  - cbn [map]. rewrite join_cons.
    change (object_text ((k, j) :: (k', j') :: kjs) rest)
      with (escape k +:+ String dquote (": " +:+ j +:+ ", "
              +:+ String dquote (object_text ((k', j') :: kjs) rest))).
    rewrite <- IH by discriminate.
    unfold encode_string. cbn [map fst snd].
    rewrite ?StrFacts.sapp_assoc. simpl. rewrite ?StrFacts.sapp_assoc. reflexivity.
Qed.

Lemma sequence_dumps l js :
  Forall2 roundtrips l js -> sequence (map dumps l) = Ok js.
Proof.
  induction 1 as [|x j l js (Hd & _) _ IH]; simpl; [reflexivity|].
  rewrite Hd, IH. reflexivity.
Qed.

Lemma sequence_dumps_dict (d : list (string * pyval)) js :
  Forall2 (fun kv j => roundtrips (snd kv) j) d js ->
  sequence (map (fun kv => j ← dumps (snd kv);
                           Ok (encode_string (fst kv) +:+ ": " +:+ j)) d)
  = Ok (map (fun kj => encode_string (fst kj) +:+ ": " +:+ snd kj)
            (combine (map fst d) js)).
Proof.
  induction 1 as [|[k x] j l js (Hd & _) _ IH]; [reflexivity|].
  cbn [map sequence fst snd combine] in *. rewrite Hd.
  cbn [mbind result_bind rbind]. rewrite IH. reflexivity.
Qed.

Lemma Forall_roundtrips {A} (f : A -> pyval) (l : list A) :
  Forall (fun a => representable (f a) = true -> exists j, roundtrips (f a) j) l ->
  forallb (fun a => representable (f a)) l = true ->
  exists js, Forall2 (fun a j => roundtrips (f a) j) l js.
Proof.
  induction 1 as [|a l Ha _ IH]; simpl.
  - exists []. constructor.
  - intros [H1 H2]%andb_prop. destruct (Ha H1) as [j Hj].
    destruct (IH H2) as [js Hjs]. exists (j :: js). constructor; assumption.
Qed.

Lemma length_object_text (kjs : list (string * string)) rest :
  (length kjs <= String.length (object_text kjs rest))%nat.
Proof.
  induction kjs as [|[k j] kjs IH]; [simpl; lia|].
  destruct kjs as [|kj kjs].
  - simpl. rewrite StrFacts.slength_app. simpl. lia.
  - change (object_text ((k, j) :: kj :: kjs) rest)
      with (escape k +:+ String dquote (": " +:+ j +:+ ", "
              +:+ String dquote (object_text (kj :: kjs) rest))).
    rewrite StrFacts.slength_app. cbn [String.length].
    rewrite !StrFacts.slength_app. cbn [String.length].
    simpl length in *. lia.
Qed.

Theorem dumps_roundtrips v : representable v = true -> exists j, roundtrips v j.
Proof.
  induction v as [ |b|z|s|l IH|d IH|n|f] using pyval_induction; intros Hr.
  - exists "null". repeat split. intros [|n] rest Hn _; [lia|]. apply scan_once_null.
  - exists (if b then "true" else "false"). split; [destruct b; reflexivity|].
    split; [destruct b; reflexivity|].
    intros [|n] rest Hn _; [lia|]. apply scan_once_bool.
  - exists (Py.str_of_Z z). split; [reflexivity|]. split; [apply str_of_Z_value|].
    intros [|n] rest Hn Hrest; [lia|]. apply scan_once_int, Hrest.
  - exists (encode_string s). repeat split.
    intros [|n] rest Hn _; [lia|]. apply scan_once_str.
  - simpl in Hr.
    destruct (Forall_roundtrips (fun x => x) l IH Hr) as [js Hjs].
    exists ("[" +:+ Py.join ", " js +:+ "]"). split; [|split; [reflexivity|]].
    { simpl. rewrite (sequence_dumps l js Hjs). reflexivity. }
    intros [|n] rest Hn Hrest; [lia|]. simpl in Hn.
    change (("[" +:+ Py.join ", " js +:+ "]") +:+ rest)
      with (String "[" ((Py.join ", " js +:+ "]") +:+ rest)).
    rewrite StrFacts.sapp_assoc. cbn [scan_once]. cbn.
    destruct Hjs as [|x j l js Hx Hjs].
    + reflexivity.
    + assert (Hall : Forall2 (scans (scan_once n)) (x :: l) (j :: js)).
      { assert (F : Forall2 roundtrips (x :: l) (j :: js)) by (constructor; assumption).
        clear -F Hn. revert Hn. induction F as [|a ja l' js' Ha _ IHF]; intros Hn.
        - constructor.
        - constructor.
          + apply roundtrips_scans; [exact Ha|].
            apply (depth_list a (a :: l')); [left; reflexivity|lia].
          + apply IHF. simpl in Hn |- *. lia. }
      rewrite JSONArray_value by (apply join_starts, Hx).
      rewrite (array_loop_items _ _ _ Hall); [reflexivity|discriminate|].
      apply le_S. etransitivity; [|apply length_join].
      * apply Forall2_length in Hall. rewrite Hall. reflexivity.
      * clear -Hall. induction Hall as [|? ? ? ? [H _]]; constructor; auto.
  - simpl in Hr. apply andb_prop in Hr as [Hdis Hr].
    destruct (Forall_roundtrips snd d IH Hr) as [js Hjs].
    set (items := map (fun kj => encode_string (fst kj) +:+ ": " +:+ snd kj)
                      (combine (map fst d) js)).
    exists ("{" +:+ Py.join ", " items +:+ "}"). split; [|split; [reflexivity|]].
    { cbn [dumps]. rewrite (sequence_dumps_dict d js Hjs). reflexivity. }
    intros [|n] rest Hn Hrest; [lia|]. simpl in Hn.
    change (("{" +:+ Py.join ", " items +:+ "}") +:+ rest)
      with (String "{" ((Py.join ", " items +:+ "}") +:+ rest)).
    rewrite StrFacts.sapp_assoc. cbn [scan_once]. cbn.
    destruct Hjs as [|[k x] j d js Hx Hjs].
    + reflexivity.
    + assert (Hall : Forall2 (fun kv j => scans (scan_once n) (snd kv) j)
                             ((k, x) :: d) (j :: js)).
      { assert (F : Forall2 (fun kv j => roundtrips (snd kv) j)
                            ((k, x) :: d) (j :: js)) by (constructor; assumption).
        clear -F Hn. revert Hn. induction F as [|a ja l' js' Ha _ IHF]; intros Hn.
        - constructor.
        - constructor.
          + apply roundtrips_scans; [exact Ha|]. simpl in Hn. lia.
          + apply IHF. simpl in Hn |- *. lia. }
      subst items.
      rewrite object_text_join by (simpl; discriminate).
      pose proof (object_loop_items _ _ _ Hall ltac:(discriminate)) as HL.
      pose proof (length_object_text
                    (combine (map fst ((k, x) :: d)) (j :: js)) rest) as HB.
      set (body := object_text (combine (map fst ((k, x) :: d)) (j :: js)) rest)
        in *.
      unfold JSONObject. cbn -[object_loop String.length].
      rewrite (HL _ [] rest).
      * simpl app. rewrite distinct_of_pairs by exact Hdis. reflexivity.
      * apply le_S. etransitivity; [|exact HB].
        apply Forall2_length in Hall.
        rewrite length_combine, length_map. lia.
  - discriminate.
  - discriminate.
Qed.

Lemma sequence_inv {A B} (f : A -> result B) l js :
  sequence (map f l) = Ok js -> Forall2 (fun x j => f x = Ok j) l js.
Proof.
  revert js. induction l as [|x l IH]; intros js; cbn [map sequence].
  - intros [= <-]. constructor.
  - destruct (f x) as [j|e] eqn:E; cbn [mbind result_bind rbind]; [|discriminate].
    destruct (sequence (map f l)) as [js'|e] eqn:E'; cbn [mbind result_bind rbind];
      [|discriminate].
    intros [= <-]. constructor; [exact E|]. apply IH. reflexivity.
Qed.

Lemma str_of_Z_text z : Py.all_chars text_char (Py.str_of_Z z) = true.
Proof.
  assert (D : forall u, Py.all_chars text_char (NilEmpty.string_of_uint u) = true).
  { induction u; simpl; auto. }
  unfold Py.str_of_Z.
  destruct (JsonFacts.to_int_shape z) as [E|(u & Hu & [E|E])]; rewrite E.
  - reflexivity.
  - specialize (D u). destruct u; simpl in Hu; try contradiction; exact D.
  - specialize (D u). destruct u; simpl in Hu; try contradiction; exact D.
Qed.

Lemma join_text js :
  Forall (fun j => Py.all_chars text_char j = true) js ->
  Py.all_chars text_char (Py.join ", " js) = true.
Proof.
  induction 1 as [|j js Hj _ IH]; [reflexivity|].
  destruct js as [|j' js]; [exact Hj|].
  rewrite join_cons, !StrFacts.all_chars_app, Hj, IH. reflexivity.
Qed.

Lemma list_max_cons a l : list_max (a :: l) = Nat.max a (list_max l).
Proof. reflexivity. Qed.

Lemma length_join_max (l : list pyval) js :
  Forall2 (fun x j => (depth x <= String.length j)%nat) l js ->
  (list_max (map depth l) <= String.length (Py.join ", " js))%nat.
Proof.
  induction 1 as [|x j l js Hx Hl IH]; [simpl; lia|].
  destruct Hl as [|y jy l js Hy Hl].
  - cbn [map Py.join]. rewrite list_max_cons. cbn [list_max fold_right]. lia.
  - rewrite join_cons, !StrFacts.slength_app. cbn [map] in *.
    rewrite !list_max_cons in *. lia.
Qed.

Lemma dumps_bounded v : forall j, dumps v = Ok j -> bounded v j.
Proof.
  induction v as [ |b|z|s|l IH|d IH|n|f] using pyval_induction; intros j Hj;
    cbn [dumps] in Hj.
  - injection Hj as <-. split; [simpl; lia|reflexivity].
  - injection Hj as <-. split; [simpl; lia|destruct b; reflexivity].
  - injection Hj as <-. split; [simpl; lia|intros _; apply str_of_Z_text].
  - injection Hj as <-. split; [simpl; lia|].
    simpl. intros H. apply JsonFacts.encode_string_text.
    destruct (Py.contains "%" s); [discriminate|reflexivity].
  - destruct (sequence (map dumps l)) as [js|e] eqn:E;
      cbn [mbind result_bind rbind] in Hj; [|discriminate].
    injection Hj as <-. apply sequence_inv in E.
    assert (F : Forall2 bounded l js).
    { clear -IH E. induction E as [|x jx l js Hx _ IHE]; [constructor|].
      inversion IH; subst. constructor; auto. }
    split.
    + cbn [depth]. change ("[" +:+ Py.join ", " js +:+ "]")
        with (String "[" (Py.join ", " js +:+ "]")).
      cbn [String.length]. rewrite StrFacts.slength_app.
      assert (list_max (map depth l) <= String.length (Py.join ", " js))%nat; [|lia].
      apply length_join_max. clear -F.
      induction F as [|? ? ? ? [H _]]; constructor; auto.
    + cbn [percent_free]. intros Hp.
      change ("[" +:+ Py.join ", " js +:+ "]")
        with (String "[" (Py.join ", " js +:+ "]")).
      cbn [Py.all_chars]. rewrite StrFacts.all_chars_app, join_text; [reflexivity|].
      clear -F Hp. induction F as [|x jx l js [_ Hx] _ IHF]; [constructor|].
      simpl in Hp. apply andb_prop in Hp as [H1 H2]. constructor; auto.
  - set (f := fun kv : string * pyval =>
                j ← dumps (snd kv); Ok (encode_string (fst kv) +:+ ": " +:+ j)) in *.
    destruct (sequence (map f d)) as [js|e] eqn:E;
      cbn [mbind result_bind rbind] in Hj; [|discriminate].
    injection Hj as <-. apply sequence_inv in E.
    assert (F : Forall2 (fun kv j =>
                 (depth (snd kv) <= String.length j)%nat
                 /\ (negb (Py.contains "%" (fst kv)) && percent_free (snd kv) = true ->
                     Py.all_chars text_char j = true)) d js).
    { clear -IH E. induction E as [|[k x] jx l js Hx _ IHE]; [constructor|].
      inversion IH as [|? ? Hk IH']; subst. constructor; [|auto].
      subst f. cbn [fst snd] in *.
      destruct (dumps x) as [j0|e] eqn:E0; cbn [mbind result_bind rbind] in Hx;
        [|discriminate].
      injection Hx as <-. destruct (Hk j0 eq_refl) as [H1 H2]. split.
      - cbn [String.length]. rewrite ?StrFacts.slength_app.
        cbn [String.length]. lia.
      - intros [Ha Hb]%andb_prop.
        assert (Hk' : Py.all_chars text_char (encode_string k) = true).
        { apply JsonFacts.encode_string_text.
          destruct (Py.contains "%" k); [discriminate|reflexivity]. }
        change (Py.all_chars text_char
                  (encode_string k +:+ ": " +:+ j0) = true).
        rewrite !StrFacts.all_chars_app, (H2 Hb), Hk'. reflexivity. }
    split.
    + cbn [depth]. change ("{" +:+ Py.join ", " js +:+ "}")
        with (String "{" (Py.join ", " js +:+ "}")).
      cbn [String.length]. rewrite StrFacts.slength_app.
      assert (list_max (map (fun kv => depth (snd kv)) d)
                <= String.length (Py.join ", " js))%nat; [|lia].
      clear -F. induction F as [|kv j d js [Hx _] Hl IHF]; [simpl; lia|].
      destruct Hl as [|kv2 j2 d js _ Hl].
      * cbn [map Py.join]. rewrite list_max_cons. cbn [list_max fold_right]. lia.
      * rewrite join_cons, !StrFacts.slength_app. cbn [map] in *.
        rewrite !list_max_cons in *. lia.
    + cbn [percent_free]. intros Hp.
      change ("{" +:+ Py.join ", " js +:+ "}")
        with (String "{" (Py.join ", " js +:+ "}")).
      cbn [Py.all_chars]. rewrite StrFacts.all_chars_app, join_text; [reflexivity|].
      clear -F Hp. induction F as [|x jx l js [_ Hx] _ IHF]; [constructor|].
      simpl in Hp. apply andb_prop in Hp as [H1 H2]. constructor; auto.
  - discriminate.
  - discriminate.
Qed.

(** [json.loads(json.dumps(v))] is [v]. *)
Theorem loads_dumps v j :
  representable v = true -> dumps v = Ok j -> loads j = Ok v.
Proof.
  intros Hr Hj. destruct (dumps_roundtrips v Hr) as (j' & Hd & Hs & Hscan).
  rewrite Hj in Hd. injection Hd as <-.
  destruct (dumps_bounded v j Hj) as [Hb _].
  unfold loads.
  rewrite <- (StrFacts.sapp_nil_r j) at 2.
  rewrite skip_ws_value by assumption.
  rewrite Hscan by (try reflexivity; lia). reflexivity.
Qed.

Lemma dumps_representable v : representable v = true -> is_ok (dumps v) = true.
Proof. intros Hr. destruct (dumps_roundtrips v Hr) as (j & -> & _). reflexivity. Qed.

End JsonFacts.

(** * Facts on dictionaries *)

Module DictFacts.

Lemma mem_get {V} k (d : Dict.t V) : Dict.mem k d = false <-> Dict.get k d = None.
Proof. unfold Dict.mem. destruct (Dict.get k d); split; congruence. Qed.

Lemma get_app {V} k (d e : Dict.t V) :
  Dict.get k (d ++ e)%list = match Dict.get k d with Some v => Some v | None => Dict.get k e end.
Proof.
  induction d as [|[k' v'] d IH]; simpl; [reflexivity|].
  destruct (String.eqb k k'); auto.
Qed.

Lemma mem_app {V} k (d e : Dict.t V) :
  Dict.mem k (d ++ e)%list = Dict.mem k d || Dict.mem k e.
Proof. unfold Dict.mem. rewrite get_app. destruct (Dict.get k d); reflexivity. Qed.

Lemma set_new {V} k (v : V) d : Dict.mem k d = false -> Dict.set k v d = (d ++ [(k, v)])%list.
Proof.
  induction d as [|[k' v'] d IH]; simpl; [reflexivity|].
  unfold Dict.mem. simpl. destruct (String.eqb k k'); [discriminate|].
  intros H. rewrite IH; [reflexivity|exact H].
Qed.

Lemma get_last {V} k (v : V) d :
  Dict.mem k d = false -> Dict.get k (d ++ [(k, v)])%list = Some v.
Proof.
  intros H. rewrite get_app. apply mem_get in H. rewrite H. simpl.
  rewrite String.eqb_refl. reflexivity.
Qed.

Lemma set_last {V} k (v w : V) d :
  Dict.mem k d = false -> Dict.set k w (d ++ [(k, v)])%list = (d ++ [(k, w)])%list.
Proof.
  induction d as [|[k' v'] d IH]; simpl.
  - rewrite String.eqb_refl. reflexivity.
  - unfold Dict.mem. simpl. destruct (String.eqb k k'); [discriminate|].
    intros H. rewrite IH; [reflexivity|exact H].
Qed.

Lemma get_set_same {V} k (v : V) d : Dict.get k (Dict.set k v d) = Some v.
Proof.
  induction d as [|[k' v'] d IH]; simpl.
  - rewrite String.eqb_refl. reflexivity.
  - destruct (String.eqb k k') eqn:E; simpl; rewrite ?String.eqb_refl, ?E; auto.
Qed.

Lemma get_set_other {V} k k' (v : V) d :
  k <> k' -> Dict.get k (Dict.set k' v d) = Dict.get k d.
Proof.
  intros Hne. induction d as [|[k2 v2] d IH]; simpl.
  - apply String.eqb_neq in Hne. rewrite Hne. reflexivity.
  - destruct (String.eqb_spec k' k2) as [->|N]; simpl.
    + destruct (String.eqb_spec k k2); [contradiction|reflexivity].
    + destruct (String.eqb k k2); [reflexivity|exact IH].
Qed.

Lemma set_set {V} k (v w : V) d : Dict.set k w (Dict.set k v d) = Dict.set k w d.
Proof.
  induction d as [|[k' v'] d IH]; simpl.
  - rewrite String.eqb_refl. reflexivity.
  - destruct (String.eqb k k') eqn:E; simpl; rewrite ?String.eqb_refl, ?E; congruence.
Qed.

Lemma keys_set_mem {V} k (v : V) d :
  Dict.mem k d = true -> Dict.keys (Dict.set k v d) = Dict.keys d.
Proof.
  induction d as [|[k' v'] d IH]; simpl; [discriminate|].
  unfold Dict.mem. simpl.
  destruct (String.eqb_spec k k') as [->|N]; simpl; [reflexivity|].
  intros H. f_equal. apply IH, H.
Qed.

Lemma mem_existsb {V} k (d : Dict.t V) :
  Dict.mem k d = existsb (String.eqb k) (Dict.keys d).
Proof.
  unfold Dict.mem. induction d as [|[k' v'] d IH]; simpl; [reflexivity|].
  destruct (String.eqb k k'); [reflexivity|exact IH].
Qed.

End DictFacts.

(** * Facts on [configparser]: reading what [write] wrote *)

Module IniFacts.
Import ConfigParser Canon StrFacts DictFacts.

Lemma concat_cons x l :
  String.concat EmptyString (x :: l) = x +:+ String.concat EmptyString l.
Proof. destruct l; simpl; [rewrite StrFacts.sapp_nil_r|]; reflexivity. Qed.

Lemma concat_app l1 l2 :
  String.concat EmptyString (l1 ++ l2)
  = String.concat EmptyString l1 +:+ String.concat EmptyString l2.
Proof.
  induction l1 as [|x l1 IH]; [reflexivity|].
  rewrite <- app_comm_cons, !concat_cons, IH, StrFacts.sapp_assoc. reflexivity.
Qed.

Lemma unlines_cons l ls : unlines (l :: ls) = l +:+ String NL (unlines ls).
Proof.
  unfold unlines. cbn [map]. rewrite concat_cons, StrFacts.sapp_assoc. reflexivity.
Qed.

Lemma unlines_app l1 l2 : unlines (l1 ++ l2) = unlines l1 +:+ unlines l2.
Proof. unfold unlines. rewrite map_app. apply concat_app. Qed.

Lemma readlines_line l rest :
  Py.contains NL l = false ->
  readlines (l +:+ String NL rest) = l :: readlines rest.
Proof.
  induction l as [|c l IH]; intros H.
  - reflexivity.
  - cbn [Py.contains] in H. apply orb_false_elim in H as [H1 H2].
    cbn [String.append readlines]. rewrite Ascii.eqb_sym, H1, (IH H2). reflexivity.
Qed.

Lemma readlines_unlines ls :
  forallb (fun l => negb (Py.contains NL l)) ls = true ->
  readlines (unlines ls) = ls.
Proof.
  induction ls as [|l ls IH]; [reflexivity|].
  cbn [forallb]. intros [H1 H2]%andb_prop.
  rewrite unlines_cons, readlines_line, IH; auto.
  destruct (Py.contains NL l); [discriminate|reflexivity].
Qed.

Lemma universal_newlines_id s :
  Py.contains CR s = false -> universal_newlines s = s.
Proof.
  induction s as [|c s IH]; [reflexivity|].
  cbn [Py.contains universal_newlines]. intros [H1 H2]%orb_false_elim.
  rewrite Ascii.eqb_sym, H1, (IH H2). reflexivity.
Qed.

Lemma contains_unlines c ls :
  Ascii.eqb c NL = false ->
  forallb (fun l => negb (Py.contains c l)) ls = true ->
  Py.contains c (unlines ls) = false.
Proof.
  intros Hc. induction ls as [|l ls IH]; [reflexivity|].
  cbn [forallb]. intros [H1 H2]%andb_prop.
  rewrite unlines_cons, StrFacts.contains_app. cbn [Py.contains].
  rewrite Hc, (IH H2). destruct (Py.contains c l); [discriminate|reflexivity].
Qed.

Lemma before_last_end c s : before_last c (s +:+ String c EmptyString) = Some s.
Proof.
  induction s as [|d s IH]; cbn [String.append before_last].
  - rewrite Ascii.eqb_refl. reflexivity.
  - rewrite IH. reflexivity.
Qed.

Lemma ltb_0 n : (n <? 0)%nat = false.
Proof. destruct n; reflexivity. Qed.

Lemma read_line_header st name :
  Ini.name_ok name = true ->
  read_line st ("[" +:+ name +:+ "]") = enter_section st O name.
Proof.
  unfold Ini.name_ok. intros [[H1 _]%andb_prop _]%andb_prop.
  unfold read_line.
  assert (E : Py.strip ("[" +:+ name +:+ "]") = String "[" (name +:+ "]")).
  { unfold Py.strip.
    change ("[" +:+ name +:+ "]") with (String "[" name +:+ "]").
    rewrite rstrip_app by reflexivity. reflexivity. }
  rewrite E. cbn [is_comment Py.startswith Py.is_empty].
  change (Ascii.eqb "#" "[") with false. change (Ascii.eqb ";" "[") with false.
  cbn [andb orb].
  change (first_nonspace ("[" +:+ name +:+ "]")) with O.
  assert (C : match cursect st, p_opt st with
              | Some _, Some _ => (p_indent st <? 0)%nat
              | _, _ => false
              end = false).
  { destruct (cursect st), (p_opt st); auto using ltb_0. }
  rewrite C. unfold match_section.
  change (name +:+ "]") with (name +:+ String "]" EmptyString).
  rewrite before_last_end.
  destruct (Py.is_empty name); [discriminate|reflexivity].
Qed.

Lemma read_line_blank st : read_line st EmptyString = Ok (append_line st EmptyString).
Proof. reflexivity. Qed.

Lemma split_delim_app k w :
  Py.contains "=" k = false -> Py.contains ":" k = false ->
  split_delim (k +:+ String "=" w) = Some (k, w).
Proof.
  induction k as [|c k IH]; cbn [Py.contains String.append split_delim].
  - intros _ _. reflexivity.
  - intros [H1 H2]%orb_false_elim [H3 H4]%orb_false_elim.
    rewrite (Ascii.eqb_sym c "="), H1, (Ascii.eqb_sym c ":"), H3. cbn [orb].
    rewrite IH by assumption. reflexivity.
Qed.

Lemma eqb_true a b : String.eqb a b = true -> a = b.
Proof. apply String.eqb_eq. Qed.

Lemma plain_parts v :
  Ini.plain v = true ->
  Py.lstrip v = v /\ Py.rstrip v = v
  /\ Py.contains NL v = false /\ Py.contains CR v = false.
Proof.
  unfold Ini.plain. intros [[[H1 H2]%andb_prop H3]%andb_prop H4]%andb_prop.
  apply eqb_true in H1, H2.
  destruct (Py.contains NL v), (Py.contains CR v); try discriminate. auto.
Qed.

Lemma key_parts k :
  Ini.key_ok k = true ->
  (exists c k', k = String c k' /\ Py.isspace c = false
     /\ Ascii.eqb c "#" = false /\ Ascii.eqb c ";" = false
     /\ Ascii.eqb c "[" = false)
  /\ Py.rstrip k = k /\ Py.lower k = k
  /\ Py.contains "=" k = false /\ Py.contains ":" k = false
  /\ Py.contains NL k = false /\ Py.contains CR k = false.
Proof.
  unfold Ini.key_ok.
  intros [[[[[[H0 H1]%andb_prop H2]%andb_prop H3]%andb_prop H4]%andb_prop
            H5]%andb_prop H6]%andb_prop.
  apply eqb_true in H1, H2.
  repeat match goal with
         | H : negb ?b = true |- _ => apply negb_true_iff in H
         end.
  repeat split; auto.
  destruct k as [|c k']; [discriminate|]. exists c, k'.
  apply andb_prop in H0 as [[[A B]%andb_prop C]%andb_prop D].
  repeat match goal with
         | H : negb ?b = true |- _ => apply negb_true_iff in H
         end.
  auto.
Qed.

Lemma strip_item k v :
  Ini.key_ok k = true -> Ini.plain v = true ->
  Py.strip (item_line (k, v)) = stripped_item k v.
Proof.
  intros Hk Hv. destruct (key_parts k Hk) as ((c & k' & -> & Hc & _) & _).
  destruct (plain_parts v Hv) as (_ & Hr & _).
  unfold item_line, stripped_item, Py.strip. cbn [fst snd].
  destruct v as [|d v].
  - cbn [Py.is_empty].
    change (String c k' +:+ " = " +:+ EmptyString)
      with (String c k' +:+ " = ").
    replace (String c k' +:+ " = ") with ((String c k' +:+ " =") +:+ " ")
      by (rewrite StrFacts.sapp_assoc; reflexivity).
    rewrite rstrip_app_blank by reflexivity.
    rewrite rstrip_app by reflexivity.
    rewrite StrFacts.sapp_nil_r. cbn [String.append Py.lstrip]. rewrite Hc.
    reflexivity.
  - cbn [Py.is_empty].
    replace (String c k' +:+ " = " +:+ String d v)
      with ((String c k' +:+ " = ") +:+ String d v)
      by (rewrite StrFacts.sapp_assoc; reflexivity).
    rewrite rstrip_app by (rewrite Hr; reflexivity).
    rewrite Hr. cbn [String.append Py.lstrip]. rewrite Hc.
    rewrite !StrFacts.sapp_assoc. reflexivity.
Qed.

Lemma cursect_with_opt st o : cursect (with_opt st o) = cursect st.
Proof. reflexivity. Qed.

Lemma cursect_set st d d' :
  cursect st = Some d -> cursect (set_cursect st d') = Some d'.
Proof.
  destruct st as [ds ss [ | |n] o i]; unfold cursect, set_cursect; cbn;
    try discriminate.
  - reflexivity.
  - intros _. apply get_set_same.
Qed.

Lemma set_cursect_twice st d d' :
  set_cursect (set_cursect st d) d' = set_cursect st d'.
Proof.
  destruct st as [ds ss [ | |n] o i]; unfold set_cursect; cbn; try reflexivity.
  rewrite set_set. reflexivity.
Qed.

Lemma set_cursect_with_opt st o d :
  set_cursect (with_opt st o) d = with_opt (set_cursect st d) o.
Proof. destruct st as [ds ss [ | |n] o' i]; reflexivity. Qed.

Lemma with_opt_twice st o o' : with_opt (with_opt st o) o' = with_opt st o'.
Proof. reflexivity. Qed.

Lemma p_indent_set st d : p_indent (set_cursect st d) = p_indent st.
Proof. destruct st as [ds ss [ | |n] o' i]; reflexivity. Qed.

Lemma read_line_item st d k v :
  cursect st = Some d -> p_indent st = O ->
  Ini.key_ok k = true -> Ini.plain v = true -> Dict.mem k d = false ->
  read_line st (item_line (k, v))
  = Ok (with_opt (set_cursect st (d ++ [(k, [v])])%list) (Some k)).
Proof.
  intros Hc Hi Hk Hv Hm. unfold read_line.
  rewrite (strip_item k v Hk Hv).
  destruct (key_parts k Hk)
    as ((c & k' & -> & Hsp & Hh & Hs & Hb) & Hr & Hl & He & Hco & _).
  destruct (plain_parts v Hv) as (Hvl & Hvr & _).
  set (k := String c k') in *.
  assert (S1 : is_comment (stripped_item k v) = false).
  { unfold stripped_item, k, is_comment. cbn [String.append Py.startswith].
    rewrite (Ascii.eqb_sym "#" c), (Ascii.eqb_sym ";" c), Hh, Hs. reflexivity. }
  assert (S2 : Py.is_empty (stripped_item k v) = false) by reflexivity.
  assert (S3 : first_nonspace (item_line (k, v)) = O).
  { unfold item_line, k. cbn [fst String.append first_nonspace]. rewrite Hsp.
    reflexivity. }
  assert (S4 : match_section (stripped_item k v) = None).
  { unfold stripped_item, k, match_section. cbn [String.append].
    destruct c as [[] [] [] [] [] [] [] []]; try reflexivity; discriminate. }
  rewrite S1, S2, S3, S4, Hc, Hi.
  assert (C : match p_opt st with Some _ => (0 <? 0)%nat | None => false end = false)
    by (destruct (p_opt st); reflexivity).
  rewrite C. unfold enter_option. rewrite Hc.
  assert (S5 : match_option (stripped_item k v) = Some (k, Py.lstrip (if Py.is_empty v then EmptyString else " " +:+ v))).
  { unfold match_option, stripped_item.
    replace (k +:+ " =" +:+ (if Py.is_empty v then EmptyString else " " +:+ v))
      with ((k +:+ " ") +:+ String "=" (if Py.is_empty v then EmptyString else " " +:+ v))
      by (rewrite StrFacts.sapp_assoc; reflexivity).
    rewrite split_delim_app.
    - rewrite rstrip_app_blank by reflexivity. rewrite Hr. reflexivity.
    - rewrite contains_app, He. reflexivity.
    - rewrite contains_app, Hco. reflexivity. }
  rewrite S5. change (Py.is_empty k) with false. cbv iota.
  rewrite Hr, Hl, Hm.
  assert (S6 : Py.strip (Py.lstrip (if Py.is_empty v then EmptyString else " " +:+ v)) = v).
  { destruct v as [|d' v']; [reflexivity|].
    cbn [Py.is_empty]. change (Py.lstrip (" " +:+ String d' v')) with (Py.lstrip (String d' v')).
    rewrite Hvl. unfold Py.strip. rewrite Hvr. exact Hvl. }
  rewrite S6, (set_new k [v] d Hm).
  unfold with_opt. rewrite p_indent_set, Hi. reflexivity.
Qed.

Lemma mem_single k items : Dict.mem k (single items) = Dict.mem k items.
Proof.
  unfold Dict.mem.
  induction items as [|[k' v'] items IH]; simpl; [reflexivity|].
  destruct (String.eqb k k'); [reflexivity|exact IH].
Qed.

Lemma distinct_cons_mem {V} k (v : V) (d : Dict.t V) :
  Dict.distinct (Dict.keys ((k, v) :: d)) = true ->
  Dict.mem k d = false /\ Dict.distinct (Dict.keys d) = true.
Proof.
  simpl. intros [H1 H2]%andb_prop. split; [|exact H2].
  rewrite mem_existsb. apply negb_true_iff, H1.
Qed.

Lemma read_lines_app st l1 l2 :
  read_lines st (l1 ++ l2)
  = (st' ← read_lines st l1; read_lines st' l2).
Proof.
  revert st. induction l1 as [|l l1 IH]; intros st; [reflexivity|].
  cbn [app read_lines]. destruct (read_line st l) as [st'|e]; [|reflexivity].
  cbn [mbind result_bind rbind]. apply IH.
Qed.

(** Reading the item lines of a block whose dictionary holds [d0] already. *)
Lemma read_lines_items items :
  forall st d0,
    cursect st = Some (single d0) -> p_indent st = O ->
    Ini.items_ok (d0 ++ items) = true ->
    read_lines st (map item_line items)
    = Ok (with_opt (set_cursect st (single (d0 ++ items)))
            (last_key (p_opt st) items)).
Proof.
  induction items as [|[k v] items IH]; intros st d0 Hc Hi Hok.
  - cbn [map read_lines last_key]. rewrite app_nil_r.
    f_equal. unfold with_opt, set_cursect, cursect in *.
    destruct st as [ds ss cur o i]; cbn in *. destruct cur; try discriminate.
    + injection Hc as ->. reflexivity.
    + f_equal. clear -Hc. induction ss as [|[n d] ss IHs]; [discriminate|].
      simpl in *. destruct (String.eqb name n) eqn:E.
      * injection Hc as ->. apply String.eqb_eq in E as ->. reflexivity.
      * rewrite <- IHs by assumption. reflexivity.
  - cbn [map read_lines].
    assert (Hok' := Hok). unfold Ini.items_ok in Hok'.
    apply andb_prop in Hok' as [Hd Hf].
    rewrite forallb_app in Hf. apply andb_prop in Hf as [_ Hf].
    cbn [forallb fst snd] in Hf. apply andb_prop in Hf as [[Hk Hv]%andb_prop _].
    assert (Hm : Dict.mem k (single d0) = false).
    { rewrite mem_single, mem_existsb. unfold Dict.keys in Hd.
      clear -Hd. induction d0 as [|[k0 v0] d0 IHd]; [reflexivity|].
      simpl in *. apply andb_prop in Hd as [H1 H2].
      rewrite map_app, existsb_app in H1. simpl in H1.
      rewrite !negb_orb in H1. apply andb_prop in H1 as [_ [H1 _]%andb_prop].
      rewrite String.eqb_sym. apply negb_true_iff in H1. rewrite H1.
      apply IHd, H2. }
    rewrite (read_line_item st (single d0) k v Hc Hi Hk Hv Hm).
    cbn [mbind result_bind rbind].
    replace (single d0 ++ [(k, [v])])%list with (single (d0 ++ [(k, v)]))
      by (unfold single; rewrite map_app; reflexivity).
    rewrite (IH _ (d0 ++ [(k, v)])%list).
    + rewrite set_cursect_with_opt, set_cursect_twice, with_opt_twice.
      rewrite <- app_assoc. reflexivity.
    + rewrite cursect_with_opt. eapply cursect_set, Hc.
    + unfold with_opt. cbn [p_indent]. rewrite p_indent_set. exact Hi.
    + rewrite <- app_assoc. exact Hok.
Qed.

Lemma set_cursect_same st d : cursect st = Some d -> set_cursect st d = st.
Proof.
  destruct st as [ds ss [ | |n] o i]; unfold cursect, set_cursect; cbn;
    try discriminate.
  - intros [= ->]. reflexivity.
  - intros H. f_equal. induction ss as [|[n' d'] ss IH]; [discriminate|].
    simpl in *. destruct (String.eqb n n') eqn:E.
    + injection H as ->. apply String.eqb_eq in E as ->. reflexivity.
    + rewrite IH by assumption. reflexivity.
Qed.

Lemma append_line_blank st d :
  cursect st = Some d ->
  append_line st EmptyString = set_cursect st (blank (p_opt st) d).
Proof.
  intros H. unfold append_line, blank. rewrite H.
  destruct (p_opt st) as [o|]; [|symmetry; apply set_cursect_same, H].
  destruct (Dict.get o d); [reflexivity|symmetry; apply set_cursect_same, H].
Qed.

Lemma replace_nl_id v :
  Py.contains NL v = false ->
  Py.replace_char NL (String NL (String TAB EmptyString)) v = v.
Proof.
  induction v as [|c v IH]; [reflexivity|].
  cbn [Py.contains Py.replace_char]. intros [H1 H2]%orb_false_elim.
  rewrite Ascii.eqb_sym, H1, (IH H2). reflexivity.
Qed.

Lemma items_ok_forall items kv :
  Ini.items_ok items = true -> In kv items ->
  Ini.key_ok (fst kv) = true /\ Ini.plain (snd kv) = true.
Proof.
  unfold Ini.items_ok. intros [_ H]%andb_prop Hin.
  rewrite forallb_forall in H. apply andb_prop, H, Hin.
Qed.

Lemma write_section_unlines name items :
  Ini.items_ok items = true ->
  write_section name items = unlines (block_lines name items).
Proof.
  intros Hok. unfold write_section, block_lines.
  rewrite unlines_cons, unlines_app. unfold unlines at 2. cbn [map].
  rewrite concat_cons. cbn [String.concat].
  rewrite !StrFacts.sapp_assoc. cbn [String.append]. do 5 f_equal.
  unfold unlines. rewrite map_map. f_equal. apply map_ext_in.
  intros kv Hin. destruct (items_ok_forall items kv Hok Hin) as [_ Hv].
  destruct (plain_parts _ Hv) as (_ & _ & Hn & _).
  unfold write_item, item_line. rewrite replace_nl_id by assumption.
  rewrite !StrFacts.sapp_assoc. reflexivity.
Qed.

Lemma block_section st name items :
  Ini.name_ok name = true -> String.eqb name default_section = false ->
  Dict.mem name (p_sections st) = false -> p_indent st = O ->
  Ini.items_ok items = true ->
  read_lines st (block_lines name items)
  = Ok (mkp (p_defaults st) (p_sections st ++ [(name, raw items)])
            (InSection name) (last_key None items) O).
Proof.
  intros Hn Hd Hm Hi Hok. unfold block_lines. cbn [read_lines].
  rewrite read_line_header by assumption.
  unfold enter_section. rewrite Hm, Hd. cbn [mbind result_bind rbind].
  rewrite read_lines_app.
  set (st1 := mkp (p_defaults st) (p_sections st ++ [(name, [])])
                  (InSection name) None O).
  assert (Hc : cursect st1 = Some (single [])).
  { unfold cursect, st1. cbn. apply get_last, Hm. }
  rewrite (read_lines_items items st1 [] Hc eq_refl Hok).
  cbn [mbind result_bind rbind app read_lines].
  rewrite read_line_blank. cbn [mbind result_bind rbind].
  f_equal.
  erewrite append_line_blank
    by (rewrite cursect_with_opt; eapply cursect_set, Hc).
  rewrite set_cursect_with_opt, set_cursect_twice.
  unfold with_opt, set_cursect, st1, raw. cbn.
  rewrite set_last by assumption. reflexivity.
Qed.

Lemma block_default items :
  Ini.items_ok items = true ->
  read_lines pstart (block_lines default_section items)
  = Ok (mkp (raw items) [] InDefault (last_key None items) O).
Proof.
  intros Hok. unfold block_lines. cbn [read_lines].
  rewrite read_line_header by reflexivity.
  unfold enter_section. cbn [pstart p_sections Dict.mem Dict.get].
  rewrite String.eqb_refl. cbn [mbind result_bind rbind].
  rewrite read_lines_app.
  set (st1 := mkp [] [] InDefault None O).
  change (mkp (p_defaults pstart) [] InDefault None O) with st1.
  assert (Hc : cursect st1 = Some (single [])) by reflexivity.
  rewrite (read_lines_items items st1 [] Hc eq_refl Hok).
  cbn [mbind result_bind rbind app read_lines].
  rewrite read_line_blank. cbn [mbind result_bind rbind].
  f_equal.
  erewrite append_line_blank
    by (rewrite cursect_with_opt; eapply cursect_set, Hc).
  rewrite set_cursect_with_opt, set_cursect_twice.
  reflexivity.
Qed.

Lemma read_lines_sections secs :
  forall st,
    p_indent st = O ->
    Dict.distinct (Dict.keys (p_sections st) ++ Dict.keys secs) = true ->
    sections_ok secs = true ->
    exists st',
      read_lines st (section_lines secs) = Ok st'
      /\ p_defaults st' = p_defaults st
      /\ p_sections st' = p_sections st ++ raw_sections secs.
Proof.
  induction secs as [|[name items] secs IH]; intros st Hi Hd Hok.
  - exists st. rewrite app_nil_r. auto.
  - unfold section_lines. cbn [map concat fst snd]. rewrite read_lines_app.
    cbn [sections_ok forallb fst snd] in Hok.
    apply andb_prop in Hok as [[[Hn Hne]%andb_prop Hit]%andb_prop Hok].
    apply negb_true_iff in Hne.
    assert (Hm : Dict.mem name (p_sections st) = false).
    { rewrite mem_existsb. clear -Hd.
      induction (Dict.keys (p_sections st)) as [|k ks IHk]; [reflexivity|].
      cbn [app Dict.distinct existsb] in *. apply andb_prop in Hd as [H1 H2].
      rewrite existsb_app in H1. cbn [Dict.keys map fst existsb] in H1.
      rewrite !negb_orb in H1. apply andb_prop in H1 as [_ [H1 _]%andb_prop].
      apply negb_true_iff in H1. rewrite String.eqb_sym, H1. apply IHk, H2. }
    rewrite (block_section st name items Hn Hne Hm Hi Hit).
    cbn [mbind result_bind rbind].
    destruct (IH (mkp (p_defaults st) (p_sections st ++ [(name, raw items)])
                      (InSection name) (last_key None items) O))
      as (st' & H1 & H2 & H3).
    + reflexivity.
    + cbn [p_sections]. unfold Dict.keys in *. rewrite map_app, <- app_assoc.
      exact Hd.
    + exact Hok.
    + exists st'. split; [exact H1|]. split; [exact H2|].
      rewrite H3. cbn [p_sections raw_sections map fst snd].
      rewrite <- app_assoc. reflexivity.
Qed.

Lemma rstrip_join_single v :
  Py.rstrip v = v -> Py.rstrip (Py.join (String NL EmptyString) [v]) = v.
Proof. auto. Qed.

Lemma rstrip_join_blank v :
  Py.rstrip v = v ->
  Py.rstrip (Py.join (String NL EmptyString) [v; EmptyString]) = v.
Proof.
  intros H. cbn [Py.join]. rewrite rstrip_app_blank by reflexivity. exact H.
Qed.

Lemma join_values_single items :
  Ini.items_ok items = true -> join_values (single items) = items.
Proof.
  intros Hok. unfold join_values, single. rewrite map_map.
  rewrite <- (map_id items) at 2. apply map_ext_in. intros [k v] Hin.
  destruct (items_ok_forall items _ Hok Hin) as [_ Hv].
  destruct (plain_parts _ Hv) as (_ & Hr & _).
  cbn [fst snd]. rewrite rstrip_join_single by exact Hr. reflexivity.
Qed.

Lemma join_values_set k ls (d : Dict.t (list string)) :
  Dict.get k d = Some ls ->
  Py.rstrip (Py.join (String NL EmptyString) (ls ++ [EmptyString]))
  = Py.rstrip (Py.join (String NL EmptyString) ls) ->
  join_values (Dict.set k (ls ++ [EmptyString]) d) = join_values d.
Proof.
  intros Hg Hj. induction d as [|[k' v'] d IH]; [discriminate|].
  cbn [Dict.get Dict.set] in *. destruct (String.eqb k k') eqn:E.
  - injection Hg as ->. apply String.eqb_eq in E as ->.
    cbn [join_values map fst snd]. rewrite Hj. reflexivity.
  - cbn [join_values map fst snd]. f_equal. apply IH, Hg.
Qed.

Lemma get_single k items ls :
  Dict.get k (single items) = Some ls ->
  exists v, ls = [v] /\ Dict.get k items = Some v.
Proof.
  induction items as [|[k' v'] items IH]; [discriminate|].
  cbn [single map fst snd Dict.get]. destruct (String.eqb k k').
  - intros [= <-]. eauto.
  - exact IH.
Qed.

Lemma get_in {V} k (v : V) d : Dict.get k d = Some v -> In (k, v) d.
Proof.
  induction d as [|[k' v'] d IH]; [discriminate|].
  cbn [Dict.get]. destruct (String.eqb_spec k k') as [->|].
  - intros [= ->]. left. reflexivity.
  - intros H. right. apply IH, H.
Qed.

Lemma join_values_raw items :
  Ini.items_ok items = true -> join_values (raw items) = items.
Proof.
  intros Hok. unfold raw, blank.
  destruct (last_key None items) as [k|]; [|apply join_values_single, Hok].
  destruct (Dict.get k (single items)) as [ls|] eqn:E;
    [|apply join_values_single, Hok].
  rewrite (join_values_set k ls _ E); [apply join_values_single, Hok|].
  destruct (get_single _ _ _ E) as (v & -> & Hg).
  destruct (items_ok_forall items _ Hok (get_in _ _ _ Hg)) as [_ Hv].
  destruct (plain_parts _ Hv) as (_ & Hr & _). cbn [snd] in Hr.
  cbn [app]. rewrite rstrip_join_blank, rstrip_join_single by exact Hr.
  reflexivity.
Qed.

Lemma wf_parts cfg :
  Ini.wf cfg = true ->
  Ini.items_ok (defaults cfg) = true
  /\ Dict.distinct (Dict.keys (sections cfg)) = true
  /\ sections_ok (sections cfg) = true.
Proof.
  unfold Ini.wf. intros [[H1 H2]%andb_prop H3]%andb_prop. auto.
Qed.

Lemma write_unlines cfg :
  Ini.wf cfg = true -> write cfg = unlines (cfg_lines cfg).
Proof.
  intros Hwf. destruct (wf_parts cfg Hwf) as (Hd & _ & Hs).
  unfold write, cfg_lines. rewrite unlines_app. f_equal.
  - destruct (defaults cfg) as [|kv d] eqn:E; [reflexivity|].
    apply write_section_unlines, Hd.
  - unfold section_lines. clear -Hs.
    induction (sections cfg) as [|[n items] secs IH]; [reflexivity|].
    cbn [sections_ok forallb fst snd] in Hs.
    apply andb_prop in Hs as [[_ Hit]%andb_prop Hs].
    cbn [map concat fst snd]. rewrite concat_cons, unlines_app.
    rewrite write_section_unlines by assumption. f_equal. apply IH, Hs.
Qed.

Lemma clean_block c name items :
  c = NL \/ c = CR ->
  Py.contains c name = false ->
  forallb (fun kv => clean c (fst kv) && clean c (snd kv)) items = true ->
  forallb (clean c) (block_lines name items) = true.
Proof.
  intros Hc Hn Hit. unfold block_lines. cbn [forallb].
  rewrite forallb_app. cbn [forallb]. rewrite !andb_true_iff.
  repeat split.
  - unfold clean. rewrite !contains_app, Hn.
    destruct Hc as [-> | ->]; reflexivity.
  - rewrite forallb_forall in Hit |- *. intros l Hin.
    apply in_map_iff in Hin as (kv & <- & Hin).
    specialize (Hit kv Hin). unfold clean in *.
    apply andb_prop in Hit as [H1 H2]. apply negb_true_iff in H1, H2.
    unfold item_line. rewrite !contains_app, H1, H2.
    destruct Hc as [-> | ->]; reflexivity.
Qed.

Lemma items_clean c items :
  c = NL \/ c = CR -> Ini.items_ok items = true ->
  forallb (fun kv => clean c (fst kv) && clean c (snd kv)) items = true.
Proof.
  intros Hc Hok. rewrite forallb_forall. intros kv Hin.
  destruct (items_ok_forall items kv Hok Hin) as [Hk Hv].
  destruct (key_parts _ Hk) as (_ & _ & _ & _ & _ & K1 & K2).
  destruct (plain_parts _ Hv) as (_ & _ & V1 & V2).
  unfold clean. destruct Hc as [-> | ->];
    rewrite ?K1, ?K2, ?V1, ?V2; reflexivity.
Qed.

Lemma name_clean c name :
  c = NL \/ c = CR -> Ini.name_ok name = true -> Py.contains c name = false.
Proof.
  unfold Ini.name_ok. intros Hc [[_ H1]%andb_prop H2]%andb_prop.
  apply negb_true_iff in H1, H2. destruct Hc as [-> | ->]; assumption.
Qed.

Lemma cfg_lines_clean c cfg :
  c = NL \/ c = CR -> Ini.wf cfg = true ->
  forallb (clean c) (cfg_lines cfg) = true.
Proof.
  intros Hc Hwf. destruct (wf_parts cfg Hwf) as (Hd & _ & Hs).
  unfold cfg_lines. rewrite forallb_app. apply andb_true_intro. split.
  - destruct (defaults cfg) as [|kv d] eqn:E; [reflexivity|].
    apply clean_block; [exact Hc| |apply items_clean; assumption].
    destruct Hc as [-> | ->]; reflexivity.
  - unfold section_lines. clear -Hs Hc.
    induction (sections cfg) as [|[n items] secs IH]; [reflexivity|].
    cbn [sections_ok forallb fst snd] in Hs.
    apply andb_prop in Hs as [[[Hn _]%andb_prop Hit]%andb_prop Hs].
    cbn [map concat fst snd]. rewrite forallb_app, IH by assumption.
    rewrite clean_block; auto using name_clean, items_clean.
Qed.

(** Reading back what [write] wrote gives the parser state written. *)
Theorem read_write cfg :
  Ini.wf cfg = true -> read_string (write cfg) = Ok cfg.
Proof.
  intros Hwf. destruct (wf_parts cfg Hwf) as (Hd & Hdis & Hs).
  unfold read_string. rewrite (write_unlines cfg Hwf).
  rewrite universal_newlines_id
    by (apply contains_unlines; [reflexivity|];
        apply (cfg_lines_clean CR); auto).
  rewrite readlines_unlines by (apply (cfg_lines_clean NL); auto).
  unfold cfg_lines. rewrite read_lines_app.
  destruct cfg as [d secs]. cbn [defaults sections] in *.
  destruct d as [|kv d].
  - cbn [read_lines mbind result_bind rbind].
    destruct (read_lines_sections secs pstart eq_refl Hdis Hs)
      as (st' & -> & H2 & H3).
    cbn [mbind result_bind rbind]. rewrite H2, H3. cbn [pstart p_defaults p_sections app].
    f_equal. f_equal. unfold raw_sections. rewrite map_map.
    rewrite <- (map_id secs) at 2. apply map_ext_in. intros [n items] Hin.
    cbn [fst snd]. f_equal. apply join_values_raw.
    unfold sections_ok in Hs. rewrite forallb_forall in Hs.
    specialize (Hs _ Hin). apply andb_prop in Hs as [_ Hs]. exact Hs.
  - rewrite (block_default (kv :: d) Hd). cbn [mbind result_bind rbind].
    destruct (read_lines_sections secs
                (mkp (raw (kv :: d)) [] InDefault (last_key None (kv :: d)) O)
                eq_refl Hdis Hs) as (st' & -> & H2 & H3).
    cbn [mbind result_bind rbind]. rewrite H2, H3. cbn [p_defaults p_sections app].
    rewrite (join_values_raw (kv :: d) Hd).
    f_equal. f_equal. unfold raw_sections. rewrite map_map.
    rewrite <- (map_id secs) at 2. apply map_ext_in. intros [n items] Hin.
    cbn [fst snd]. f_equal. apply join_values_raw.
    unfold sections_ok in Hs. rewrite forallb_forall in Hs.
    specialize (Hs _ Hin). apply andb_prop in Hs as [_ Hs]. exact Hs.
Qed.

Lemma set_all_section items :
  forall cfg d section,
    Py.is_empty section = false -> String.eqb section default_section = false ->
    Dict.get section (sections cfg) = Some d ->
    set_all cfg section items
    = if forallb (fun kv => accepted (snd kv)) items
      then Ok (mk (defaults cfg)
                  (Dict.set section (stored items d) (sections cfg)))
      else Err ValueError.
Proof.
  induction items as [|[k v] items IH]; intros cfg d section He Hd Hg.
  - cbn [set_all forallb stored fold_left].
    destruct cfg as [df ss]. cbn [defaults sections] in *. f_equal. f_equal.
    clear -Hg. induction ss as [|[n x] ss IHs]; [discriminate|].
    cbn [Dict.get Dict.set] in *. destruct (String.eqb section n) eqn:E.
    + injection Hg as ->. apply String.eqb_eq in E. subst n. reflexivity.
    + rewrite <- IHs by assumption. reflexivity.
  - cbn [set_all forallb fst snd]. unfold set at 1. unfold accepted at 1.
    rewrite He, Hd. cbn [orb].
    destruct (Py.is_empty v) eqn:Ev; cbn [negb andb orb].
    + rewrite Hg. cbn [mbind result_bind rbind].
      rewrite (IH _ (Dict.set (Py.lower (Py.lower k)) v d));
        [|assumption..|apply get_set_same].
      cbn [defaults sections]. rewrite set_set. reflexivity.
    + destruct (before_set_ok v); cbn [negb]; [|reflexivity].
      rewrite Hg. cbn [mbind result_bind rbind].
      rewrite (IH _ (Dict.set (Py.lower (Py.lower k)) v d));
        [|assumption..|apply get_set_same].
      cbn [defaults sections]. rewrite set_set. reflexivity.
Qed.

Lemma set_all_default items :
  forall cfg section,
    Py.is_empty section || String.eqb section default_section = true ->
    set_all cfg section items
    = if forallb (fun kv => accepted (snd kv)) items
      then Ok (mk (stored items (defaults cfg)) (sections cfg))
      else Err ValueError.
Proof.
  induction items as [|[k v] items IH]; intros cfg section Hs.
  - destruct cfg; reflexivity.
  - cbn [set_all forallb fst snd]. unfold set at 1. unfold accepted at 1.
    rewrite Hs.
    destruct (Py.is_empty v) eqn:Ev; cbn [negb andb orb].
    + cbn [mbind result_bind rbind]. rewrite IH by assumption. reflexivity.
    + destruct (before_set_ok v); cbn [negb]; [|reflexivity].
      cbn [mbind result_bind rbind]. rewrite IH by assumption. reflexivity.
Qed.

(** [cfg[section] = items] for a section other than the default one. *)
Lemma setitem_section cfg section items :
  Py.is_empty section = false -> String.eqb section default_section = false ->
  setitem cfg section items
  = if forallb (fun kv => accepted (snd kv)) items
    then Ok (mk (defaults cfg) (Dict.set section (stored items []) (sections cfg)))
    else Err ValueError.
Proof.
  intros He Hd. unfold setitem, add_section. rewrite Hd. cbn [orb].
  destruct (has_section cfg section) eqn:Hs.
  - assert (M : has_section (mk (defaults cfg)
                                 (Dict.set section [] (sections cfg))) section
                = true).
    { unfold has_section, Dict.mem. cbn [sections].
      rewrite get_set_same. reflexivity. }
    rewrite M.
    rewrite (set_all_section items _ [] section He Hd)
      by (cbn [sections]; apply get_set_same).
    cbn [defaults sections]. rewrite set_set. reflexivity.
  - cbv iota. rewrite Hs.
    rewrite (set_all_section items _ [] section He Hd)
      by (cbn [sections]; apply get_last, Hs).
    cbn [defaults sections]. rewrite set_last by exact Hs.
    rewrite <- set_new by exact Hs. reflexivity.
Qed.

(** [cfg["DEFAULT"] = items]. *)
Lemma setitem_default cfg items :
  setitem cfg default_section items
  = if forallb (fun kv => accepted (snd kv)) items
    then Ok (mk (stored items []) (sections cfg))
    else Err ValueError.
Proof.
  unfold setitem, add_section. rewrite String.eqb_refl. cbn [orb].
  rewrite set_all_default by reflexivity. reflexivity.
Qed.

(** [cfg[name] = items] for the empty name: the items go to the default
    section, and a section of the empty name appears. *)
Lemma setitem_empty cfg items :
  has_section cfg EmptyString = false ->
  setitem cfg EmptyString items
  = if forallb (fun kv => accepted (snd kv)) items
    then Ok (mk (stored items (defaults cfg))
                (sections cfg ++ [(EmptyString, [])]))
    else Err ValueError.
Proof.
  intros Hs. unfold setitem, add_section.
  change (String.eqb EmptyString default_section) with false. cbn [orb].
  rewrite Hs. cbv iota. rewrite Hs.
  rewrite set_all_default by reflexivity. reflexivity.
Qed.

(** Without a percent sign there is nothing for the syntax check to
    refuse and nothing for interpolation to replace. *)
Lemma remove_double_id v :
  Py.contains "%" v = false -> Py.remove_double "%" v = v.
Proof.
  induction v as [|c v IH]; [reflexivity|].
  cbn [Py.contains]. intros [H1 H2]%orb_false_elim.
  destruct v as [|d v]; [reflexivity|].
  change (Py.remove_double "%" (String c (String d v)))
    with (if Ascii.eqb c "%" && Ascii.eqb d "%"
          then Py.remove_double "%" v
          else String c (Py.remove_double "%" (String d v))).
  rewrite (Ascii.eqb_sym c "%"), H1. cbn [andb]. rewrite (IH H2). reflexivity.
Qed.

Lemma keycre_sub_id v :
  Py.contains "%" v = false -> keycre_sub O v = v.
Proof.
  induction v as [|c v IH]; [reflexivity|].
  cbn [Py.contains]. intros [H1 H2]%orb_false_elim.
  cbn [keycre_sub].
  assert (E : keycre_match (String c v) = None).
  { unfold keycre_match.
    destruct c as [[] [] [] [] [] [] [] []]; try reflexivity; discriminate. }
  rewrite E, (IH H2). reflexivity.
Qed.

Lemma accepted_plain v : Py.contains "%" v = false -> accepted v = true.
Proof.
  intros H. unfold accepted, before_set_ok.
  rewrite remove_double_id, keycre_sub_id, H by assumption.
  apply orb_true_r.
Qed.

Lemma interpolate_plain d lookup v :
  Py.contains "%" v = false ->
  interpolate_some (S d) lookup v = Ok v.
Proof.
  intros H. cbn [interpolate_some].
  induction v as [|c v IH]; [reflexivity|].
  cbn [Py.contains] in H. apply orb_false_elim in H as [H1 H2].
  rewrite (Ascii.eqb_sym c "%"), H1, (IH H2). reflexivity.
Qed.

End IniFacts.

(** * Facts on stored records *)

Module StoreFacts.
Import ConfigParser Canon StrFacts DictFacts IniFacts.

Lemma text_no c s :
  Json.text_char c = false -> Py.all_chars Json.text_char s = true ->
  Py.contains c s = false.
Proof.
  intros Hc. induction s as [|d s IH]; [reflexivity|].
  cbn [Py.all_chars Py.contains]. intros [H1 H2]%andb_prop.
  rewrite (IH H2), orb_false_r.
  destruct (Ascii.eqb_spec c d) as [->|]; [congruence|reflexivity].
Qed.

(** Printable text with no blank at either end is a safe value. *)
Lemma safe_text s :
  Py.all_chars Json.text_char s = true ->
  Py.lstrip s = s -> Py.rstrip s = s -> Ini.safe s = true.
Proof.
  intros Ht Hl Hr. unfold Ini.safe, Ini.plain.
  rewrite Hl, Hr, !String.eqb_refl.
  rewrite !(text_no _ s) by (auto; reflexivity). reflexivity.
Qed.

Lemma safe_wrapped c1 mid c2 :
  Py.isspace c1 = false -> Py.isspace c2 = false ->
  Py.all_chars Json.text_char (String c1 (mid +:+ String c2 EmptyString)) = true ->
  Ini.safe (String c1 (mid +:+ String c2 EmptyString)) = true.
Proof.
  intros H1 H2 Ht. apply safe_text; [exact Ht| |].
  - cbn [Py.lstrip]. rewrite H1. reflexivity.
  - change (String c1 (mid +:+ String c2 EmptyString))
      with (String c1 mid +:+ String c2 EmptyString).
    rewrite rstrip_app; cbn [Py.rstrip Py.is_empty]; rewrite H2; reflexivity.
Qed.

Lemma str_of_Z_solid z :
  Py.all_chars (fun c => negb (Py.isspace c)) (Py.str_of_Z z) = true.
Proof.
  assert (D : forall u, Py.all_chars (fun c => negb (Py.isspace c))
                          (DecimalString.NilEmpty.string_of_uint u) = true).
  { induction u; simpl; auto. }
  unfold Py.str_of_Z.
  destruct (JsonFacts.to_int_shape z) as [E|(u & Hu & [E|E])]; rewrite E.
  - reflexivity.
  - specialize (D u). destruct u; simpl in Hu; try contradiction; exact D.
  - specialize (D u). destruct u; simpl in Hu; try contradiction; exact D.
Qed.

Lemma solid_safe s :
  Py.all_chars Json.text_char s = true ->
  Py.all_chars (fun c => negb (Py.isspace c)) s = true ->
  Ini.safe s = true.
Proof.
  intros Ht Hd. apply safe_text; [exact Ht| |].
  - destruct s as [|c s]; [reflexivity|].
    cbn [Py.all_chars] in Hd. apply andb_prop in Hd as [Hc _].
    cbn [Py.lstrip]. apply negb_true_iff in Hc. rewrite Hc. reflexivity.
  - clear Ht. induction s as [|c s IH]; [reflexivity|].
    cbn [Py.all_chars] in Hd. apply andb_prop in Hd as [Hc Hs].
    cbn [Py.rstrip]. rewrite (IH Hs). apply negb_true_iff in Hc. rewrite Hc.
    reflexivity.
Qed.

Lemma safe_str_of_Z z : Ini.safe (Py.str_of_Z z) = true.
Proof.
  apply solid_safe; [apply JsonFacts.str_of_Z_text|apply str_of_Z_solid].
Qed.

Lemma safe_str_of_bool b : Ini.safe (Py.str_of_bool b) = true.
Proof. destruct b; reflexivity. Qed.

Section Token.
Context {L : Lax}.

(** The JSON text of a storable token is a safe, non-empty value that
    decodes to the token. *)
Lemma token_text (v : pyval) :
  token_ok v = true ->
  exists j, Json.dumps v = Ok j /\ Ini.safe j = true
            /\ Py.is_empty j = false /\ Json.loads j = Ok v.
Proof.
  intros Hok.
  assert (Hr : Json.representable v = true /\ Json.percent_free v = true).
  { unfold token_ok in Hok. destruct v; try discriminate;
      apply andb_prop in Hok; exact Hok. }
  destruct Hr as [Hr Hp].
  destruct (JsonFacts.dumps_roundtrips v Hr) as (j & Hd & Hs & _).
  exists j. split; [exact Hd|].
  destruct (JsonFacts.dumps_bounded v j Hd) as [_ Ht]. specialize (Ht Hp).
  split; [|split].
  - destruct v; try discriminate.
    + injection Hd as <-. reflexivity.
    + cbn [Json.dumps] in Hd.
      destruct (Json.sequence _) as [items|e]; cbn [mbind result_bind rbind] in Hd;
        [|discriminate].
      injection Hd as <-.
      change ("{" +:+ Py.join ", " items +:+ "}")
        with (String "{" (Py.join ", " items +:+ String "}" EmptyString)) in *.
      apply safe_wrapped; [reflexivity|reflexivity|exact Ht].
  - destruct j; [discriminate|reflexivity].
  - apply JsonFacts.loads_dumps; assumption.
Qed.

End Token.

Lemma keys_set {V} k (v : V) d :
  Dict.keys (Dict.set k v d)
  = if Dict.mem k d then Dict.keys d else Dict.keys d ++ [k].
Proof.
  destruct (Dict.mem k d) eqn:E.
  - apply keys_set_mem, E.
  - rewrite set_new by exact E. unfold Dict.keys. rewrite map_app. reflexivity.
Qed.

Lemma distinct_snoc l k :
  Dict.distinct l = true -> existsb (String.eqb k) l = false ->
  Dict.distinct (l ++ [k]) = true.
Proof.
  induction l as [|x l IH]; [reflexivity|].
  cbn [Dict.distinct existsb app]. intros [H1 H2]%andb_prop [H3 H4]%orb_false_elim.
  rewrite existsb_app. cbn [existsb]. rewrite orb_false_r.
  apply negb_true_iff in H1. rewrite H1, String.eqb_sym, H3. cbn [orb negb andb].
  apply IH; assumption.
Qed.

Lemma forallb_set {V} (P : string * V -> bool) k v d :
  forallb P d = true -> P (k, v) = true -> forallb P (Dict.set k v d) = true.
Proof.
  intros Hd Hk. induction d as [|[k' v'] d IH]; cbn [Dict.set forallb] in *.
  - rewrite Hk. reflexivity.
  - apply andb_prop in Hd as [H1 H2]. destruct (String.eqb k k'); cbn [forallb].
    + rewrite Hk, H2. reflexivity.
    + rewrite H1, IH by assumption. reflexivity.
Qed.

(** Replacing a section by well-formed items keeps the state well formed. *)
Lemma wf_set cfg section items :
  Ini.wf cfg = true -> Ini.name_ok section = true ->
  String.eqb section default_section = false ->
  Ini.items_ok items = true ->
  Ini.wf (mk (defaults cfg) (Dict.set section items (sections cfg))) = true.
Proof.
  intros Hwf Hn Hd Hit. destruct (wf_parts cfg Hwf) as (H1 & H2 & H3).
  unfold Ini.wf. cbn [defaults sections]. rewrite H1. cbn [andb].
  apply andb_true_intro. split.
  - rewrite keys_set. destruct (Dict.mem section (sections cfg)) eqn:E; [exact H2|].
    apply distinct_snoc; [exact H2|]. rewrite <- mem_existsb. exact E.
  - apply forallb_set; [exact H3|]. cbn [fst snd]. rewrite Hn, Hd, Hit. reflexivity.
Qed.

Lemma get_distinct {V} (d : Dict.t V) k v :
  Dict.distinct (Dict.keys d) = true -> In (k, v) d -> Dict.get k d = Some v.
Proof.
  induction d as [|[k' v'] d IH]; [contradiction|].
  cbn [Dict.keys map fst Dict.distinct Dict.get].
  intros [H1 H2]%andb_prop [[= -> ->]|Hin].
  - rewrite String.eqb_refl. reflexivity.
  - destruct (String.eqb_spec k k') as [->|]; [|apply IH; assumption].
    apply negb_true_iff in H1. exfalso.
    assert (E : existsb (String.eqb k') (map fst d) = true).
    { apply existsb_exists. exists k'. split; [|apply String.eqb_refl].
      apply in_map_iff. exists (k', v). auto. }
    congruence.
Qed.

Lemma keys_update (d e : Dict.t string) :
  forallb (fun k => Dict.mem k d) (Dict.keys e) = true ->
  Dict.keys (Dict.update d e) = Dict.keys d.
Proof.
  unfold Dict.update. revert d.
  induction e as [|[k v] e IH]; intros d; [reflexivity|].
  cbn [Dict.keys map fst forallb]. intros [H1 H2]%andb_prop.
  change (Dict.keys (fold_left (fun d kv => Dict.set (fst kv) (snd kv) d) e
                               (Dict.set k v d)) = Dict.keys d).
  rewrite IH.
  - apply keys_set_mem, H1.
  - rewrite forallb_forall in H2 |- *. intros k' Hin. specialize (H2 k' Hin).
    rewrite mem_existsb in H2 |- *. rewrite keys_set_mem by exact H1. exact H2.
Qed.

(** What the section proxy of [section] yields when the section holds
    [items], no option of the default section is missing from it, and no
    value asks for interpolation. *)
Lemma getitem_dict_items cfg section items :
  Py.is_empty section = false -> String.eqb section default_section = false ->
  Dict.get section (sections cfg) = Some items ->
  Dict.distinct (Dict.keys items) = true ->
  forallb (fun kv => String.eqb (Py.lower (fst kv)) (fst kv)
                     && negb (Py.contains "%" (snd kv))) items = true ->
  forallb (fun k => Dict.mem k items) (Dict.keys (defaults cfg)) = true ->
  getitem_dict cfg section = Ok items.
Proof.
  intros He Hd Hg Hdis Hit Hdef. unfold getitem_dict, has_section, Dict.mem.
  rewrite Hg, Hd. cbn [orb]. unfold proxy_options. rewrite Hd, Hg.
  rewrite keys_update by exact Hdef.
  assert (G : forall l, incl l items ->
                proxy_collect cfg section (Dict.keys l) = Ok l).
  { induction l as [|[k v] l IH]; intros Hin; [reflexivity|].
    cbn [Dict.keys map fst proxy_collect].
    assert (Hkv : In (k, v) items) by (apply Hin; left; reflexivity).
    rewrite forallb_forall in Hit. specialize (Hit _ Hkv). cbn [fst snd] in Hit.
    apply andb_prop in Hit as [Hl Hp]. apply String.eqb_eq in Hl.
    apply negb_true_iff in Hp.
    pose proof (get_distinct items k v Hdis Hkv) as Hget.
    unfold proxy_getitem, has_option, get, unify_values.
    rewrite He, Hd, Hg, Hl. unfold Dict.mem. rewrite Hget. cbn [orb].
    unfold MAX_INTERPOLATION_DEPTH. rewrite interpolate_plain by exact Hp.
    cbn [mbind result_bind rbind].
    change (map fst l) with (Dict.keys l). rewrite IH; [reflexivity|].
    intros x Hx. apply Hin. right. exact Hx. }
  apply G, incl_refl.
Qed.

End StoreFacts.

(** * The bounds of the loops of [json.loads] are never reached *)

Module FuelFacts.
Import Json.

Lemma skip_ws_le s : (String.length (skip_ws s) <= String.length s)%nat.
Proof.
  induction s as [|c s IH]; [reflexivity|].
  cbn [skip_ws]. destruct (is_ws c); cbn [String.length]; lia.
Qed.

Lemma scanstring_shorter s : forall x r,
  scanstring s = Ok (x, r) -> (String.length r < String.length s)%nat.
Proof.
  induction s as [s IH] using (induction_ltof1 _ String.length).
  unfold ltof in IH.
  intros x r. destruct s as [|c s]; [discriminate|]. cbn [scanstring].
  destruct (Ascii.eqb c dquote).
  { intros [= _ <-]. cbn. lia. }
  destruct (Ascii.eqb c backslash).
  - destruct s as [|e r1]; [discriminate|].
    destruct (Ascii.eqb e "u").
    + destruct r1 as [|h1 [|h2 [|h3 [|h4 r2]]]]; try discriminate.
      destruct (hex4 h1 h2 h3 h4) as [n|]; [|discriminate].
      destruct (n <? 256)%nat; [|discriminate].
      destruct (scanstring r2) as [[y rest]|e'] eqn:E; [|discriminate].
      cbn [mbind result_bind rbind]. intros [= _ <-].
      apply IH in E; cbn in *; lia.
    + destruct (unescape e); [|discriminate].
      destruct (scanstring r1) as [[y rest]|e'] eqn:E; [|discriminate].
      cbn [mbind result_bind rbind]. intros [= _ <-].
      apply IH in E; cbn in *; lia.
  - destruct (nat_of_ascii c <? 32)%nat; [discriminate|].
    destruct (scanstring s) as [[y rest]|e'] eqn:E; [|discriminate].
    cbn [mbind result_bind rbind]. intros [= _ <-].
    apply IH in E; cbn in *; lia.
Qed.

Lemma scanstring_fuel s : scanstring s <> Err OutOfFuel.
Proof.
  induction s as [s IH] using (induction_ltof1 _ String.length).
  unfold ltof in IH.
  destruct s as [|c s]; [discriminate|]. cbn [scanstring].
  destruct (Ascii.eqb c dquote); [discriminate|].
  destruct (Ascii.eqb c backslash).
  - destruct s as [|e r1]; [discriminate|].
    destruct (Ascii.eqb e "u").
    + destruct r1 as [|h1 [|h2 [|h3 [|h4 r2]]]]; try discriminate.
      destruct (hex4 h1 h2 h3 h4) as [n|]; [|discriminate].
      destruct (n <? 256)%nat; [|discriminate].
      assert (H : scanstring r2 <> Err OutOfFuel) by (apply IH; cbn; lia).
      destruct (scanstring r2) as [[y rest]|e'];
        cbn [mbind result_bind rbind]; congruence.
    + destruct (unescape e); [|discriminate].
      assert (H : scanstring r1 <> Err OutOfFuel) by (apply IH; cbn; lia).
      destruct (scanstring r1) as [[y rest]|e'];
        cbn [mbind result_bind rbind]; congruence.
  - destruct (nat_of_ascii c <? 32)%nat; [discriminate|].
    assert (H : scanstring s <> Err OutOfFuel) by (apply IH; cbn; lia).
    destruct (scanstring s) as [[y rest]|e'];
      cbn [mbind result_bind rbind]; congruence.
Qed.

Lemma span_digits_le s :
  (String.length (snd (span_digits s)) <= String.length s)%nat.
Proof.
  induction s as [|c s IH]; [reflexivity|]. cbn [span_digits].
  destruct (is_digit c); [|reflexivity].
  destruct (span_digits s) as [ds r]. cbn in *. lia.
Qed.

Lemma match_integer_shorter s t r :
  match_integer s = Some (t, r) -> (String.length r < String.length s)%nat.
Proof.
  assert (B : forall sign u,
            match u with
            | EmptyString => None
            | String c r0 =>
                if Ascii.eqb c "0" then Some (sign +:+ "0", r0)
                else if is_digit c then
                  let (ds, r') := span_digits r0 in
                  Some (sign +:+ String c ds, r')
                else None
            end = Some (t, r) ->
            (String.length r < String.length u)%nat).
  { intros sign u. destruct u as [|c r0]; [discriminate|].
    destruct (Ascii.eqb c "0"); [intros [= _ <-]; cbn; lia|].
    destruct (is_digit c); [|discriminate].
    pose proof (span_digits_le r0) as H.
    destruct (span_digits r0) as [ds r']. intros [= _ <-]. cbn in *. lia. }
  unfold match_integer. destruct s as [|c s]; [discriminate|].
  destruct (Ascii.eqb c "-") eqn:E.
  - apply Ascii.eqb_eq in E. subst c. intros H.
    apply (B "-" s) in H. cbn. lia.
  - intros H.
    assert (H' : (let body (sign t : string) :=
    match t with
    | EmptyString => None
    | String c r =>
        if Ascii.eqb c "0" then Some (sign +:+ "0", r)
        else if is_digit c then
          let (ds, r') := span_digits r in Some (sign +:+ String c ds, r')
        else None
    end in body EmptyString (String c s)) = Some (t, r)).
    { rewrite <- H. clear -E.
      destruct c as [[] [] [] [] [] [] [] []]; try discriminate E;
        reflexivity. }
    exact (B EmptyString (String c s) H').
Qed.

Lemma drop_le n s : (String.length (Py.drop n s) <= String.length s)%nat.
Proof.
  revert s. induction n as [|n IH]; intros s; [destruct s; reflexivity|].
  destruct s as [|c s]; [reflexivity|]. cbn [Py.drop String.length].
  specialize (IH s). lia.
Qed.

Lemma drop_shorter n c s :
  (String.length (Py.drop (S n) (String c s)) < String.length (String c s))%nat.
Proof. cbn [Py.drop String.length]. pose proof (drop_le n s). lia. Qed.

Lemma match_frac_le r :
  (String.length (snd (match_frac r)) <= String.length r)%nat.
Proof.
  unfold match_frac. destruct r as [|c t]; [reflexivity|].
  assert (G : (String.length
                 (snd (if starts_digit t
                       then let (ds, r') := span_digits t in
                            (String "." ds, r')
                       else (EmptyString, String c t)))
               <= String.length (String c t))%nat).
  { destruct (starts_digit t); [|reflexivity].
    pose proof (span_digits_le t) as H.
    destruct (span_digits t) as [ds r']. cbn in *. lia. }
  destruct (Ascii.eqb c ".") eqn:E.
  - apply Ascii.eqb_eq in E. subst c. exact G.
  - destruct c as [[] [] [] [] [] [] [] []]; try discriminate E; reflexivity.
Qed.

Lemma match_exp_le r :
  (String.length (snd (match_exp r)) <= String.length r)%nat.
Proof.
  unfold match_exp. destruct r as [|c t]; [reflexivity|].
  destruct (Ascii.eqb c "e" || Ascii.eqb c "E"); [|reflexivity].
  destruct t as [|s u]; [reflexivity|].
  destruct (Ascii.eqb s "+" || Ascii.eqb s "-").
  - destruct (starts_digit u); [|reflexivity].
    pose proof (span_digits_le u) as H.
    destruct (span_digits u) as [ds r']. cbn in *. lia.
  - destruct (is_digit s); [|reflexivity].
    pose proof (span_digits_le (String s u)) as H.
    destruct (span_digits (String s u)) as [ds r']. cbn in *. lia.
Qed.

Lemma float_literal_le t rest :
  (String.length (snd (float_literal t rest)) <= String.length rest)%nat.
Proof.
  unfold float_literal. pose proof (match_frac_le rest) as H1.
  destruct (match_frac rest) as [frac r1].
  pose proof (match_exp_le r1) as H2.
  destruct (match_exp r1) as [exp r2]. cbn in *. lia.
Qed.

Lemma match_constant_shorter s v r :
  match_constant s = Ok (v, r) -> (String.length r < String.length s)%nat.
Proof.
  unfold match_constant. destruct s as [|c t]; [discriminate|].
  destruct (Py.startswith "NaN" (String c t)).
  { intros [= _ <-]. exact (drop_shorter 2 c t). }
  destruct (Py.startswith "Infinity" (String c t)).
  { intros [= _ <-]. exact (drop_shorter 7 c t). }
  destruct (Py.startswith "-Infinity" (String c t)); [|discriminate].
  intros [= _ <-]. exact (drop_shorter 8 c t).
Qed.

Lemma match_constant_fuel s : match_constant s <> Err OutOfFuel.
Proof.
  unfold match_constant.
  destruct (Py.startswith "NaN" s); [discriminate|].
  destruct (Py.startswith "Infinity" s); [discriminate|].
  destruct (Py.startswith "-Infinity" s); discriminate.
Qed.

Section Loops.
Variable scan : string -> result (pyval * string).
Hypothesis scan_shorter : forall s v r,
  scan s = Ok (v, r) -> (String.length r < String.length s)%nat.

Lemma array_loop_shorter k : forall acc s v r,
  array_loop scan k acc s = Ok (v, r) ->
  (String.length r < String.length s)%nat.
Proof.
  induction k as [|k IH]; intros acc s v r; [discriminate|].
  cbn [array_loop].
  destruct (scan s) as [[x s1]|e] eqn:E; [|discriminate].
  cbn [mbind result_bind rbind]. apply scan_shorter in E.
  pose proof (skip_ws_le s1) as H1.
  destruct (skip_ws s1) as [|c rest]; [discriminate|].
  destruct (Ascii.eqb c "]") eqn:C1.
  { apply Ascii.eqb_eq in C1. subst c. intros [= _ <-]. cbn in *. lia. }
  destruct (Ascii.eqb c ",") eqn:C2.
  { apply Ascii.eqb_eq in C2. subst c. intros H. apply IH in H.
    pose proof (skip_ws_le rest). cbn in *. lia. }
  destruct c as [[] [] [] [] [] [] [] []]; try discriminate;
    cbn in C1, C2; discriminate.
Qed.

Lemma JSONArray_shorter s v r :
  JSONArray scan s = Ok (v, r) -> (String.length r < String.length s)%nat.
Proof.
  unfold JSONArray. pose proof (skip_ws_le s) as H.
  destruct (skip_ws s) as [|c rest] eqn:E.
  - intros H1. apply array_loop_shorter in H1. cbn in H1. lia.
  - destruct (Ascii.eqb c "]") eqn:C.
    + apply Ascii.eqb_eq in C. subst c. intros [= _ <-]. cbn in *. lia.
    + assert (G : array_loop scan (S (String.length (String c rest))) []
                    (String c rest) = Ok (v, r) ->
                  (String.length r < String.length s)%nat).
      { intros H1. apply array_loop_shorter in H1. lia. }
      destruct c as [[] [] [] [] [] [] [] []]; try exact G;
        cbn in C; discriminate.
Qed.

Lemma object_loop_shorter k : forall acc s v r,
  object_loop scan k acc s = Ok (v, r) ->
  (String.length r < String.length s)%nat.
Proof.
  induction k as [|k IH]; intros acc s v r; [discriminate|].
  cbn [object_loop].
  destruct (scanstring s) as [[key s1]|e] eqn:E; [|discriminate].
  cbn [mbind result_bind rbind]. apply scanstring_shorter in E.
  pose proof (skip_ws_le s1) as H1.
  destruct (skip_ws s1) as [|c s2]; [discriminate|].
  destruct (Ascii.eqb c ":") eqn:C.
  2:{ destruct c as [[] [] [] [] [] [] [] []]; try discriminate;
        cbn in C; discriminate. }
  apply Ascii.eqb_eq in C. subst c.
  pose proof (skip_ws_le s2) as H2.
  destruct (scan (skip_ws s2)) as [[x s3]|e] eqn:E2; [|discriminate].
  cbn [mbind result_bind rbind]. apply scan_shorter in E2.
  pose proof (skip_ws_le s3) as H3.
  destruct (skip_ws s3) as [|c rest]; [discriminate|].
  destruct (Ascii.eqb c "}") eqn:C1.
  { apply Ascii.eqb_eq in C1. subst c. intros [= _ <-]. cbn in *. lia. }
  destruct (Ascii.eqb c ",") eqn:C2.
  { apply Ascii.eqb_eq in C2. subst c.
    pose proof (skip_ws_le rest) as H4.
    destruct (skip_ws rest) as [|c s5]; [discriminate|].
    destruct (Ascii.eqb c dquote); [|discriminate].
    intros H. apply IH in H. cbn in *. lia. }
  destruct c as [[] [] [] [] [] [] [] []]; try discriminate;
    cbn in C1, C2; discriminate.
Qed.

Lemma JSONObject_shorter s v r :
  JSONObject scan s = Ok (v, r) -> (String.length r < String.length s)%nat.
Proof.
  unfold JSONObject. pose proof (skip_ws_le s) as H.
  destruct (skip_ws s) as [|c rest] eqn:E; [discriminate|].
  destruct (Ascii.eqb c "}") eqn:C.
  - apply Ascii.eqb_eq in C. subst c. intros [= _ <-]. cbn in *. lia.
  - assert (G : (if Ascii.eqb c dquote
                 then object_loop scan (S (String.length rest)) [] rest
                 else Err JSONDecodeError) = Ok (v, r) ->
                (String.length r < String.length s)%nat).
    { destruct (Ascii.eqb c dquote); [|discriminate].
      intros H1. apply object_loop_shorter in H1. cbn in *. lia. }
    destruct c as [[] [] [] [] [] [] [] []]; try exact G;
      cbn in C; discriminate.
Qed.

(** With a scanner that stays within its bound on the texts up to the
    length [m]. *)
Variable m : nat.
Hypothesis scan_fuel : forall s,
  (String.length s <= m)%nat -> scan s <> Err OutOfFuel.

Lemma array_loop_fuel k : forall acc s,
  (String.length s < k)%nat -> (String.length s <= m)%nat ->
  array_loop scan k acc s <> Err OutOfFuel.
Proof.
  induction k as [|k IH]; intros acc s Hk Hm; [lia|].
  cbn [array_loop]. pose proof (scan_fuel s Hm) as F.
  destruct (scan s) as [[x s1]|e] eqn:E;
    cbn [mbind result_bind rbind]; [|congruence].
  apply scan_shorter in E. pose proof (skip_ws_le s1) as H1.
  destruct (skip_ws s1) as [|c rest]; [discriminate|].
  destruct (Ascii.eqb c "]") eqn:C1.
  { apply Ascii.eqb_eq in C1. subst c. discriminate. }
  destruct (Ascii.eqb c ",") eqn:C2.
  { apply Ascii.eqb_eq in C2. subst c. pose proof (skip_ws_le rest).
    apply IH; cbn in *; lia. }
  destruct c as [[] [] [] [] [] [] [] []]; try discriminate;
    cbn in C1, C2; discriminate.
Qed.

Lemma JSONArray_fuel s :
  (String.length s <= m)%nat -> JSONArray scan s <> Err OutOfFuel.
Proof.
  intros Hm. unfold JSONArray. pose proof (skip_ws_le s) as H.
  destruct (skip_ws s) as [|c rest] eqn:E.
  - apply array_loop_fuel; cbn; lia.
  - destruct (Ascii.eqb c "]") eqn:C.
    + apply Ascii.eqb_eq in C. subst c. discriminate.
    + assert (G : array_loop scan (S (String.length (String c rest))) []
                    (String c rest) <> Err OutOfFuel)
        by (apply array_loop_fuel; cbn in *; lia).
      destruct c as [[] [] [] [] [] [] [] []]; try exact G;
        cbn in C; discriminate.
Qed.

Lemma object_loop_fuel k : forall acc s,
  (String.length s < k)%nat -> (String.length s <= m)%nat ->
  object_loop scan k acc s <> Err OutOfFuel.
Proof.
  induction k as [|k IH]; intros acc s Hk Hm; [lia|].
  cbn [object_loop]. pose proof (scanstring_fuel s) as F.
  destruct (scanstring s) as [[key s1]|e] eqn:E;
    cbn [mbind result_bind rbind]; [|congruence].
  apply scanstring_shorter in E. pose proof (skip_ws_le s1) as H1.
  destruct (skip_ws s1) as [|c s2]; [discriminate|].
  destruct (Ascii.eqb c ":") eqn:C.
  2:{ destruct c as [[] [] [] [] [] [] [] []]; try discriminate;
        cbn in C; discriminate. }
  apply Ascii.eqb_eq in C. subst c.
  pose proof (skip_ws_le s2) as H2.
  assert (F2 : scan (skip_ws s2) <> Err OutOfFuel)
    by (apply scan_fuel; cbn in *; lia).
  destruct (scan (skip_ws s2)) as [[x s3]|e] eqn:E2;
    cbn [mbind result_bind rbind]; [|congruence].
  apply scan_shorter in E2. pose proof (skip_ws_le s3) as H3.
  destruct (skip_ws s3) as [|c rest]; [discriminate|].
  destruct (Ascii.eqb c "}") eqn:C1.
  { apply Ascii.eqb_eq in C1. subst c. discriminate. }
  destruct (Ascii.eqb c ",") eqn:C2.
  { apply Ascii.eqb_eq in C2. subst c.
    pose proof (skip_ws_le rest) as H4.
    destruct (skip_ws rest) as [|c s5]; [discriminate|].
    destruct (Ascii.eqb c dquote); [|discriminate].
    apply IH; cbn in *; lia. }
  destruct c as [[] [] [] [] [] [] [] []]; try discriminate;
    cbn in C1, C2; discriminate.
Qed.

Lemma JSONObject_fuel s :
  (String.length s <= m)%nat -> JSONObject scan s <> Err OutOfFuel.
Proof.
  intros Hm. unfold JSONObject. pose proof (skip_ws_le s) as H.
  destruct (skip_ws s) as [|c rest] eqn:E; [discriminate|].
  destruct (Ascii.eqb c "}") eqn:C.
  - apply Ascii.eqb_eq in C. subst c. discriminate.
  - assert (G : (if Ascii.eqb c dquote
                 then object_loop scan (S (String.length rest)) [] rest
                 else Err JSONDecodeError) <> Err OutOfFuel).
    { destruct (Ascii.eqb c dquote); [|discriminate].
      apply object_loop_fuel; cbn in *; lia. }
    destruct c as [[] [] [] [] [] [] [] []]; try exact G;
      cbn in C; discriminate.
Qed.

End Loops.

Lemma scan_once_shorter n : forall s v r,
  scan_once n s = Ok (v, r) -> (String.length r < String.length s)%nat.
Proof.
  induction n as [|n IH]; intros s v r; [discriminate|].
  cbn [scan_once]. destruct s as [|c t]; [discriminate|].
  destruct (Ascii.eqb c dquote).
  { destruct (scanstring t) as [[x rest]|e] eqn:E; [|discriminate].
    cbn [mbind result_bind rbind]. intros [= _ <-].
    apply scanstring_shorter in E. cbn. lia. }
  destruct (Ascii.eqb c "{").
  { intros H. apply (JSONObject_shorter _ IH) in H. cbn. lia. }
  destruct (Ascii.eqb c "[").
  { intros H. apply (JSONArray_shorter _ IH) in H. cbn. lia. }
  destruct (Py.startswith "null" (String c t)).
  { intros [= _ <-]. exact (drop_shorter 3 c t). }
  destruct (Py.startswith "true" (String c t)).
  { intros [= _ <-]. exact (drop_shorter 3 c t). }
  destruct (Py.startswith "false" (String c t)).
  { intros [= _ <-]. exact (drop_shorter 4 c t). }
  destruct (match_integer (String c t)) as [[u rest]|] eqn:E.
  - apply match_integer_shorter in E.
    destruct (has_frac_or_exp rest).
    + pose proof (float_literal_le u rest) as F.
      destruct (float_literal u rest) as [x r']. intros [= _ <-].
      cbn [snd] in F. lia.
    + destruct (int_of_text u); [|discriminate].
      cbn [mbind result_bind rbind]. intros [= _ <-]. exact E.
  - apply match_constant_shorter.
Qed.

Lemma int_of_text_fuel t : int_of_text t <> Err OutOfFuel.
Proof.
  unfold int_of_text. case_match; discriminate.
Qed.

Lemma scan_once_fuel n : forall s,
  (String.length s < n)%nat -> scan_once n s <> Err OutOfFuel.
Proof.
  induction n as [|n IH]; intros s Hn; [lia|].
  cbn [scan_once]. destruct s as [|c t]; [discriminate|].
  cbn [String.length] in Hn.
  destruct (Ascii.eqb c dquote).
  { pose proof (scanstring_fuel t) as F.
    destruct (scanstring t) as [[x rest]|e];
      cbn [mbind result_bind rbind]; congruence. }
  destruct (Ascii.eqb c "{").
  { apply (JSONObject_fuel _ (scan_once_shorter n) (String.length t));
      [|lia]. intros s' Hs'. apply IH. lia. }
  destruct (Ascii.eqb c "[").
  { apply (JSONArray_fuel _ (scan_once_shorter n) (String.length t));
      [|lia]. intros s' Hs'. apply IH. lia. }
  destruct (Py.startswith "null" (String c t)); [discriminate|].
  destruct (Py.startswith "true" (String c t)); [discriminate|].
  destruct (Py.startswith "false" (String c t)); [discriminate|].
  destruct (match_integer (String c t)) as [[u rest]|].
  - destruct (has_frac_or_exp rest); [discriminate|].
    pose proof (int_of_text_fuel u) as F.
    destruct (int_of_text u); cbn [mbind result_bind rbind]; congruence.
  - apply match_constant_fuel.
Qed.

(** The bound [loads] gives [scan_once] is enough for every text: the
    answer of [loads] is a value or an exception of Python, never the
    marker of a bound reached. *)
Lemma loads_fuel s : loads s <> Err OutOfFuel.
Proof.
  unfold loads.
  assert (F : scan_once (S (String.length s)) (skip_ws s) <> Err OutOfFuel).
  { apply scan_once_fuel. pose proof (skip_ws_le s). lia. }
  destruct (scan_once (S (String.length s)) (skip_ws s)) as [[v rest]|e];
    cbn [mbind result_bind rbind]; [|congruence].
  destruct (skip_ws rest); discriminate.
Qed.

(** Texts that are cut off or are not JSON at all: [loads] answers with
    the [JSONDecodeError] of [json.loads]. *)
Lemma loads_refuses_cut_off :
  Forall (fun s => loads s = Err JSONDecodeError)
    [ "["; "[["; "[1,"; "[1 2]"; "{"; String dquote "abc"; "{not json";
      String "{" (String dquote "a"); String "{" (String dquote "a:1}");
      "tru"; "nul"; "-"; "1 2"; EmptyString; " " ].
Proof. repeat constructor. Qed.

(** Numbers with a fraction or an exponent and the constants come back
    as floats, each with its literal. *)
Lemma loads_reads_floats :
  loads ("{" +:+ String dquote ("expires_at" +:+ String dquote
           (": 1700000000.25, " +:+ String dquote ("n" +:+ String dquote
           ": [1e3, -0.5E-2, NaN, -Infinity, 7]}"))))
  = Ok (PDict [("expires_at", PFloat "1700000000.25");
               ("n", PList [PFloat "1e3"; PFloat "-0.5E-2"; PFloat "NaN";
                            PFloat "-Infinity"; PInt 7])])
  /\ Forall (fun s => loads s = Err JSONDecodeError)
       [ "1."; ".5"; "1e"; "1e+"; "-.5"; "Infinit"; "[1.5"; "+1" ].
Proof. split; [reflexivity|repeat constructor]. Qed.

End FuelFacts.

(** * Facts on the lock *)

Module LockFacts.
Section Facts.
Context {L : Lax}.

Lemma acquire_ok w : lock_ok w = true -> acquire w = (Returns tt, acquired w).
Proof.
  unfold lock_ok, acquire, acquired.
  destruct (is_locked (_lock_azul_config w)); [reflexivity|].
  intros [_ H]%andb_prop. apply negb_true_iff in H. rewrite H. reflexivity.
Qed.

Lemma locked_ok {A} (body : M A) w :
  lock_ok w = true ->
  locked body w = (fst (body (acquired w)), release (snd (body (acquired w)))).
Proof.
  intros H. unfold locked. rewrite (acquire_ok w H).
  destruct (body (acquired w)); reflexivity.
Qed.

Lemma release_cases w : exists c u l, release w = set_lock c u l w.
Proof.
  unfold release. destruct (is_locked _).
  - destruct (lock_counter _) as [|[|n]]; eauto.
  - exists (flock_calls w), (funlock_calls w), (_lock_azul_config w).
    destruct w; reflexivity.
Qed.

Lemma fs_release w : fs (release w) = fs w.
Proof. destruct (release_cases w) as (c & u & l & ->). reflexivity. Qed.
Lemma environ_release w : environ (release w) = environ w.
Proof. destruct (release_cases w) as (c & u & l & ->). reflexivity. Qed.
Lemma section_release w : config_section (release w) = config_section w.
Proof. destruct (release_cases w) as (c & u & l & ->). reflexivity. Qed.
Lemma defaults_release w : location_defaults (release w) = location_defaults w.
Proof. destruct (release_cases w) as (c & u & l & ->). reflexivity. Qed.
Lemma stderr_release w : stderr (release w) = stderr w.
Proof. destruct (release_cases w) as (c & u & l & ->). reflexivity. Qed.
Lemma held_release w : held_elsewhere (release w) = held_elsewhere w.
Proof. destruct (release_cases w) as (c & u & l & ->). reflexivity. Qed.

Lemma globals_release w : globals (release w) = globals w.
Proof.
  unfold release. destruct (is_locked _); [|reflexivity].
  destruct (lock_counter _) as [|[|n]]; reflexivity.
Qed.

Lemma globals_acquire w : globals (snd (acquire w)) = globals w.
Proof.
  unfold acquire. destruct (is_locked _); [reflexivity|].
  destruct (held_elsewhere w); [destruct (float_elapses _)|]; reflexivity.
Qed.

(** Computations that keep a projection of the world. *)
Lemma keeps_ret {A X} (f : World -> X) (a : A) : keeps f (mret a).
Proof. intros w. reflexivity. Qed.

Lemma keeps_raise {A X} (f : World -> X) e : keeps f (@raise _ A e).
Proof. intros w. reflexivity. Qed.

Lemma keeps_lift {A X} (f : World -> X) (r : result A) : keeps f (lift r).
Proof. intros w. unfold lift. destruct r; reflexivity. Qed.

Lemma keeps_gets {A X} (f : World -> X) (g : World -> A) : keeps f (gets g).
Proof. intros w. reflexivity. Qed.

Lemma keeps_bind {A B X} (f : World -> X) (m : M A) (k : A -> M B) :
  keeps f m -> (forall a, keeps f (k a)) -> keeps f (m ≫= k).
Proof.
  intros Hm Hk w. unfold mbind, M_bind, bind.
  specialize (Hm w). destruct (m w) as [[a|e| |] w']; cbn [snd] in *; auto.
  rewrite Hk. exact Hm.
Qed.

Lemma keeps_locked {A X} (f : World -> X) (m : M A) :
  (forall w, f (snd (acquire w)) = f w) -> (forall w, f (release w) = f w) ->
  keeps f m -> keeps f (locked m).
Proof.
  intros Ha Hr Hm w. unfold locked. specialize (Ha w).
  destruct (acquire w) as [[[]|e| |] w1]; cbn [snd] in *; auto.
  specialize (Hm w1). destruct (m w1) as [r w2]. cbn [snd] in *.
  rewrite Hr, Hm. exact Ha.
Qed.

Lemma keeps_current_location {X} (f : World -> X) : keeps f current_location.
Proof.
  intros w. unfold current_location.
  destruct (ConfigLocation_new _ _); reflexivity.
Qed.

Lemma globals_print text : keeps globals (print text).
Proof. intros w. reflexivity. Qed.

Lemma globals_set_fs (g : World -> gmap string string) :
  keeps globals (modify (fun w => set_fs (g w) w)).
Proof. intros w. reflexivity. Qed.

Lemma places_switch s : keeps places (switch_section s).
Proof. intros w. reflexivity. Qed.

Lemma globals_places w w' : globals w = globals w' -> places w = places w'.
Proof. unfold globals, places. intros [= -> _ -> -> _ -> ->]. reflexivity. Qed.

Lemma globals_location w w' :
  globals w = globals w' -> location_of w = location_of w'.
Proof. unfold globals, location_of. intros [= -> _ -> _ _ _ _]. reflexivity. Qed.

Lemma globals_section w w' :
  globals w = globals w' -> config_section w = config_section w'.
Proof. unfold globals. intros [= _ -> _ _ _ _ _]. reflexivity. Qed.

Lemma globals_environ w w' :
  globals w = globals w' -> environ w = environ w'.
Proof. unfold globals. intros [= -> _ _ _ _ _ _]. reflexivity. Qed.

End Facts.

Ltac keeps_step :=
  first
    [ apply keeps_locked; [apply globals_acquire|apply globals_release|]
    | apply keeps_bind; [|intros ?]
    | apply keeps_ret
    | apply keeps_raise
    | apply keeps_lift
    | apply keeps_gets
    | apply keeps_current_location
    | apply globals_print
    | apply globals_set_fs
    | match goal with
      | |- keeps _ (match ?x with _ => _ end) => destruct x
      | |- keeps _ (if ?x then _ else _) => destruct x
      end ].

Section Facts2.
Context {L : Lax}.

Lemma globals_save self : keeps globals (save self).
Proof. unfold save, save_body. repeat keeps_step. Qed.

Lemma globals_get_config : keeps globals get_config.
Proof.
  unfold get_config, get_config_body, generate_default, load_section.
  repeat first [apply globals_save | keeps_step].
Qed.

Lemma globals_clear_auth : keeps globals clear_auth.
Proof.
  unfold clear_auth.
  repeat first [apply globals_save | apply globals_get_config | keeps_step].
Qed.

(** Computations that run under the held lock without touching it. *)
Lemma steady_ret {A} (a : A) : steady (mret a).
Proof. intros w _ _. repeat split; discriminate. Qed.

Lemma steady_raise {A} e : steady (@raise _ A e).
Proof. intros w _ _. repeat split; discriminate. Qed.

Lemma steady_lift {A} (r : result A) : steady (lift r).
Proof. intros w _ _. unfold lift. destruct r; repeat split; discriminate. Qed.

Lemma steady_gets {A} (g : World -> A) : steady (gets g).
Proof. intros w _ _. repeat split; discriminate. Qed.

Lemma steady_print text : steady (print text).
Proof. intros w _ _. repeat split; discriminate. Qed.

Lemma steady_set_fs (g : World -> gmap string string) :
  steady (modify (fun w => set_fs (g w) w)).
Proof. intros w _ _. repeat split; discriminate. Qed.

Lemma steady_current_location : steady current_location.
Proof.
  intros w _ _. unfold current_location.
  destruct (ConfigLocation_new _ _); repeat split; discriminate.
Qed.

Lemma steady_bind {A B} (m : M A) (k : A -> M B) :
  steady m -> (forall a, steady (k a)) -> steady (m ≫= k).
Proof.
  intros Hm Hk w Hl Hc. unfold mbind, M_bind, bind.
  destruct (Hm w Hl Hc) as (H1 & H2 & H3 & H4 & H5 & H6).
  destruct (m w) as [[a|e| |] w']; cbn [fst snd] in *.
  - destruct (Hk a w') as (K1 & K2 & K3 & K4 & K5 & K6);
      [rewrite H1; exact Hl|rewrite H1; exact Hc|].
    repeat split; congruence.
  - repeat split; auto; try discriminate.
  - congruence.
  - congruence.
Qed.

Lemma steady_locked {A} (m : M A) : steady m -> steady (locked m).
Proof.
  intros Hm w Hl Hc. unfold locked, acquire. rewrite Hl.
  set (w1 := set_lock _ _ _ w).
  destruct (Hm w1) as (H1 & H2 & H3 & H4 & H5 & H6);
    [reflexivity|cbn; lia|].
  destruct (m w1) as [r w2]. cbn [fst snd] in *.
  unfold release. rewrite H1. cbn.
  destruct (_lock_azul_config w) as [f t c b] eqn:E. cbn in *.
  destruct c as [|c]; [lia|].
  cbn. rewrite H2, H3, H4. subst b. repeat split; auto.
Qed.

End Facts2.

Ltac steady_step :=
  first
    [ apply steady_locked
    | apply steady_bind; [|intros ?]
    | apply steady_ret
    | apply steady_raise
    | apply steady_lift
    | apply steady_gets
    | apply steady_current_location
    | apply steady_print
    | apply steady_set_fs
    | match goal with
      | |- steady (match ?x with _ => _ end) => destruct x
      | |- steady (if ?x then _ else _) => destruct x
      end ].

Section Facts3.
Context {L : Lax}.

Lemma steady_save self : steady (save self).
Proof. unfold save, save_body. repeat steady_step. Qed.

Lemma steady_get_config : steady get_config.
Proof.
  unfold get_config, get_config_body, generate_default, load_section.
  repeat first [apply steady_save | steady_step].
Qed.

Lemma steady_clear_auth : steady clear_auth.
Proof.
  unfold clear_auth.
  repeat first [apply steady_save | apply steady_get_config | steady_step].
Qed.

(** A steady body under [locked], from a lock the process can take. *)
Lemma locked_steady {A} (m : M A) w :
  steady m -> lock_ok w = true ->
  fst (locked m w) <> LockTimeout
  /\ _lock_azul_config (snd (locked m w)) = _lock_azul_config w
  /\ flock_calls (snd (locked m w))
     = (if is_locked (_lock_azul_config w) then flock_calls w
        else S (flock_calls w))
  /\ funlock_calls (snd (locked m w))
     = (if is_locked (_lock_azul_config w) then funlock_calls w
        else S (funlock_calls w))
  /\ fst (locked m w) <> Blocked.
Proof.
  intros Hm Hok. rewrite locked_ok by exact Hok. cbn [fst snd].
  destruct (Hm (acquired w)) as (H1 & H2 & H3 & H4 & H5 & H6);
    [reflexivity|cbn; lia|].
  split; [exact H5|].
  assert (G : forall P Q R S : Prop, S -> P /\ Q /\ R -> P /\ Q /\ R /\ S)
    by tauto.
  apply G; [exact H6|]. clear G.
  unfold release. rewrite H1, H2, H3.
  unfold lock_ok in Hok. unfold acquired. cbn.
  destruct (_lock_azul_config w) as [f t c b]. cbn in *.
  destruct b.
  - destruct c as [|c]; [discriminate|]. cbn. auto.
  - apply andb_prop in Hok as [Hc _]. apply Nat.eqb_eq in Hc as ->. cbn. auto.
Qed.

End Facts3.
End LockFacts.

(** * Facts on records and their items *)

Module RecordFacts.
Import ConfigParser Canon StrFacts DictFacts IniFacts StoreFacts.
Section Facts.
Context {L : Lax} {LL : LaxLaws L}.

Lemma safe_plain v : Ini.safe v = true -> Ini.plain v = true.
Proof. unfold Ini.safe. intros [H _]%andb_prop. exact H. Qed.

Lemma safe_percent v : Ini.safe v = true -> Py.contains "%" v = false.
Proof. unfold Ini.safe. intros [_ H]%andb_prop. apply negb_true_iff, H. Qed.

Lemma storable_parts (c : Config) :
  storable c = true ->
  no_trailing_slash (azul_url c) = azul_url c
  /\ Ini.safe (azul_url c) = true /\ Ini.safe (oidc_url c) = true
  /\ Ini.safe (auth_type c) = true /\ Ini.safe (auth_scopes c) = true
  /\ Ini.safe (auth_client_id c) = true
  /\ Ini.safe (auth_client_secret c) = true
  /\ token_ok (auth_token c) = true.
Proof.
  unfold storable.
  intros [[[[[[[H1 H2]%andb_prop H3]%andb_prop H4]%andb_prop H5]%andb_prop
             H6]%andb_prop H7]%andb_prop H8]%andb_prop.
  apply String.eqb_eq in H1. repeat split; assumption.
Qed.

(** The values of the items of a storable record are safe. *)
Lemma dump_items_safe (c : Config) token :
  storable c = true -> Ini.safe token = true ->
  forallb (fun kv => Ini.safe (snd kv)) (dump_items c token) = true.
Proof.
  intros Hs Ht.
  destruct (storable_parts c Hs) as (_ & H1 & H2 & H3 & H4 & H5 & H6 & _).
  unfold dump_items. cbn [forallb snd].
  rewrite H1, H2, H3, H4, H5, H6, Ht, safe_str_of_bool, safe_str_of_Z,
    !float_str_safe.
  reflexivity.
Qed.

Lemma dump_items_keys (c : Config) token :
  Dict.keys (dump_items c token) = Config_fields.
Proof. reflexivity. Qed.

Lemma dump_items_ok (c : Config) token :
  storable c = true -> Ini.safe token = true ->
  Ini.items_ok (dump_items c token) = true.
Proof.
  intros Hs Ht. pose proof (dump_items_safe c token Hs Ht) as H.
  unfold Ini.items_ok. rewrite dump_items_keys.
  apply andb_true_intro. split; [reflexivity|].
  rewrite forallb_forall in H |- *. intros kv Hin.
  rewrite (safe_plain _ (H kv Hin)), andb_true_r.
  unfold dump_items in Hin. cbn [In] in Hin.
  repeat (destruct Hin as [<-|Hin]; [reflexivity|]). contradiction.
Qed.

Lemma dump_items_accepted (c : Config) token :
  storable c = true -> Ini.safe token = true ->
  forallb (fun kv => accepted (snd kv)) (dump_items c token) = true.
Proof.
  intros Hs Ht. pose proof (dump_items_safe c token Hs Ht) as H.
  rewrite forallb_forall in H |- *. intros kv Hin.
  apply accepted_plain, safe_percent, H, Hin.
Qed.

Lemma dump_items_stored (c : Config) token :
  stored (dump_items c token) [] = dump_items c token.
Proof. reflexivity. Qed.

Lemma dump_items_lower (c : Config) token :
  storable c = true -> Ini.safe token = true ->
  forallb (fun kv => String.eqb (Py.lower (fst kv)) (fst kv)
                     && negb (Py.contains "%" (snd kv)))
          (dump_items c token) = true.
Proof.
  intros Hs Ht. pose proof (dump_items_safe c token Hs Ht) as H.
  rewrite forallb_forall in H |- *. intros kv Hin.
  rewrite (safe_percent _ (H kv Hin)), andb_true_r.
  unfold dump_items in Hin. cbn [In] in Hin.
  repeat (destruct Hin as [<-|Hin]; [reflexivity|]). contradiction.
Qed.

Lemma lax_bool_str b : Pydantic.lax_bool (Py.str_of_bool b) = Some b.
Proof. destruct b; reflexivity. Qed.

(** Building a record from the items of a storable record gives the
    record back. *)
Lemma Config_of_items (c : Config) token env :
  storable c = true -> Json.dumps (auth_token c) = Ok token ->
  exists kwargs,
    decode_token (dump_items c token) = Ok kwargs
    /\ Config_new env kwargs = Ok c.
Proof.
  intros Hs Hd.
  destruct (storable_parts c Hs) as (Hu & _ & _ & _ & _ & _ & _ & Ht).
  destruct (token_text _ Ht) as (j & Hj & Hsafe & Hne & Hl).
  rewrite Hd in Hj. injection Hj as <-.
  exists [ ("azul_url", PStr (azul_url c));
           ("oidc_url", PStr (oidc_url c));
           ("auth_type", PStr (auth_type c));
           ("auth_scopes", PStr (auth_scopes c));
           ("auth_client_id", PStr (auth_client_id c));
           ("auth_client_secret", PStr (auth_client_secret c));
           ("azul_verify_ssl", PStr (Py.str_of_bool (azul_verify_ssl c)));
           ("auth_token", auth_token c);
           ("auth_token_time", PStr (Py.str_of_Z (auth_token_time c)));
           ("max_timeout", PStr (float_str (max_timeout c)));
           ("oidc_timeout", PStr (float_str (oidc_timeout c))) ].
  split.
  - unfold decode_token.
    change (Dict.get "auth_token" (dump_items c token)) with (Some token).
    cbv iota beta. rewrite Hne, Hl. reflexivity.
  - assert (Hv : validate_token (auth_token c) = Ok (auth_token c)).
    { unfold token_ok in Ht. destruct (auth_token c); try discriminate; reflexivity. }
    unfold Config_new, field, field_input.
    cbn -[Py.str_of_Z Py.str_of_bool no_trailing_slash Pydantic.lax_bool
          validate_token].
    rewrite Hv. cbn -[Py.str_of_Z Py.str_of_bool no_trailing_slash Pydantic.lax_bool].
    rewrite lax_bool_str, lax_int_str, !lax_float_str.
    cbn [mbind result_bind rbind]. rewrite Hu. destruct c; reflexivity.
Qed.

End Facts.
End RecordFacts.

(** * The operations of the store as functions of what they read *)

Module OpFacts.
Import LockFacts.
Section Facts.
Context {L : Lax}.

Lemma bind_returns {A B} (m : M A) (k : A -> M B) w a w' :
  m w = (Returns a, w') -> (m ≫= k) w = k a w'.
Proof. intros H. unfold mbind, M_bind, bind. rewrite H. reflexivity. Qed.

Lemma bind_raises {A B} (m : M A) (k : A -> M B) w e w' :
  m w = (Raises e, w') -> (m ≫= k) w = (Raises e, w').
Proof. intros H. unfold mbind, M_bind, bind. rewrite H. reflexivity. Qed.

Lemma current_location_ok w loc :
  location_of w = Ok loc -> current_location w = (Returns loc, w).
Proof.
  unfold location_of, current_location.
  destruct (ConfigLocation_new _ _); cbn; [|discriminate].
  intros [= ->]. reflexivity.
Qed.

(** [save] without the lock. *)
Lemma save_body_eq self w loc :
  location_of w = Ok loc ->
  save_body self w
  = match merged self (fs w !! loc) (config_section w) with
    | Ok cfg' =>
        (Returns tt, set_fs (<[loc := ConfigParser.write cfg']> (fs w)) w)
    | Err e => (Raises e, w)
    end.
Proof.
  intros Hloc. unfold save_body, merged.
  destruct (Json.dumps (auth_token self)) as [token|e] eqn:Ht;
    [|reflexivity].
  erewrite bind_returns by reflexivity.
  erewrite bind_returns by (apply current_location_ok; exact Hloc).
  erewrite bind_returns by reflexivity.
  cbn [mbind result_bind rbind].
  destruct (ConfigParser.read (fs w !! loc)) as [cfg|e] eqn:Hr;
    [|reflexivity].
  erewrite bind_returns by reflexivity.
  erewrite bind_returns by reflexivity.
  cbn [mbind result_bind rbind].
  destruct (ConfigParser.setitem cfg _ _) as [cfg'|e] eqn:Hs;
    [|reflexivity].
  erewrite bind_returns by reflexivity.
  erewrite bind_returns by (apply current_location_ok; exact Hloc).
  reflexivity.
Qed.

(** A [save] that does not return leaves the files alone. *)
Lemma save_body_fs self w :
  fs (snd (save_body self w)) = fs w \/ fst (save_body self w) = Returns tt.
Proof.
  destruct (location_of w) as [loc|e] eqn:Hloc.
  - rewrite (save_body_eq self w loc Hloc).
    destruct (merged _ _ _); [right|left]; reflexivity.
  - left. unfold save_body.
    destruct (Json.dumps (auth_token self)) as [token|e'];
      [|reflexivity].
    erewrite bind_returns by reflexivity.
    unfold location_of in Hloc.
    assert (Hc : current_location w = (Raises e, w)).
    { unfold current_location.
      destruct (ConfigLocation_new _ _); [discriminate|].
      cbn in Hloc. congruence. }
    erewrite bind_raises by exact Hc. reflexivity.
Qed.

Lemma lock_ok_acquired w : lock_ok (acquired w) = true.
Proof. reflexivity. Qed.

Lemma location_acquired w : location_of (acquired w) = location_of w.
Proof. reflexivity. Qed.

Lemma save_eq self w loc :
  lock_ok w = true -> location_of w = Ok loc ->
  fst (save self w)
  = match merged self (fs w !! loc) (config_section w) with
    | Ok _ => Returns tt
    | Err e => Raises e
    end
  /\ fs (snd (save self w))
     = match merged self (fs w !! loc) (config_section w) with
       | Ok cfg' => <[loc := ConfigParser.write cfg']> (fs w)
       | Err _ => fs w
       end.
Proof.
  intros Hok Hloc. unfold save. rewrite locked_ok by exact Hok.
  cbn [fst snd]. rewrite fs_release.
  rewrite (save_body_eq self (acquired w) loc) by exact Hloc.
  change (fs (acquired w)) with (fs w).
  change (config_section (acquired w)) with (config_section w).
  destruct (merged _ _ _); split; reflexivity.
Qed.

(** The world after a locked operation can take the lock again, and
    resolves the same location. *)
Lemma lock_ok_after {A} (m : M A) w :
  steady m -> keeps globals (locked m) -> lock_ok w = true ->
  lock_ok (snd (locked m w)) = true.
Proof.
  intros Hs Hk Hok.
  destruct (locked_steady m w Hs Hok) as (_ & Hl & _).
  specialize (Hk w). unfold lock_ok in *. rewrite Hl.
  unfold globals in Hk. injection Hk as _ _ _ _ -> _ _. exact Hok.
Qed.

Lemma lock_ok_save self w :
  lock_ok w = true -> lock_ok (snd (save self w)) = true.
Proof.
  apply (lock_ok_after (save_body self)).
  - unfold save_body. repeat steady_step.
  - apply globals_save.
Qed.

Lemma lock_ok_get_config w :
  lock_ok w = true -> lock_ok (snd (get_config w)) = true.
Proof.
  apply (lock_ok_after get_config_body).
  - unfold get_config_body, generate_default, load_section.
    repeat first [apply steady_save | steady_step].
  - apply globals_get_config.
Qed.

(** [get_config] from the notice on, on a file that is there. *)
Lemma load_section_eq w loc text :
  fs w !! loc = Some text ->
  fst (load_section loc w) = read_config text (config_section w) (environ w)
  /\ fs (snd (load_section loc w)) = fs w
  /\ globals (snd (load_section loc w)) = globals w
  /\ _lock_azul_config (snd (load_section loc w)) = _lock_azul_config w.
Proof.
  intros Hf. unfold load_section, read_config.
  erewrite bind_returns by reflexivity.
  erewrite bind_returns by reflexivity.
  erewrite bind_returns by reflexivity.
  cbn [fs set_stderr]. rewrite Hf. cbn [ConfigParser.read].
  destruct (ConfigParser.read_string text) as [tmp|e];
    [|repeat split; reflexivity].
  erewrite bind_returns by reflexivity.
  cbn [config_section set_stderr].
  destruct (ConfigParser.getitem_dict tmp (config_section w)) as [conf|e].
  - erewrite bind_returns by reflexivity.
    destruct (decode_token conf) as [kwargs|e];
      [|repeat split; reflexivity].
    erewrite bind_returns by reflexivity.
    erewrite bind_returns by reflexivity.
    cbn [environ set_stderr].
    destruct (Config_new (environ w) kwargs) as [c|e];
      repeat split; reflexivity.
  - destruct e; try (repeat split; reflexivity).
    destruct (String.eqb (config_section w) "default");
      [|repeat split; reflexivity].
    erewrite bind_returns by reflexivity.
    destruct (decode_token []) as [kwargs|e];
      [|repeat split; reflexivity].
    erewrite bind_returns by reflexivity.
    erewrite bind_returns by reflexivity.
    cbn [environ set_stderr].
    destruct (Config_new (environ w) kwargs) as [c|e];
      repeat split; reflexivity.
Qed.

(** What a [get_config] that returns has printed. *)
Lemma load_section_stderr w loc text tmp conf c :
  fs w !! loc = Some text ->
  ConfigParser.read_string text = Ok tmp ->
  ConfigParser.getitem_dict tmp (config_section w) = Ok conf ->
  fst (load_section loc w) = Returns c ->
  stderr (snd (load_section loc w))
  = stderr w
    ++ ["Loading config [" +:+ config_section w +:+ "] from " +:+ loc;
        "using Azul API at " +:+ azul_url c
          +:+ String ConfigParser.NL EmptyString].
Proof.
  intros Hf Hr Hg. unfold load_section.
  erewrite bind_returns by reflexivity.
  erewrite bind_returns by reflexivity.
  erewrite bind_returns by reflexivity.
  cbn [fs set_stderr]. rewrite Hf. cbn [ConfigParser.read]. rewrite Hr.
  erewrite bind_returns by reflexivity.
  cbn [config_section set_stderr]. rewrite Hg.
  erewrite bind_returns by reflexivity.
  destruct (decode_token conf) as [kwargs|e]; [|discriminate].
  erewrite bind_returns by reflexivity.
  erewrite bind_returns by reflexivity.
  cbn [environ set_stderr].
  destruct (Config_new (environ w) kwargs) as [c'|e]; [|discriminate].
  intros H. assert (c' = c).
  { unfold mbind, M_bind, bind, lift, print, modify, ret in H.
    cbn [fst] in H. congruence. }
  subst c'. clear H.
  unfold mbind, M_bind, bind, lift, print, modify, ret.
  cbn [fst snd stderr set_stderr]. rewrite <- List.app_assoc. reflexivity.
Qed.

(** [get_config] without the lock, on a file that is there. *)
Lemma get_config_body_eq w loc text :
  location_of w = Ok loc -> fs w !! loc = Some text ->
  fst (get_config_body w) = read_config text (config_section w) (environ w)
  /\ fs (snd (get_config_body w)) = fs w.
Proof.
  intros Hloc Hf. unfold get_config_body.
  erewrite bind_returns by (apply current_location_ok; exact Hloc).
  erewrite bind_returns by reflexivity.
  rewrite Hf.
  erewrite bind_returns by reflexivity.
  destruct (load_section_eq w loc text Hf) as (H1 & H2 & _). auto.
Qed.

(** [get_config] without the lock, on a file that is not there: the file
    is made from the record [Config()] gives, and read back. *)
Lemma get_config_body_new w loc c0 cfg0 :
  is_locked (_lock_azul_config w) = true ->
  (0 < lock_counter (_lock_azul_config w))%nat ->
  location_of w = Ok loc -> fs w !! loc = None ->
  Config_new (environ w) [] = Ok c0 ->
  merged c0 None (config_section w) = Ok cfg0 ->
  fst (get_config_body w)
  = read_config (ConfigParser.write cfg0) (config_section w) (environ w)
  /\ fs (snd (get_config_body w))
     = <[loc := ConfigParser.write cfg0]> (fs w).
Proof.
  intros Hl Hc Hloc Hf Hc0 Hm. unfold get_config_body.
  erewrite bind_returns by (apply current_location_ok; exact Hloc).
  erewrite bind_returns by reflexivity.
  rewrite Hf. unfold generate_default.
  pose (w1 := set_stderr
                 (stderr w
                  ++ ["ERROR - no config found - generating default at "
                        +:+ loc]) w).
  pose (w2 := set_stderr
                 (stderr w1 ++ ["You will likely need to edit this config."])
                 w1).
  assert (Hok : lock_ok w2 = true).
  { unfold lock_ok. cbn. rewrite Hl.
    destruct (lock_counter (_lock_azul_config w)); [lia|reflexivity]. }
  destruct (save_eq c0 w2 loc Hok Hloc) as [Hs1 Hs2].
  change (fs w2 !! loc) with (fs w !! loc) in Hs1, Hs2.
  change (config_section w2) with (config_section w) in Hs1, Hs2.
  change (fs w2) with (fs w) in Hs2.
  rewrite Hf, Hm in Hs1, Hs2.
  assert (Hg : globals (snd (save c0 w2)) = globals w)
    by (rewrite globals_save; reflexivity).
  destruct (save c0 w2) as [r w3] eqn:Hsave. cbn [fst snd] in *. subst r.
  assert (Hgen :
    (_ ← print ("ERROR - no config found - generating default at " +:+ loc);
     _ ← print "You will likely need to edit this config.";
     env ← gets environ;
     conf ← lift (Config_new env []);
     save conf) w = (Returns tt, w3)).
  { erewrite bind_returns by reflexivity.
    erewrite bind_returns by reflexivity.
    erewrite bind_returns by reflexivity.
    cbn [environ set_stderr]. rewrite Hc0.
    erewrite bind_returns by reflexivity. exact Hsave. }
  erewrite bind_returns by exact Hgen.
  assert (Hf3 : fs w3 !! loc = Some (ConfigParser.write cfg0))
    by (rewrite Hs2; apply lookup_insert_eq).
  destruct (load_section_eq w3 loc _ Hf3) as (H1 & H2 & _).
  rewrite H1, H2.
  rewrite <- (globals_section _ _ Hg), <- (globals_environ _ _ Hg).
  auto.
Qed.

Lemma get_config_eq w loc text :
  lock_ok w = true -> location_of w = Ok loc -> fs w !! loc = Some text ->
  fst (get_config w) = read_config text (config_section w) (environ w)
  /\ fs (snd (get_config w)) = fs w.
Proof.
  intros Hok Hloc Hf. unfold get_config. rewrite locked_ok by exact Hok.
  cbn [fst snd]. rewrite fs_release.
  exact (get_config_body_eq (acquired w) loc text Hloc Hf).
Qed.

End Facts.
End OpFacts.

(** * The instance with whole seconds obeys the laws *)

Module WholeSecondsFacts.
Import WholeSeconds StrFacts.

Lemma chop_cons c s p :
  chop_point_zero s = Some p -> (1 < String.length s)%nat ->
  chop_point_zero (String c s) = Some (String c p).
Proof.
  intros H Hlen. destruct s as [|b [|b' s]]; cbn in Hlen; try lia.
  cbn [chop_point_zero] in *.
  destruct c as [[] [] [] [] [] [] [] []]; try (rewrite H; reflexivity).
  destruct b as [[] [] [] [] [] [] [] []]; rewrite H; reflexivity.
Qed.

Lemma chop_app s : chop_point_zero (s +:+ ".0") = Some s.
Proof.
  induction s as [|c s IH]; [reflexivity|].
  change (String c s +:+ ".0") with (String c (s +:+ ".0")).
  apply chop_cons; [exact IH|]. rewrite slength_app. cbn. lia.
Qed.

Lemma int_of_str_str z : int_of_str (Py.str_of_Z z) = Some z.
Proof.
  unfold int_of_str. rewrite JsonFacts.int_of_string_str, DecimalZ.of_to.
  reflexivity.
Qed.

#[global] Instance laws : LaxLaws lax.
Proof.
  split.
  - intros x. cbn. unfold float_of_str. rewrite chop_app.
    apply int_of_str_str.
  - intros x. cbn. apply StoreFacts.solid_safe.
    + rewrite all_chars_app, JsonFacts.str_of_Z_text. reflexivity.
    + rewrite all_chars_app, StoreFacts.str_of_Z_solid. reflexivity.
  - intros z. apply int_of_str_str.
Qed.

End WholeSecondsFacts.

(** * What [save] writes is what [get_config] reads *)

Module RoundFacts.
Import ConfigParser DictFacts IniFacts StoreFacts RecordFacts.
Section Facts.
Context {L : Lax} {LL : LaxLaws L}.

Lemma name_ok_nonempty n : Ini.name_ok n = true -> Py.is_empty n = false.
Proof.
  unfold Ini.name_ok. intros [[H _]%andb_prop _]%andb_prop.
  apply negb_true_iff, H.
Qed.

(** The parser state [save] writes for a record the file format carries. *)
Lemma merged_storable (r : Config) file section cfg :
  ConfigParser.read file = Ok cfg ->
  Ini.wf cfg = true ->
  Ini.name_ok section = true ->
  String.eqb section default_section = false ->
  storable r = true ->
  exists token,
    Json.dumps (auth_token r) = Ok token
    /\ merged r file section
       = Ok (mk (defaults cfg)
               (Dict.set section (dump_items r token) (sections cfg)))
    /\ Ini.wf (mk (defaults cfg)
                 (Dict.set section (dump_items r token) (sections cfg)))
       = true.
Proof.
  intros Hr Hwf Hn Hd Hs.
  destruct (storable_parts r Hs) as (_ & _ & _ & _ & _ & _ & _ & Ht).
  destruct (token_text _ Ht) as (token & Hj & Hsafe & _ & _).
  exists token. split; [exact Hj|]. split.
  - unfold merged. rewrite Hj, Hr. cbn [mbind result_bind rbind].
    rewrite setitem_section by (auto using name_ok_nonempty).
    rewrite dump_items_accepted by assumption.
    rewrite dump_items_stored. reflexivity.
  - apply wf_set; auto using dump_items_ok.
Qed.

Lemma defaults_known_mem (cfg : ConfigParser.t) (r : Config) token :
  defaults_known cfg = true ->
  forallb (fun k => Dict.mem k (dump_items r token))
          (Dict.keys (defaults cfg)) = true.
Proof.
  unfold defaults_known. intros H.
  induction (Dict.keys (defaults cfg)) as [|k l IH]; [reflexivity|].
  cbn [forallb] in *. apply andb_prop in H as [H1 H2].
  rewrite mem_existsb, dump_items_keys, H1. exact (IH H2).
Qed.

(** Reading the section [save] wrote gives the record back. *)
Lemma read_config_written (r : Config) section cfg token env :
  Ini.wf (mk (defaults cfg)
             (Dict.set section (dump_items r token) (sections cfg))) = true ->
  Ini.name_ok section = true ->
  String.eqb section default_section = false ->
  defaults_known cfg = true ->
  storable r = true ->
  Json.dumps (auth_token r) = Ok token ->
  read_config
    (write (mk (defaults cfg)
               (Dict.set section (dump_items r token) (sections cfg))))
    section env
  = Returns r.
Proof.
  intros Hwf Hn Hd Hk Hs Hj.
  destruct (storable_parts r Hs) as (_ & _ & _ & _ & _ & _ & _ & Ht).
  destruct (token_text _ Ht) as (token' & Hj' & Hsafe & _ & _).
  assert (token' = token) by congruence. subst token'.
  unfold read_config. rewrite read_write by exact Hwf.
  rewrite (getitem_dict_items _ section (dump_items r token)).
  - destruct (Config_of_items r token env Hs Hj) as (kwargs & Hdec & Hnew).
    rewrite Hdec, Hnew. reflexivity.
  - apply name_ok_nonempty, Hn.
  - exact Hd.
  - apply get_set_same.
  - reflexivity.
  - apply dump_items_lower; assumption.
  - apply defaults_known_mem, Hk.
Qed.

End Facts.
End RoundFacts.

(** * The notices *)

Module NoticeFacts.
Import LockFacts.
Section Facts.
Context {L : Lax}.

Lemma grows_ret {A} (a : A) : grows (mret a).
Proof. intros w. exists []. symmetry. apply app_nil_r. Qed.

Lemma grows_raise {A} e : grows (@raise _ A e).
Proof. intros w. exists []. symmetry. apply app_nil_r. Qed.

Lemma grows_lift {A} (r : result A) : grows (lift r).
Proof. intros w. exists []. destruct r; symmetry; apply app_nil_r. Qed.

Lemma grows_gets {A} (g : World -> A) : grows (gets g).
Proof. intros w. exists []. symmetry. apply app_nil_r. Qed.

Lemma grows_print text : grows (print text).
Proof. intros w. exists [text]. reflexivity. Qed.

Lemma grows_set_fs (g : World -> gmap string string) :
  grows (modify (fun w => set_fs (g w) w)).
Proof. intros w. exists []. symmetry. apply app_nil_r. Qed.

Lemma grows_current_location : grows current_location.
Proof.
  intros w. exists []. unfold current_location.
  destruct (ConfigLocation_new _ _); symmetry; apply app_nil_r.
Qed.

Lemma grows_bind {A B} (m : M A) (k : A -> M B) :
  grows m -> (forall a, grows (k a)) -> grows (m ≫= k).
Proof.
  intros Hm Hk w. unfold mbind, M_bind, bind.
  destruct (Hm w) as [r1 H1].
  destruct (m w) as [[a|e| |] w']; cbn [snd] in *; eauto.
  destruct (Hk a w') as [r2 H2]. exists (r1 ++ r2).
  rewrite H2, H1. symmetry. apply app_assoc.
Qed.

Lemma grows_locked {A} (m : M A) : grows m -> grows (locked m).
Proof.
  intros Hm w. unfold locked.
  assert (Ha : stderr (snd (acquire w)) = stderr w).
  { unfold acquire. destruct (is_locked _); [reflexivity|].
    destruct (held_elsewhere w); [destruct (float_elapses _)|]; reflexivity. }
  destruct (acquire w) as [[[]|e| |] w1]; cbn [snd] in *;
    try (exists []; rewrite Ha; symmetry; apply app_nil_r).
  destruct (Hm w1) as [r H]. destruct (m w1) as [o w2]. cbn [snd] in *.
  exists r. rewrite stderr_release, H, Ha. reflexivity.
Qed.

End Facts.

Ltac grows_step :=
  first
    [ apply grows_locked
    | apply grows_bind; [|intros ?]
    | apply grows_ret
    | apply grows_raise
    | apply grows_lift
    | apply grows_gets
    | apply grows_current_location
    | apply grows_print
    | apply grows_set_fs
    | match goal with
      | |- grows (match ?x with _ => _ end) => destruct x
      | |- grows (if ?x then _ else _) => destruct x
      end ].

Section Facts2.
Context {L : Lax}.

Lemma grows_save self : grows (save self).
Proof. unfold save, save_body. repeat grows_step. Qed.

Lemma grows_load_section loc : grows (load_section loc).
Proof. unfold load_section. repeat grows_step. Qed.

(** What [get_config] prints first on a file that is not there. *)
Lemma generate_default_notice w loc :
  location_of w = Ok loc -> fs w !! loc = None ->
  exists rest,
    stderr (snd (get_config_body w))
    = stderr w
      ++ ["ERROR - no config found - generating default at " +:+ loc;
          "You will likely need to edit this config."]
      ++ rest.
Proof.
  intros Hloc Hf.
  assert (H : grows (
    env ← gets environ;
    conf ← lift (Config_new env []);
    _ ← save conf;
    load_section loc)).
  { repeat first [apply grows_save | apply grows_load_section | grows_step]. }
  pose (w1 := set_stderr
                 (stderr w
                  ++ ["ERROR - no config found - generating default at "
                        +:+ loc]) w).
  pose (w2 := set_stderr
                 (stderr w1 ++ ["You will likely need to edit this config."])
                 w1).
  destruct (H w2) as [rest Hrest]. exists rest.
  transitivity (stderr w2 ++ rest).
  - rewrite <- Hrest. unfold get_config_body.
    erewrite OpFacts.bind_returns
      by (apply OpFacts.current_location_ok; exact Hloc).
    erewrite OpFacts.bind_returns by reflexivity.
    rewrite Hf. unfold generate_default.
    unfold mbind, M_bind, bind, print, modify, gets. fold w1. fold w2.
    cbn [fst snd].
    destruct (lift (Config_new (environ w2) []) w2) as [[c|e| |] w3];
      try reflexivity.
  - cbn [w2 w1 stderr set_stderr]. rewrite <- !app_assoc. reflexivity.
Qed.

End Facts2.
End NoticeFacts.

(** * Records from [Config] *)

Module NewFacts.
Import DictFacts.
Section Facts.
Context {L : Lax}.

Lemma rstrip_char_idem c s :
  Py.rstrip_char c (Py.rstrip_char c s) = Py.rstrip_char c s.
Proof.
  induction s as [|d s IH]; [reflexivity|].
  cbn [Py.rstrip_char].
  destruct (Ascii.eqb d c && Py.is_empty (Py.rstrip_char c s)) eqn:E;
    [reflexivity|].
  cbn [Py.rstrip_char]. rewrite IH, E. reflexivity.
Qed.

(** A record from [Config] has its base URL without trailing slash. *)
Lemma Config_new_url env kwargs c :
  Config_new env kwargs = Ok c ->
  no_trailing_slash (azul_url c) = azul_url c.
Proof.
  unfold Config_new. destruct (negb _); [discriminate|].
  repeat (match goal with
          | |- (mbind _ ?x) = _ -> _ =>
              destruct x; cbn [mbind result_bind rbind]; [|discriminate]
          end).
  intros [= <-]. apply rstrip_char_idem.
Qed.

Lemma mem_false_get {V} k (d : Dict.t V) :
  Dict.mem k d = false -> Dict.get k d = None.
Proof. unfold Dict.mem. destruct (Dict.get k d); [discriminate|reflexivity]. Qed.

(** [Config()] in an environment that names no field. *)
Lemma Config_new_defaults env :
  no_settings_env env = true -> Config_new env [] = Ok Config_defaults.
Proof.
  unfold no_settings_env. cbn [forallb Config_fields].
  intros H. repeat (apply andb_prop in H as [?%negb_true_iff%mem_false_get H]).
  unfold Config_new, field, field_input.
  cbn -[Pydantic.env_vars]. repeat match goal with
  | E : Dict.get _ _ = None |- _ => rewrite E; clear E
  end. reflexivity.
Qed.

End Facts.
End NewFacts.

(** * What a [save] that returns has written *)

Module SaveFacts.
Import ConfigParser DictFacts IniFacts StrFacts LockFacts OpFacts RecordFacts.
Section Facts.
Context {L : Lax}.

Lemma merged_inv (r : Config) file section cfg' :
  merged r file section = Ok cfg' ->
  Py.is_empty section = false ->
  exists token cfg,
    Json.dumps (auth_token r) = Ok token
    /\ ConfigParser.read file = Ok cfg
    /\ cfg' = (if String.eqb section default_section
               then mk (dump_items r token) (sections cfg)
               else mk (defaults cfg)
                      (Dict.set section (dump_items r token) (sections cfg))).
Proof.
  unfold merged. intros H Hne.
  destruct (Json.dumps (auth_token r)) as [token|e]; [|discriminate].
  destruct (ConfigParser.read file) as [cfg|e]; [|discriminate].
  cbn [mbind result_bind rbind] in H.
  exists token, cfg. split; [reflexivity|]. split; [reflexivity|].
  destruct (String.eqb section default_section) eqn:E.
  - apply String.eqb_eq in E. subst section.
    rewrite setitem_default in H.
    destruct (forallb _ _); [|discriminate].
    rewrite dump_items_stored in H. injection H as <-. reflexivity.
  - rewrite setitem_section in H by assumption.
    destruct (forallb _ _); [|discriminate].
    rewrite dump_items_stored in H. injection H as <-. reflexivity.
Qed.

Lemma In_set_other {V} (n k : string) (v x : V) d :
  n <> k -> In (n, v) d -> In (n, v) (Dict.set k x d).
Proof.
  intros Hne. induction d as [|[k' v'] d IH]; [intros H; contradiction H|].
  cbn [Dict.set]. destruct (String.eqb k k') eqn:E; cbn [In].
  - apply String.eqb_eq in E. subst k'.
    intros [H|H]; [injection H as <- _; contradiction|right; exact H].
  - intros [H|H]; [left; exact H|right; exact (IH H)].
Qed.

Lemma write_in cfg n items :
  In (n, items) (sections cfg) ->
  exists before after,
    write cfg = before +:+ write_section n items +:+ after.
Proof.
  intros H. apply in_split in H as (l1 & l2 & E). unfold write. rewrite E.
  rewrite map_app, concat_app. cbn [map]. rewrite concat_cons.
  eexists _, _. rewrite sapp_assoc. reflexivity.
Qed.

(** The sections of the file after a [save] that returns, under an active
    section with a name. *)
Lemma save_sections (w : World) (r : Config) loc cfg :
  lock_ok w = true ->
  location_of w = Ok loc ->
  ConfigParser.read (fs w !! loc) = Ok cfg ->
  Py.is_empty (config_section w) = false ->
  fst (save r w) = Returns tt ->
  exists token cfg',
    Json.dumps (auth_token r) = Ok token
    /\ fs (snd (save r w)) = <[loc := write cfg']> (fs w)
    /\ section_items cfg' (config_section w) = Some (dump_items r token)
    /\ (forall other, other <> config_section w ->
        section_items cfg' other = section_items cfg other)
    /\ (forall other items,
        other <> config_section w -> In (other, items) (sections cfg) ->
        In (other, items) (sections cfg')).
Proof.
  intros Hok Hloc Hr Hne Hret.
  destruct (save_eq r w loc Hok Hloc) as [H1 H2].
  rewrite H1 in Hret.
  destruct (merged r (fs w !! loc) (config_section w)) as [cfg'|e] eqn:Hm;
    [|discriminate].
  destruct (merged_inv _ _ _ _ Hm Hne) as (token & cfg0 & Hj & Hr0 & ->).
  assert (cfg0 = cfg) by congruence. subst cfg0.
  eexists token, _. split; [exact Hj|]. split; [exact H2|].
  unfold section_items.
  destruct (String.eqb (config_section w) default_section) eqn:E.
  - apply String.eqb_eq in E. split; [reflexivity|]. split.
    + intros other Ho. rewrite E in Ho.
      apply String.eqb_neq in Ho. rewrite Ho. reflexivity.
    + intros other items _ Hin. exact Hin.
  - split; [apply get_set_same|]. split.
    + intros other Ho. destruct (String.eqb other default_section);
        [reflexivity|]. apply get_set_other. congruence.
    + intros other items Ho Hin. cbn [sections].
      apply In_set_other; assumption.
Qed.

End Facts.
End SaveFacts.

(** * Failures of [save] and [get_config] *)

Section Failures.
Context {L : Lax}.
Import LockFacts OpFacts.

(** C10. A record whose token [json.dumps] refuses is not saved: [save]
    does not return, it raises the [TypeError] of [json.dumps] whenever
    the lock can be taken, and every file is as it was, since the token is
    encoded before the file is read or opened. *)
Theorem save_unserializable (w : World) (self : Config) :
  Json.dumps (auth_token self) = Err TypeError ->
  fs (snd (save self w)) = fs w
  /\ fst (save self w) <> Returns tt
  /\ (lock_ok w = true -> fst (save self w) = Raises TypeError).
Proof.
  intros Hd.
  assert (Hb : forall u, save_body self u = (Raises TypeError, u)).
  { intros u. unfold save_body. rewrite Hd. reflexivity. }
  assert (Hfs : fs (snd (acquire w)) = fs w).
  { unfold acquire. destruct (is_locked _); [reflexivity|].
    destruct (held_elsewhere w); [destruct (float_elapses _)|]; reflexivity. }
  unfold save, locked.
  destruct (acquire w) as [[[]|e| |] w1] eqn:Ha; rewrite ?Hb;
    cbn [fst snd] in *.
  - split; [rewrite fs_release; exact Hfs|split; [discriminate|reflexivity]].
  - split; [exact Hfs|split; [discriminate|]].
    intros Hok. rewrite (acquire_ok w Hok) in Ha. discriminate.
  - split; [exact Hfs|split; [discriminate|]].
    intros Hok. rewrite (acquire_ok w Hok) in Ha. discriminate.
  - split; [exact Hfs|split; [discriminate|]].
    intros Hok. rewrite (acquire_ok w Hok) in Ha. discriminate.
Qed.

(** C6. On a file that is there and parses, read from a lock the
    process can take, with [conf] the values of the active section:
    when the token text is not empty and [json.loads] refuses it,
    [get_config] raises that [JSONDecodeError] and leaves every file as
    it was, so that no default takes the place of the token; when the
    text is not empty and decodes, the decoded value is what [Config]
    gets as token; and when the entry is missing or empty nothing is
    decoded: the values go to [Config] as the strings they are, whatever
    [json.loads] would make of them. *)
Theorem load_malformed_token (w : World) (loc text : string)
    (tmp : ConfigParser.t) (conf : Dict.t string) :
  lock_ok w = true ->
  location_of w = Ok loc ->
  fs w !! loc = Some text ->
  ConfigParser.read_string text = Ok tmp ->
  ConfigParser.getitem_dict tmp (config_section w) = Ok conf ->
  let strings := map (fun kv => (fst kv, PStr (snd kv))) conf in
  let made (r : result Config) :=
    match r with Ok c => Returns c | Err e => Raises e end in
  (forall v,
     Dict.get "auth_token" conf = Some v ->
     Py.is_empty v = false ->
     Json.loads v = Err JSONDecodeError ->
     fst (get_config w) = Raises JSONDecodeError
     /\ fs (snd (get_config w)) = fs w)
  /\ (forall v x,
        Dict.get "auth_token" conf = Some v ->
        Py.is_empty v = false ->
        Json.loads v = Ok x ->
        fst (get_config w)
        = made (Config_new (environ w) (Dict.set "auth_token" x strings)))
  /\ (Dict.get "auth_token" conf = None
      \/ Dict.get "auth_token" conf = Some EmptyString ->
      fst (get_config w) = made (Config_new (environ w) strings)).
Proof.
  intros Hok Hloc Hf Hr Hg strings made.
  destruct (get_config_eq w loc text Hok Hloc Hf) as [H1 H2].
  rewrite H1. unfold read_config. rewrite Hr, Hg. unfold decode_token.
  fold strings. split; [|split].
  - intros v Hv Hne Hj. rewrite Hv, Hne, Hj. split; [reflexivity|exact H2].
  - intros v x Hv Hne Hj. rewrite Hv, Hne, Hj. reflexivity.
  - intros [H|H]; rewrite H; reflexivity.
Qed.

(** C2, amended. On a file that is there and has no section of the
    active name, the reserved name [DEFAULT] apart: every file is as it
    was; under the name [default], [get_config] returns what [Config()]
    gives, which is the record of the compiled-in defaults when no
    environment variable names a field; under any other name it raises
    the invalid-section error. *)
Theorem load_missing_section (w : World) (loc text : string)
    (tmp : ConfigParser.t) :
  lock_ok w = true ->
  location_of w = Ok loc ->
  fs w !! loc = Some text ->
  ConfigParser.read_string text = Ok tmp ->
  ConfigParser.has_section tmp (config_section w) = false ->
  String.eqb (config_section w) ConfigParser.default_section = false ->
  fs (snd (get_config w)) = fs w
  /\ (config_section w = "default" ->
      fst (get_config w)
      = match Config_new (environ w) [] with
        | Ok c => Returns c
        | Err e => Raises e
        end
      /\ (no_settings_env (environ w) = true ->
          fst (get_config w) = Returns Config_defaults))
  /\ (config_section w <> "default" ->
      fst (get_config w) = Raises InvalidSection).
Proof.
  intros Hok Hloc Hf Hr Hs Hd.
  destruct (get_config_eq w loc text Hok Hloc Hf) as [H1 H2].
  split; [exact H2|].
  assert (Hg : ConfigParser.getitem_dict tmp (config_section w)
               = Err KeyError).
  { unfold ConfigParser.getitem_dict. rewrite Hd, Hs. reflexivity. }
  rewrite H1. unfold read_config. rewrite Hr, Hg. split.
  - intros E. rewrite E. cbn [String.eqb Ascii.eqb Bool.eqb decode_token].
    change (String.eqb "default" "default") with true. cbv iota.
    change (decode_token []) with (Ok (@nil (string * pyval))).
    cbv iota. split; [reflexivity|].
    intros Hn. rewrite (NewFacts.Config_new_defaults _ Hn). reflexivity.
  - intros Hne. destruct (String.eqb _ "default") eqn:E; [|reflexivity].
    apply String.eqb_eq in E. contradiction.
Qed.

(** The lock, the module-level [ConfigLocation] and the environment stay
    as they are through every call. *)
Lemma places_run (cs : list call) (w : World) :
  places (run_calls cs w) = places w.
Proof.
  revert w. induction cs as [|c cs IH]; intros w; [reflexivity|].
  cbn [run_calls fold_left]. change (fold_left _ cs ?x) with (run_calls cs x).
  rewrite IH. destruct c as [s|self| |]; cbn [run_call].
  - reflexivity.
  - apply globals_places, globals_save.
  - apply globals_places, globals_get_config.
  - apply globals_places, globals_clear_auth.
Qed.

Lemma places_location w w' :
  places w = places w' -> location_of w = location_of w'.
Proof. unfold places, location_of. intros [= -> -> _ _ _]. reflexivity. Qed.

(** C7, amended. The module-level [ConfigLocation], and with it the file
    and the timeout of the lock, are fixed when the module is imported and
    no call changes them. The path of the config file is not taken from
    there: each call evaluates [ConfigLocation()] again, which gives the
    path of the import for as long as the environment is the one of the
    import, and no call changes the environment. *)
Theorem location_fixed (ini lck : string) (files : gmap string string)
    (env : list (string * string)) (elsewhere : bool) (w0 : World)
    (cs : list call) :
  import_module ini lck files env elsewhere = Ok w0 ->
  config_location (run_calls cs w0) = config_location w0
  /\ lock_file (_lock_azul_config (run_calls cs w0))
     = token_refresh_path_lock (config_location w0)
  /\ lock_timeout (_lock_azul_config (run_calls cs w0))
     = token_lock_timeout (config_location w0)
  /\ environ (run_calls cs w0) = env
  /\ location_of (run_calls cs w0)
     = Ok (azul_config_location (config_location w0)).
Proof.
  intros Hi. pose proof (places_run cs w0) as Hp.
  rewrite (places_location _ _ Hp).
  unfold places in Hp. injection Hp as -> _ -> -> ->.
  unfold import_module in Hi.
  destruct (ConfigLocation_new _ env) as [cl|e] eqn:Hcl; [|discriminate].
  cbn in Hi. injection Hi as <-. cbn.
  unfold location_of. cbn. rewrite Hcl. auto.
Qed.

End Failures.

(** C10: a token that holds an object [json] cannot encode. *)
Lemma save_unserializable_witness :
  Json.dumps (auth_token Demo.with_object) = Err TypeError
  /\ fs (snd (save Demo.with_object
                (Demo.fresh {[ Demo.home_ini := Demo.by_hand ]} [])))
     = {[ Demo.home_ini := Demo.by_hand ]}
  /\ fst (save Demo.with_object
            (Demo.fresh {[ Demo.home_ini := Demo.by_hand ]} []))
     = Raises TypeError.
Proof.
  pose proof (save_unserializable
                (Demo.fresh {[ Demo.home_ini := Demo.by_hand ]} [])
                Demo.with_object) as H.
  specialize (H eq_refl). destruct H as (H1 & _ & H3).
  split; [reflexivity|]. split; [exact H1|]. apply H3. reflexivity.
Defined.

(** C6: the default profile stores a token text that is cut off after
    its first character; and a profile without token entry, where
    nothing is decoded and the defaults of [Config] apply. *)
Lemma load_malformed_token_witness :
  Json.loads "[" = Err JSONDecodeError
  /\ fst (get_config (Demo.fresh {[ Demo.home_ini := Demo.broken_token ]} []))
     = Raises JSONDecodeError
  /\ fs (snd (get_config
                (Demo.fresh {[ Demo.home_ini := Demo.broken_token ]} [])))
     = {[ Demo.home_ini := Demo.broken_token ]}
  /\ fst (get_config (Demo.fresh {[ Demo.home_ini := Demo.no_token ]} []))
     = Returns Demo.defaults.
Proof.
  split; [reflexivity|].
  assert (H : fst (get_config
                     (Demo.fresh {[ Demo.home_ini := Demo.broken_token ]} []))
              = Raises JSONDecodeError
              /\ fs (snd (get_config
                            (Demo.fresh
                               {[ Demo.home_ini := Demo.broken_token ]} [])))
                 = fs (Demo.fresh {[ Demo.home_ini := Demo.broken_token ]} [])).
  { refine (proj1 (load_malformed_token
                     (Demo.fresh {[ Demo.home_ini := Demo.broken_token ]} [])
                     Demo.home_ini Demo.broken_token
                     (ConfigParser.mk []
                        [("default", [("auth_token", "[");
                                      ("auth_token_time", "5")])])
                     [("auth_token", "["); ("auth_token_time", "5")]
                     _ _ _ _ _) "[" _ _ _); vm_compute; reflexivity. }
  destruct H as [H1 H2]. split; [exact H1|]. split; [exact H2|].
  refine (eq_trans
            (proj2 (proj2 (load_malformed_token
               (Demo.fresh {[ Demo.home_ini := Demo.no_token ]} [])
               Demo.home_ini Demo.no_token
               (ConfigParser.mk []
                  [("default", [("auth_scopes", EmptyString)])])
               [("auth_scopes", EmptyString)] _ _ _ _ _))
               (or_introl _)) _); vm_compute; reflexivity.
Defined.

(** C2: a file with the section [b] only, read under [default] and under
    [production]. *)
Lemma load_missing_section_witness :
  fst (get_config (Demo.fresh {[ Demo.home_ini := Demo.by_hand ]} []))
  = Returns Config_defaults
  /\ fst (get_config
            (snd (switch_section "production"
                    (Demo.fresh {[ Demo.home_ini := Demo.by_hand ]} []))))
     = Raises InvalidSection.
Proof.
  split.
  - refine (proj2 (proj1 (proj2 (load_missing_section
               (Demo.fresh {[ Demo.home_ini := Demo.by_hand ]} [])
               Demo.home_ini Demo.by_hand
               (ConfigParser.mk [] [("b", [("k", "v")])]) _ _ _ _ _ _))
               eq_refl) _); vm_compute; reflexivity.
  - refine (proj2 (proj2 (load_missing_section
               (snd (switch_section "production"
                       (Demo.fresh {[ Demo.home_ini := Demo.by_hand ]} [])))
               Demo.home_ini Demo.by_hand
               (ConfigParser.mk [] [("b", [("k", "v")])]) _ _ _ _ _ _))
               _); vm_compute; try reflexivity. discriminate.
Defined.

(** C2: the reserved name [DEFAULT] names no section of the file, and
    [get_config] returns a record under it. *)
Lemma load_reserved_section :
  ConfigParser.read_string Demo.by_hand
  = Ok (ConfigParser.mk [] [("b", [("k", "v")])])
  /\ ConfigParser.has_section (ConfigParser.mk [] [("b", [("k", "v")])])
       "DEFAULT" = false
  /\ fst (get_config
            (snd (switch_section "DEFAULT"
                    (Demo.fresh {[ Demo.home_ini := Demo.by_hand ]} []))))
     = Returns Demo.defaults.
Proof. vm_compute. auto. Qed.

(** C7: a process that starts without variables and calls the store. *)
Lemma location_fixed_witness :
  location_of
    (run_calls [CallLoad; CallSwitch "staging"; CallSave Demo.signed_in;
                CallClearAuth]
       (Demo.fresh ∅ []))
  = Ok Demo.home_ini.
Proof.
  refine (proj2 (proj2 (proj2 (proj2 (location_fixed
            Demo.home_ini Demo.tmp_lock ∅ [] false (Demo.fresh ∅ [])
            [CallLoad; CallSwitch "staging"; CallSave Demo.signed_in;
             CallClearAuth] _))))).
  reflexivity.
Defined.

(** C7: the code around the store sets the variable after the import;
    the next [get_config] looks for the file elsewhere, and makes it
    there. *)
Lemma location_follows_environment :
  import_module Demo.home_ini Demo.tmp_lock ∅ [] false = Ok (Demo.fresh ∅ [])
  /\ azul_config_location (config_location (Demo.fresh ∅ []))
     = Demo.home_ini
  /\ location_of
       (snd (putenv "AZUL_CONFIG_LOCATION" Demo.other_ini (Demo.fresh ∅ [])))
     = Ok Demo.other_ini
  /\ fs (snd (get_config
               (snd (putenv "AZUL_CONFIG_LOCATION" Demo.other_ini
                       (Demo.fresh ∅ []))))) !! Demo.home_ini
     = None
  /\ is_Some
       (fs (snd (get_config
                   (snd (putenv "AZUL_CONFIG_LOCATION" Demo.other_ini
                           (Demo.fresh ∅ []))))) !! Demo.other_ini).
Proof. vm_compute. repeat split; eauto. Qed.

(** * The lock *)

Section Lock.
Context {L : Lax}.
Import LockFacts OpFacts.

Lemma release_acquire (w : World) :
  is_locked (_lock_azul_config w) = true ->
  (0 < lock_counter (_lock_azul_config w))%nat ->
  release (snd (acquire w)) = w.
Proof.
  intros Hl Hc. unfold acquire. rewrite Hl. cbn [snd]. unfold release.
  destruct w as [f h e o c u s d cl [lf lt n b]]. cbn in *. subst b.
  destruct n as [|n]; [lia|]. reflexivity.
Qed.

(** C8. From a lock the process can take, and in particular from inside
    a function that holds it already, [clear_auth] with its nested
    [get_config] and [save] ends neither in the timeout of the lock nor
    in a wait for it, whatever the timeout is; the lock object is
    afterwards as it was, and the lock of the operating system was asked
    for and given up once, or not at all when the process held it. A nested [acquire] in a process
    that holds the lock returns without a call to the operating system,
    even when another process waits, and one [release] undoes it. *)
Theorem clear_auth_reentrant (w : World) :
  lock_ok w = true ->
  fst (clear_auth w) <> LockTimeout
  /\ fst (clear_auth w) <> Blocked
  /\ _lock_azul_config (snd (clear_auth w)) = _lock_azul_config w
  /\ flock_calls (snd (clear_auth w))
     = (if is_locked (_lock_azul_config w) then flock_calls w
        else S (flock_calls w))
  /\ funlock_calls (snd (clear_auth w))
     = (if is_locked (_lock_azul_config w) then funlock_calls w
        else S (funlock_calls w))
  /\ (is_locked (_lock_azul_config w) = true ->
      fst (acquire w) = Returns tt
      /\ flock_calls (snd (acquire w)) = flock_calls w
      /\ release (snd (acquire w)) = w).
Proof.
  intros Hok.
  assert (Hs : steady (conf ← get_config; save (reset_auth conf))).
  { apply steady_bind; [apply steady_get_config|].
    intros conf. apply steady_save. }
  destruct (locked_steady _ w Hs Hok) as (H1 & H2 & H3 & H4 & H5).
  repeat (split; [assumption|]).
  intros Hl. unfold lock_ok in Hok. rewrite Hl in Hok.
  apply Nat.ltb_lt in Hok.
  split; [|split; [|apply release_acquire; assumption]].
  - unfold acquire. rewrite Hl. reflexivity.
  - unfold acquire. rewrite Hl. reflexivity.
Qed.

End Lock.

(** * Sections *)

Section Sections.
Context {L : Lax}.
Import ConfigParser SaveFacts.

(** C4, amended. A [save] that returns, under an active section with a
    name, writes the file anew from what it has just read: the active
    section holds the fields of the record; every other section of the
    file as read, the default section among them, has the options and
    values it had; every other section is in the new text in the form
    [write] gives it, whatever its bytes were; and no other file
    changes. *)
Theorem save_keeps_sections (w : World) (self : Config) (loc : string)
    (cfg : ConfigParser.t) :
  lock_ok w = true ->
  location_of w = Ok loc ->
  ConfigParser.read (fs w !! loc) = Ok cfg ->
  Py.is_empty (config_section w) = false ->
  fst (save self w) = Returns tt ->
  exists token cfg',
    Json.dumps (auth_token self) = Ok token
    /\ fs (snd (save self w)) = <[loc := write cfg']> (fs w)
    /\ section_items cfg' (config_section w) = Some (dump_items self token)
    /\ (forall other, other <> config_section w ->
        section_items cfg' other = section_items cfg other)
    /\ (forall other items,
        other <> config_section w -> In (other, items) (sections cfg) ->
        exists before after,
          write cfg' = before +:+ write_section other items +:+ after).
Proof.
  intros Hok Hloc Hr Hne Hret.
  destruct (save_sections w self loc cfg Hok Hloc Hr Hne Hret)
    as (token & cfg' & H1 & H2 & H3 & H4 & H5).
  exists token, cfg'. repeat (split; [assumption|]).
  intros other items Ho Hin. apply write_in. exact (H5 other items Ho Hin).
Qed.

End Sections.

(** * Round trips *)

Section Round.
Context {L : Lax} {LL : LaxLaws L}.
Import ConfigParser LockFacts OpFacts RoundFacts RecordFacts NewFacts.

Lemma after_save (w : World) (self : Config) :
  lock_ok w = true ->
  lock_ok (snd (save self w)) = true
  /\ location_of (snd (save self w)) = location_of w
  /\ config_section (snd (save self w)) = config_section w
  /\ environ (snd (save self w)) = environ w.
Proof.
  intros Hok. pose proof (globals_save self w) as Hg.
  split; [apply lock_ok_save, Hok|].
  split; [apply globals_location, Hg|].
  split; [apply globals_section, Hg|apply globals_environ, Hg].
Qed.



(** C3, amended. When the file is not there, the section [default] is
    active, no environment variable names a field and the process can
    take the lock, [get_config] returns the record of the compiled-in
    defaults, has made the file with that record in the section
    [default], and has printed the two notices of the generation
    first. *)
Theorem load_bootstrap (w : World) (loc : string) :
  lock_ok w = true ->
  location_of w = Ok loc ->
  fs w !! loc = None ->
  config_section w = "default" ->
  no_settings_env (environ w) = true ->
  fst (get_config w) = Returns Config_defaults
  /\ fs (snd (get_config w))
     = <[loc := write (mk [] [("default", dump_items Config_defaults "{}")])]>
         (fs w)
  /\ exists rest,
       stderr (snd (get_config w))
       = stderr w
         ++ ["ERROR - no config found - generating default at " +:+ loc;
             "You will likely need to edit this config."]
         ++ rest.
Proof.
  intros Hok Hloc Hf Hs Henv. unfold get_config.
  rewrite locked_ok by exact Hok. cbn [fst snd].
  rewrite fs_release, stderr_release.
  assert (Hm : merged Config_defaults None (config_section (acquired w))
               = Ok (mk [] [("default", dump_items Config_defaults "{}")])
               /\ Ini.wf (mk [] [("default",
                                   dump_items Config_defaults "{}")])
                  = true).
  { destruct (merged_storable Config_defaults None "default" empty)
      as (token & Hj & Hm & Hwf); try reflexivity.
    injection Hj as <-. cbn [config_section acquired set_lock].
    rewrite Hs. split; [exact Hm|exact Hwf]. }
  destruct Hm as [Hm Hwf].
  destruct (get_config_body_new (acquired w) loc Config_defaults _
              eq_refl ltac:(cbn; lia) Hloc Hf
              (Config_new_defaults _ Henv) Hm) as [H1 H2].
  split; [|split; [exact H2|]].
  - rewrite H1. cbn [config_section acquired set_lock]. rewrite Hs.
    apply (read_config_written Config_defaults "default" empty "{}");
      try reflexivity. exact Hwf.
  - exact (NoticeFacts.generate_default_notice (acquired w) loc Hloc Hf).
Qed.

(** What [get_config] returns comes from [Config]. *)
Lemma read_config_url text section env c :
  read_config text section env = Returns c ->
  no_trailing_slash (azul_url c) = azul_url c.
Proof.
  unfold read_config.
  destruct (read_string text); [|discriminate].
  destruct (match getitem_dict _ _ with Ok d => _ | Err e => _ end);
    [|discriminate].
  destruct (decode_token _); [|discriminate].
  destruct (Config_new env _) as [c'|e] eqn:E; [|discriminate].
  intros [= <-]. exact (Config_new_url _ _ _ E).
Qed.


End Round.

(** C8: [clear_auth] called from inside a function that holds the lock:
    the one call to the operating system is the one of that function. *)
Lemma clear_auth_reentrant_witness :
  fst (clear_auth (Demo.holding {[ Demo.home_ini := Demo.signed_in_file ]}))
  <> LockTimeout
  /\ fst (clear_auth (Demo.holding {[ Demo.home_ini := Demo.signed_in_file ]}))
     <> Blocked
  /\ flock_calls
       (snd (clear_auth
               (Demo.holding {[ Demo.home_ini := Demo.signed_in_file ]})))
     = 1%nat.
Proof.
  pose proof (clear_auth_reentrant
                (Demo.holding {[ Demo.home_ini := Demo.signed_in_file ]})
                eq_refl) as (H1 & H2 & _ & H3 & _).
  split; [exact H1|]. split; [exact H2|exact H3].
Defined.

(** C4: a record saved under [default] into a file with two profiles. *)
Lemma save_keeps_sections_witness :
  exists token cfg',
    Json.dumps (auth_token Demo.signed_in) = Ok token
    /\ fs (snd (save Demo.signed_in
                  (Demo.fresh {[ Demo.home_ini := Demo.two_profiles ]} [])))
       = <[Demo.home_ini := ConfigParser.write cfg']>
           {[ Demo.home_ini := Demo.two_profiles ]}
    /\ section_items cfg' "staging"
       = Some [("azul_url", "https://staging.example")].
Proof.
  destruct (save_keeps_sections
              (Demo.fresh {[ Demo.home_ini := Demo.two_profiles ]} [])
              Demo.signed_in Demo.home_ini
              (ConfigParser.mk []
                 [("staging", [("azul_url", "https://staging.example")]);
                  ("default", [("azul_url", "http://old.example");
                               ("auth_token_time", "5")])]))
    as (token & cfg' & H1 & H2 & _ & H4 & _);
    try (vm_compute; reflexivity).
  exists token, cfg'. split; [exact H1|]. split; [exact H2|].
  rewrite H4; [reflexivity|discriminate].
Defined.

(** C4: the section [b] of a file written by hand is not kept byte for
    byte: its line [k=v] is not in the file after the save. *)
Lemma save_rewrites_sections :
  Py.occurs "k=v" Demo.by_hand = true
  /\ fst (save Demo.defaults
            (Demo.fresh {[ Demo.home_ini := Demo.by_hand ]} []))
     = Returns tt
  /\ exists text,
       fs (snd (save Demo.defaults
                  (Demo.fresh {[ Demo.home_ini := Demo.by_hand ]} [])))
       !! Demo.home_ini = Some text
       /\ Py.startswith
            ("[b]" +:+ String ConfigParser.NL
               ("k = v" +:+ String ConfigParser.NL EmptyString)) text
          = true
       /\ Py.occurs "k=v" text = false.
Proof.
  split; [reflexivity|]. split; [vm_compute; reflexivity|].
  eexists. split; [vm_compute; reflexivity|].
  split; vm_compute; reflexivity.
Qed.

(** C9: after [switch_section] with the empty name, the fields are not
    in a section of that name: they are in the default section
    [DEFAULT] of the file, the section of the empty name is written
    without options, and the file no longer reads. *)
Lemma save_after_switch_empty :
  fst (save Demo.signed_in
         (snd (switch_section EmptyString
                 (Demo.fresh {[ Demo.home_ini := Demo.two_profiles ]} []))))
  = Returns tt
  /\ exists text,
       fs (snd (save Demo.signed_in
                  (snd (switch_section EmptyString
                          (Demo.fresh
                             {[ Demo.home_ini := Demo.two_profiles ]} [])))))
       !! Demo.home_ini = Some text
       /\ Py.startswith
            ("[DEFAULT]" +:+ String ConfigParser.NL
               ("azul_url = https://azul.example"
                  +:+ String ConfigParser.NL EmptyString)) text
          = true
       /\ Py.occurs
            (String ConfigParser.NL
               ("[]" +:+ String ConfigParser.NL
                  (String ConfigParser.NL EmptyString))) text
          = true
       /\ ConfigParser.read_string text = Err ConfigParserError.
Proof.
  split; [vm_compute; reflexivity|].
  eexists. split; [vm_compute; reflexivity|].
  repeat split; vm_compute; reflexivity.
Qed.



(** C3: the first [get_config] of a process without variables. *)
Lemma load_bootstrap_witness :
  fst (get_config (Demo.fresh ∅ [])) = Returns Demo.defaults
  /\ is_Some (fs (snd (get_config (Demo.fresh ∅ []))) !! Demo.home_ini).
Proof.
  destruct (load_bootstrap (Demo.fresh ∅ []) Demo.home_ini)
    as (H1 & H2 & _); try reflexivity.
  split; [exact H1|]. rewrite H2, lookup_insert_eq. eauto.
Defined.

(** C3: with a variable that names a field, the record returned, and
    stored, is not the one of the compiled-in defaults. *)
Lemma load_bootstrap_environment :
  fs (Demo.fresh ∅ [("AUTH_SCOPES", "openid")]) !! Demo.home_ini = None
  /\ exists conf,
       fst (get_config (Demo.fresh ∅ [("AUTH_SCOPES", "openid")]))
       = Returns conf
       /\ auth_scopes conf = "openid"
       /\ auth_scopes Demo.defaults = EmptyString.
Proof.
  split; [reflexivity|]. eexists. split; [vm_compute; reflexivity|].
  split; reflexivity.
Qed.



(** * Further properties of [config.py] *)

(** ** [no_trailing_slash] *)

Module SlashFacts.
Import StrFacts.

Lemma rstrip_char_split x s :
  exists t, s = Py.rstrip_char x s +:+ t
            /\ Py.all_chars (fun c => Ascii.eqb c x) t = true.
Proof.
  induction s as [|c s (t & E & Ht)].
  - exists EmptyString. split; reflexivity.
  - cbn [Py.rstrip_char].
    destruct (Ascii.eqb c x && Py.is_empty (Py.rstrip_char x s)) eqn:C.
    + apply andb_prop in C as [C1 C2]. exists (String c t). split.
      * destruct (Py.rstrip_char x s); [|discriminate].
        cbn in E. rewrite <- E. reflexivity.
      * cbn [Py.all_chars]. rewrite C1, Ht. reflexivity.
    + exists t. split; [|exact Ht].
      change (String c (Py.rstrip_char x s) +:+ t)
        with (String c (Py.rstrip_char x s +:+ t)).
      rewrite <- E. reflexivity.
Qed.

Lemma rstrip_char_end x s r :
  Py.rstrip_char x s <> r +:+ String x EmptyString.
Proof.
  revert r. induction s as [|c s IH]; intros r.
  - destruct r; discriminate.
  - cbn [Py.rstrip_char].
    destruct (Ascii.eqb c x && Py.is_empty (Py.rstrip_char x s)) eqn:C.
    + destruct r; discriminate.
    + destruct r as [|d r].
      * cbn. intros [= -> E]. rewrite E, Ascii.eqb_refl in C. discriminate.
      * change (String d r +:+ String x EmptyString)
          with (String d (r +:+ String x EmptyString)).
        intros [= _ E]. exact (IH r E).
Qed.

Lemma startswith_app s t : Py.startswith s (s +:+ t) = true.
Proof.
  induction s as [|c s IH]; [destruct t; reflexivity|].
  cbn. rewrite Ascii.eqb_refl. exact IH.
Qed.

Lemma drop_app s t : Py.drop (String.length s) (s +:+ t) = t.
Proof.
  induction s as [|c s IH]; [destruct t; reflexivity|]. exact IH.
Qed.

End SlashFacts.

(** X1. [no_trailing_slash] takes off the slashes at the end of the
    value, all of them and nothing else: the result is the start of the
    value, what follows it in the value are slashes only, the result does
    not end in a slash, and a second application changes nothing. *)
Theorem no_trailing_slash_strips (v : string) :
  Py.startswith (no_trailing_slash v) v = true
  /\ Py.all_chars (fun c => Ascii.eqb c "/")
       (Py.drop (String.length (no_trailing_slash v)) v) = true
  /\ (forall r, no_trailing_slash v <> r +:+ "/")
  /\ no_trailing_slash (no_trailing_slash v) = no_trailing_slash v.
Proof.
  unfold no_trailing_slash.
  destruct (SlashFacts.rstrip_char_split "/" v) as (t & E & Ht).
  split; [|split; [|split]].
  - rewrite E at 2. apply SlashFacts.startswith_app.
  - rewrite E at 2. rewrite SlashFacts.drop_app. exact Ht.
  - intros r. apply SlashFacts.rstrip_char_end.
  - apply NewFacts.rstrip_char_idem.
Qed.

(** ** The operations in any state of the lock *)

Module FrameFacts.
Import LockFacts OpFacts.
Section Facts.
Context {L : Lax}.

Lemma acquire_frame w :
  fs (snd (acquire w)) = fs w
  /\ stderr (snd (acquire w)) = stderr w
  /\ location_of (snd (acquire w)) = location_of w
  /\ (fst (acquire w) = Returns tt \/ fst (acquire w) = LockTimeout
      \/ fst (acquire w) = Blocked).
Proof.
  unfold acquire. destruct (is_locked _); [auto 6|].
  destruct (held_elsewhere w); [destruct (float_elapses _)|]; auto 7.
Qed.

(** [save] without the lock changes no file but the one it resolves. *)
Lemma save_body_frame self w path :
  fs (snd (save_body self w)) !! path = fs w !! path
  \/ location_of w = Ok path.
Proof.
  destruct (location_of w) as [loc|e] eqn:Hloc.
  - rewrite (save_body_eq self w loc Hloc).
    destruct (merged _ _ _); [|left; reflexivity].
    destruct (decide (path = loc)) as [->|Hne]; [right; reflexivity|left].
    cbn [snd fs set_fs]. apply lookup_insert_ne. congruence.
  - left. destruct (save_body_fs self w) as [H|H]; [rewrite H; reflexivity|].
    exfalso. unfold save_body in H.
    destruct (Json.dumps (auth_token self)) as [token|e'];
      [|discriminate].
    erewrite bind_returns in H by reflexivity.
    assert (Hc : current_location w = (Raises e, w)).
    { unfold current_location. unfold location_of in Hloc.
      destruct (ConfigLocation_new _ _); [discriminate|].
      cbn in Hloc. congruence. }
    erewrite bind_raises in H by exact Hc. discriminate.
Qed.

Lemma stderr_save_body self w : stderr (snd (save_body self w)) = stderr w.
Proof.
  destruct (location_of w) as [loc|e] eqn:Hloc.
  - rewrite (save_body_eq self w loc Hloc).
    destruct (merged _ _ _); reflexivity.
  - unfold save_body.
    destruct (Json.dumps (auth_token self)) as [token|e'];
      [|reflexivity].
    erewrite bind_returns by reflexivity.
    assert (Hc : current_location w = (Raises e, w)).
    { unfold current_location. unfold location_of in Hloc.
      destruct (ConfigLocation_new _ _); [discriminate|].
      cbn in Hloc. congruence. }
    erewrite bind_raises by exact Hc. reflexivity.
Qed.

(** A function that reads the record, changes it and saves it, all under
    the lock, as a function of what it reads. *)
Lemma update_eq (f : Config -> Config) w loc text :
  lock_ok w = true -> location_of w = Ok loc -> fs w !! loc = Some text ->
  (fst (locked (conf ← get_config; save (f conf)) w),
   fs (snd (locked (conf ← get_config; save (f conf)) w)))
  = match read_config text (config_section w) (environ w) with
    | Returns c =>
        match merged (f c) (Some text) (config_section w) with
        | Ok cfg' =>
            (Returns tt, <[loc := ConfigParser.write cfg']> (fs w))
        | Err e => (Raises e, fs w)
        end
    | Raises e => (Raises e, fs w)
    | LockTimeout => (LockTimeout, fs w)
    | Blocked => (Blocked, fs w)
    end.
Proof.
  intros Hok Hloc Hf. rewrite locked_ok by exact Hok. cbn [fst snd].
  rewrite fs_release.
  pose (wa := acquired w).
  assert (Hoka : lock_ok wa = true) by reflexivity.
  destruct (get_config_eq wa loc text Hoka Hloc Hf) as [Ga Gfs].
  change (config_section wa) with (config_section w) in Ga.
  change (environ wa) with (environ w) in Ga.
  change (fs wa) with (fs w) in Gfs.
  pose proof (globals_get_config wa) as Gg.
  pose proof (lock_ok_get_config wa Hoka) as Gok.
  fold wa. destruct (get_config wa) as [o w1] eqn:E1. cbn [fst snd] in *.
  rewrite <- Ga. destruct o as [c|e| |].
  - erewrite bind_returns by exact E1.
    assert (Hloc1 : location_of w1 = Ok loc)
      by (rewrite (globals_location _ _ Gg); exact Hloc).
    destruct (save_eq (f c) w1 loc Gok Hloc1) as [S1 S2].
    rewrite Gfs, Hf, (globals_section _ _ Gg) in S1, S2.
    change (config_section wa) with (config_section w) in S1, S2.
    rewrite S1, S2. destruct (merged _ _ _); reflexivity.
  - erewrite bind_raises by exact E1. cbn [fst snd]. rewrite Gfs.
    reflexivity.
  - unfold mbind, M_bind, bind. rewrite E1. cbn [fst snd]. rewrite Gfs.
    reflexivity.
  - unfold mbind, M_bind, bind. rewrite E1. cbn [fst snd]. rewrite Gfs.
    reflexivity.
Qed.

Lemma update_keeps (f : Config -> Config) :
  keeps globals (locked (conf ← get_config; save (f conf)))
  /\ steady (conf ← get_config; save (f conf)).
Proof.
  split.
  - repeat first [apply globals_save | apply globals_get_config | keeps_step].
  - apply steady_bind; [apply steady_get_config|].
    intros c. apply steady_save.
Qed.

Lemma lock_ok_update (f : Config -> Config) w :
  lock_ok w = true ->
  lock_ok (snd (locked (conf ← get_config; save (f conf)) w)) = true.
Proof.
  destruct (update_keeps f) as [Hk Hs]. apply lock_ok_after; assumption.
Qed.

End Facts.
End FrameFacts.

Section Frames.
Context {L : Lax}.
Import LockFacts OpFacts FrameFacts.

(** X2. [save] is all or nothing, in every state of the lock and of the
    files: it returns, or every file is as it was. The only file it ever
    changes is the one [ConfigLocation()] names, and it prints nothing. *)
Theorem save_all_or_nothing (w : World) (self : Config) :
  (fst (save self w) = Returns tt \/ fs (snd (save self w)) = fs w)
  /\ (forall path,
        fs (snd (save self w)) !! path = fs w !! path
        \/ location_of w = Ok path)
  /\ stderr (snd (save self w)) = stderr w.
Proof.
  destruct (acquire_frame w) as (Hfs & Herr & Hloc & Ha).
  unfold save, locked.
  destruct (acquire w) as [[[]|e| |] w1]; cbn [fst snd] in *.
  - pose proof (save_body_fs self w1) as H1.
    pose proof (fun p => save_body_frame self w1 p) as H2.
    pose proof (stderr_save_body self w1) as H3.
    destruct (save_body self w1) as [o w2]. cbn [fst snd] in *.
    rewrite fs_release, stderr_release.
    split; [|split].
    + destruct H1 as [H1|H1]; [right; congruence|left; exact H1].
    + intros p. destruct (H2 p) as [H|H]; [left|right]; congruence.
    + congruence.
  - destruct Ha as [Ha|[Ha|Ha]]; discriminate.
  - split; [right; exact Hfs|]. split; [|exact Herr].
    intros p. left. rewrite Hfs. reflexivity.
  - split; [right; exact Hfs|]. split; [|exact Herr].
    intros p. left. rewrite Hfs. reflexivity.
Qed.

(** X3. [get_config] never changes a config file that is there, whatever
    the file holds, whatever the state of the lock, and whether it
    returns or raises. *)
Theorem get_config_keeps_file (w : World) (loc text : string) :
  location_of w = Ok loc ->
  fs w !! loc = Some text ->
  fs (snd (get_config w)) = fs w.
Proof.
  intros Hloc Hf. destruct (acquire_frame w) as (Hfs & _ & Hl & Ha).
  unfold get_config, locked.
  destruct (acquire w) as [[[]|e| |] w1]; cbn [fst snd] in *; try exact Hfs.
  rewrite <- Hl in Hloc. rewrite <- Hfs in Hf.
  destruct (get_config_body_eq w1 loc text Hloc Hf) as [_ H].
  destruct (get_config_body w1) as [o w2]. cbn [fst snd] in *.
  rewrite fs_release. congruence.
Qed.

(** X4. A config file that [configparser] cannot read stops every
    operation with the error of the parser, and stays as it is:
    [get_config] and [clear_auth] raise it, and so does [save] of a
    record whose token [json] encodes, before the file is opened for
    writing. *)
Theorem malformed_file_surfaces (w : World) (loc text : string) (e : exn) :
  lock_ok w = true ->
  location_of w = Ok loc ->
  fs w !! loc = Some text ->
  ConfigParser.read_string text = Err e ->
  fst (get_config w) = Raises e
  /\ fs (snd (get_config w)) = fs w
  /\ fst (clear_auth w) = Raises e
  /\ fs (snd (clear_auth w)) = fs w
  /\ (forall self token,
        Json.dumps (auth_token self) = Ok token ->
        fst (save self w) = Raises e /\ fs (snd (save self w)) = fs w).
Proof.
  intros Hok Hloc Hf Hr.
  destruct (get_config_eq w loc text Hok Hloc Hf) as [G1 G2].
  assert (Hrc : read_config text (config_section w) (environ w) = Raises e).
  { unfold read_config. rewrite Hr. reflexivity. }
  pose proof (update_eq reset_auth w loc text Hok Hloc Hf) as U.
  rewrite Hrc in U. fold clear_auth in U. injection U as U1 U2.
  split; [congruence|]. split; [exact G2|].
  split; [exact U1|]. split; [exact U2|].
  intros self token Hj. destruct (save_eq self w loc Hok Hloc) as [S1 S2].
  assert (Hm : merged self (fs w !! loc) (config_section w) = Err e).
  { unfold merged. rewrite Hj, Hf. cbn [mbind result_bind rbind].
    cbn [ConfigParser.read]. rewrite Hr. reflexivity. }
  rewrite Hm in S1, S2. split; assumption.
Qed.

(** X5. While another process holds the lock for good and this process
    does not hold it, [save], [get_config] and [clear_auth] do nothing but
    wait: with a timeout of the lock that is [0] or more and finite they
    end in the timeout of the lock, and the lock object is then as it
    was; with any other timeout (negative, infinite, not a number) they
    wait without end. Either way no file is read or written, nothing is
    printed, the active section is as it was and the lock is not
    held. *)
Theorem busy_lock_times_out (w : World) (self : Config) :
  is_locked (_lock_azul_config w) = false ->
  held_elsewhere w = true ->
  let waits {A : Type} (r : outcome A * World) :=
    fst r = (if float_elapses (lock_timeout (_lock_azul_config w))
             then LockTimeout else Blocked)
    /\ fs (snd r) = fs w /\ stderr (snd r) = stderr w
    /\ config_section (snd r) = config_section w
    /\ is_locked (_lock_azul_config (snd r)) = false
    /\ (float_elapses (lock_timeout (_lock_azul_config w)) = true ->
        _lock_azul_config (snd r) = _lock_azul_config w) in
  waits (save self w) /\ waits (get_config w) /\ waits (clear_auth w).
Proof.
  intros Hl Hh waits.
  assert (H : forall A (m : M A), waits A (locked m w)).
  { intros A m. unfold waits, locked, acquire. rewrite Hl, Hh.
    destruct (float_elapses _); cbn; auto 10.
    repeat (split; [reflexivity|]). discriminate. }
  unfold save, get_config, clear_auth. auto.
Qed.

(** X6. Through any sequence of calls of [switch_section], [save],
    [get_config] and [clear_auth], from a lock the process can take, the
    lock object comes back as it was after every call, also after a call
    that raises, the lock stays one the process can take, and the lock of
    the operating system has been given up as often as it was taken. *)
Theorem lock_released_after_calls (cs : list call) (w : World) :
  lock_ok w = true ->
  _lock_azul_config (run_calls cs w) = _lock_azul_config w
  /\ lock_ok (run_calls cs w) = true
  /\ (flock_calls (run_calls cs w) + funlock_calls w
      = funlock_calls (run_calls cs w) + flock_calls w)%nat.
Proof.
  revert w. induction cs as [|c cs IH]; intros w Hok.
  { cbn. split; [reflexivity|]. split; [exact Hok|lia]. }
  cbn [run_calls fold_left]. change (fold_left _ cs ?x) with (run_calls cs x).
  assert (Hc : _lock_azul_config (run_call c w) = _lock_azul_config w
               /\ lock_ok (run_call c w) = true
               /\ (flock_calls (run_call c w) + funlock_calls w
                   = funlock_calls (run_call c w) + flock_calls w)%nat).
  { assert (Hl : forall A (m : M A),
               steady m -> keeps globals (locked m) ->
               _lock_azul_config (snd (locked m w)) = _lock_azul_config w
               /\ lock_ok (snd (locked m w)) = true
               /\ (flock_calls (snd (locked m w)) + funlock_calls w
                   = funlock_calls (snd (locked m w)) + flock_calls w)%nat).
    { intros A m Hs Hk.
      destruct (locked_steady m w Hs Hok) as (_ & H2 & H3 & H4 & _).
      split; [exact H2|]. split; [apply lock_ok_after; assumption|].
      rewrite H3, H4. destruct (is_locked _); lia. }
    destruct c as [s|self| |]; cbn [run_call].
    - cbn. split; [reflexivity|]. split; [exact Hok|lia].
    - apply Hl; [|apply globals_save].
      unfold save_body. repeat steady_step.
    - apply Hl; [|apply globals_get_config].
      unfold get_config_body, generate_default, load_section.
      repeat first [apply steady_save | steady_step].
    - destruct (update_keeps reset_auth) as [Hk Hs]. apply Hl; assumption. }
  destruct Hc as (C1 & C2 & C3).
  destruct (IH (run_call c w) C2) as (I1 & I2 & I3).
  split; [congruence|]. split; [exact I2|lia].
Qed.

End Frames.

(** ** What [save] and [get_config] refuse *)

Module RefuseFacts.
Import DictFacts.
Section Facts.
Context {L : Lax}.

Lemma keys_map {A B} (g : A -> B) (d : Dict.t A) :
  Dict.keys (map (fun kv => (fst kv, g (snd kv))) d) = Dict.keys d.
Proof.
  unfold Dict.keys. rewrite map_map. reflexivity.
Qed.

Lemma get_map {A B} (g : A -> B) k (d : Dict.t A) :
  Dict.get k (map (fun kv => (fst kv, g (snd kv))) d)
  = option_map g (Dict.get k d).
Proof.
  induction d as [|[k' v] d IH]; [reflexivity|].
  cbn. destruct (String.eqb k k'); [reflexivity|exact IH].
Qed.

(** [decode_token] keeps the keys. *)
Lemma decode_token_keys conf kwargs :
  decode_token conf = Ok kwargs -> Dict.keys kwargs = Dict.keys conf.
Proof.
  unfold decode_token.
  destruct (Dict.get "auth_token" conf) as [v|] eqn:E.
  - destruct (Py.is_empty v).
    + intros [= <-]. apply keys_map.
    + destruct (Json.loads v) as [x|e]; [|discriminate].
      cbn [mbind result_bind rbind]. intros [= <-].
      rewrite StoreFacts.keys_set.
      unfold Dict.mem. rewrite get_map, E. cbn. apply keys_map.
  - intros [= <-]. apply keys_map.
Qed.

(** What [decode_token] hands to [Config] as token. *)
Lemma decode_token_get conf kwargs v :
  decode_token conf = Ok kwargs ->
  Dict.get "auth_token" conf = Some v ->
  Dict.get "auth_token" kwargs
  = Some (if Py.is_empty v then PStr v
          else match Json.loads v with Ok x => x | Err _ => PNone end).
Proof.
  unfold decode_token. intros H E. rewrite E in H.
  destruct (Py.is_empty v).
  - injection H as <-. rewrite get_map, E. reflexivity.
  - destruct (Json.loads v) as [x|e]; [|discriminate].
    cbn [mbind result_bind rbind] in H. injection H as <-.
    apply get_set_same.
Qed.

End Facts.
End RefuseFacts.

Section Refusals.
Context {L : Lax}.
Import ConfigParser LockFacts OpFacts FrameFacts RefuseFacts RecordFacts.

(** X7. [save] of a record whose token [json] encodes, from a lock the
    process can take and under an active section with a name: on a file
    that [configparser] cannot read it raises the error of the parser; on
    a file that is not there or that reads, it returns exactly when
    [configparser] accepts every value it is given, that is when none has
    a percent sign that is neither doubled nor part of a reference
    [%(name)s], and otherwise it raises [ValueError] before the file is
    opened; whenever it raises, every file is as it was. *)
Theorem save_checks_percent (w : World) (self : Config) (loc token : string) :
  lock_ok w = true ->
  location_of w = Ok loc ->
  Py.is_empty (config_section w) = false ->
  Json.dumps (auth_token self) = Ok token ->
  match ConfigParser.read (fs w !! loc) with
  | Err e =>
      fst (save self w) = Raises e /\ fs (snd (save self w)) = fs w
  | Ok _ =>
      if forallb (fun kv => Canon.accepted (snd kv)) (dump_items self token)
      then fst (save self w) = Returns tt
      else fst (save self w) = Raises ValueError
           /\ fs (snd (save self w)) = fs w
  end.
Proof.
  intros Hok Hloc Hne Hj.
  destruct (save_eq self w loc Hok Hloc) as [S1 S2].
  destruct (ConfigParser.read (fs w !! loc)) as [cfg|e] eqn:Hr.
  2:{ assert (Hm : merged self (fs w !! loc) (config_section w) = Err e).
      { unfold merged. rewrite Hj, Hr. reflexivity. }
      rewrite Hm in S1, S2. split; assumption. }
  assert (Hm : merged self (fs w !! loc) (config_section w)
               = ConfigParser.setitem cfg (config_section w)
                   (dump_items self token)).
  { unfold merged. rewrite Hj, Hr. reflexivity. }
  rewrite Hm in S1, S2.
  destruct (String.eqb (config_section w) default_section) eqn:E.
  - apply String.eqb_eq in E. rewrite E in S1, S2.
    rewrite IniFacts.setitem_default in S1, S2.
    destruct (forallb _ _); [exact S1|split; assumption].
  - rewrite IniFacts.setitem_section in S1, S2 by assumption.
    destruct (forallb _ _); [exact S1|split; assumption].
Qed.

(** X8. [Config] forbids what it does not know: when the active section,
    with the options it takes over from the default section of the file,
    has an option that is not the name of a field, [get_config] raises
    the validation error, and the file is as it was. *)
Theorem load_refuses_unknown_option (w : World) (loc text : string)
    (tmp : ConfigParser.t) (conf : Dict.t string) (kwargs : Dict.t pyval) :
  lock_ok w = true ->
  location_of w = Ok loc ->
  fs w !! loc = Some text ->
  ConfigParser.read_string text = Ok tmp ->
  ConfigParser.getitem_dict tmp (config_section w) = Ok conf ->
  decode_token conf = Ok kwargs ->
  forallb (fun k => existsb (String.eqb k) Config_fields) (Dict.keys conf)
  = false ->
  fst (get_config w) = Raises ValidationError
  /\ fs (snd (get_config w)) = fs w.
Proof.
  intros Hok Hloc Hf Hr Hg Hd Hk.
  destruct (get_config_eq w loc text Hok Hloc Hf) as [G1 G2].
  split; [|exact G2]. rewrite G1. unfold read_config.
  rewrite Hr, Hg, Hd. unfold Config_new.
  rewrite (decode_token_keys _ _ Hd), Hk. reflexivity.
Qed.

(** X9. The stored token has to be [null] or a JSON object: when the
    active section has an [auth_token] entry that is empty, or whose text
    decodes to a value of another kind, [get_config] raises the
    validation error. *)
Theorem load_refuses_other_token (w : World) (loc text : string)
    (tmp : ConfigParser.t) (conf : Dict.t string) (v : string) :
  lock_ok w = true ->
  location_of w = Ok loc ->
  fs w !! loc = Some text ->
  ConfigParser.read_string text = Ok tmp ->
  ConfigParser.getitem_dict tmp (config_section w) = Ok conf ->
  Dict.get "auth_token" conf = Some v ->
  (Py.is_empty v = true
   \/ exists x, Json.loads v = Ok x
                /\ validate_token x = Err ValidationError) ->
  fst (get_config w) = Raises ValidationError.
Proof.
  intros Hok Hloc Hf Hr Hg Hv Hx.
  destruct (get_config_eq w loc text Hok Hloc Hf) as [G1 _].
  rewrite G1. unfold read_config. rewrite Hr, Hg.
  assert (Hd : exists kwargs x,
             decode_token conf = Ok kwargs
             /\ Dict.get "auth_token" kwargs = Some x
             /\ validate_token x = Err ValidationError).
  { destruct Hx as [He|(x & Hl & Hx)].
    - eexists _, (PStr v). split; [|split; [|reflexivity]].
      + unfold decode_token. rewrite Hv, He. reflexivity.
      + rewrite get_map, Hv. reflexivity.
    - destruct (Py.is_empty v) eqn:He.
      + eexists _, (PStr v). split; [|split; [|reflexivity]].
        * unfold decode_token. rewrite Hv, He. reflexivity.
        * rewrite get_map, Hv. reflexivity.
      + eexists _, x. split; [|split; [|exact Hx]].
        * unfold decode_token. rewrite Hv, He, Hl. reflexivity.
        * apply DictFacts.get_set_same. }
  destruct Hd as (kwargs & x & Hd & Hget & Hval). rewrite Hd.
  unfold Config_new. cbv zeta. destruct (negb _); [reflexivity|].
  assert (Hfld : field (environ w) kwargs "auth_token" validate_token
                    (auth_token Config_defaults) = Err ValidationError).
  { unfold field, field_input. rewrite Hget.
    cbn [mbind result_bind rbind]. exact Hval. }
  rewrite Hfld. reflexivity.
Qed.

(** X10. [ConfigLocation()] is built whole in every call: once the
    environment has a lock timeout that is not a number, [get_config]
    and [save] raise the validation error and leave every file as it
    was, although they use the path only and the timeout of the lock was
    fixed at the import. With such an environment the import itself
    fails. *)
Theorem bad_timeout_variable (w : World) (v : string) :
  lock_ok w = true ->
  Dict.get "token_lock_timeout" (Pydantic.env_vars (environ w)) = Some v ->
  lax_float v = None ->
  fst (get_config w) = Raises ValidationError
  /\ fs (snd (get_config w)) = fs w
  /\ (forall self token,
        Json.dumps (auth_token self) = Ok token ->
        fst (save self w) = Raises ValidationError
        /\ fs (snd (save self w)) = fs w)
  /\ (forall ini lck files elsewhere,
        import_module ini lck files (environ w) elsewhere
        = Err ValidationError).
Proof.
  intros Hok Hv Hx.
  assert (Hn : forall d, ConfigLocation_new d (environ w)
                         = Err ValidationError).
  { intros d. unfold ConfigLocation_new. rewrite Hv, Hx. reflexivity. }
  assert (Hc : forall u, environ u = environ w ->
                         current_location u = (Raises ValidationError, u)).
  { intros u Hu. unfold current_location. rewrite Hu, Hn. reflexivity. }
  split; [|split; [|split]].
  - unfold get_config. rewrite locked_ok by exact Hok. cbn [fst].
    unfold get_config_body.
    erewrite bind_raises by (apply Hc; reflexivity). reflexivity.
  - unfold get_config. rewrite locked_ok by exact Hok. cbn [snd].
    rewrite fs_release. unfold get_config_body.
    erewrite bind_raises by (apply Hc; reflexivity). reflexivity.
  - intros self token Hj. unfold save. rewrite locked_ok by exact Hok.
    cbn [fst snd]. rewrite fs_release. unfold save_body. rewrite Hj.
    erewrite bind_returns by reflexivity.
    erewrite bind_raises by (apply Hc; reflexivity). split; reflexivity.
  - intros ini lck files elsewhere. unfold import_module. rewrite Hn.
    reflexivity.
Qed.

(** X11. What a [get_config] that returns has printed, on a file that is
    there and has the active section: the notice of the section and the
    path, then the base URL in use, and nothing else. *)
Theorem load_notices (w : World) (loc text : string) (tmp : ConfigParser.t)
    (conf : Dict.t string) (c : Config) :
  lock_ok w = true ->
  location_of w = Ok loc ->
  fs w !! loc = Some text ->
  ConfigParser.read_string text = Ok tmp ->
  ConfigParser.getitem_dict tmp (config_section w) = Ok conf ->
  fst (get_config w) = Returns c ->
  stderr (snd (get_config w))
  = stderr w
    ++ ["Loading config [" +:+ config_section w +:+ "] from " +:+ loc;
        "using Azul API at " +:+ azul_url c
          +:+ String ConfigParser.NL EmptyString].
Proof.
  intros Hok Hloc Hf Hr Hg. unfold get_config.
  rewrite locked_ok by exact Hok. cbn [fst snd]. rewrite stderr_release.
  unfold get_config_body.
  erewrite bind_returns by (apply current_location_ok; exact Hloc).
  erewrite bind_returns by reflexivity.
  change (fs (acquired w) !! loc) with (fs w !! loc). rewrite Hf.
  erewrite bind_returns by reflexivity.
  intros Hc.
  exact (load_section_stderr (acquired w) loc text tmp conf c Hf Hr Hg Hc).
Qed.

End Refusals.

(** ** Records with any end of the base URL *)

Module CarryFacts.
Import ConfigParser Canon StrFacts DictFacts IniFacts StoreFacts RecordFacts.
Import LockFacts OpFacts RoundFacts.
Section Facts.
Context {L : Lax} {LL : LaxLaws L}.

Lemma carried_parts (c : Config) :
  carried c = true ->
  Ini.safe (azul_url c) = true /\ Ini.safe (oidc_url c) = true
  /\ Ini.safe (auth_type c) = true /\ Ini.safe (auth_scopes c) = true
  /\ Ini.safe (auth_client_id c) = true
  /\ Ini.safe (auth_client_secret c) = true
  /\ token_ok (auth_token c) = true.
Proof.
  unfold carried, fields_safe.
  intros [[[[[[H1 H2]%andb_prop H3]%andb_prop H4]%andb_prop H5]%andb_prop
            H6]%andb_prop H7]%andb_prop.
  repeat split; assumption.
Qed.

Lemma storable_carried (c : Config) : storable c = true -> carried c = true.
Proof.
  intros H.
  destruct (storable_parts c H) as (_ & H1 & H2 & H3 & H4 & H5 & H6 & H7).
  unfold carried, fields_safe. rewrite H1, H2, H3, H4, H5, H6, H7.
  reflexivity.
Qed.

Lemma normalized_storable (c : Config) :
  storable c = true -> normalized c = c.
Proof.
  intros H. destruct (storable_parts c H) as (Hu & _).
  unfold normalized. rewrite Hu. destruct c; reflexivity.
Qed.

Lemma carried_items_safe (c : Config) token :
  carried c = true -> Ini.safe token = true ->
  forallb (fun kv => Ini.safe (snd kv)) (dump_items c token) = true.
Proof.
  intros Hs Ht.
  destruct (carried_parts c Hs) as (H1 & H2 & H3 & H4 & H5 & H6 & _).
  unfold dump_items. cbn [forallb snd].
  rewrite H1, H2, H3, H4, H5, H6, Ht, safe_str_of_bool, safe_str_of_Z,
    !float_str_safe.
  reflexivity.
Qed.

Lemma carried_items_ok (c : Config) token :
  carried c = true -> Ini.safe token = true ->
  Ini.items_ok (dump_items c token) = true
  /\ forallb (fun kv => accepted (snd kv)) (dump_items c token) = true
  /\ forallb (fun kv => String.eqb (Py.lower (fst kv)) (fst kv)
                        && negb (Py.contains "%" (snd kv)))
             (dump_items c token) = true.
Proof.
  intros Hs Ht. pose proof (carried_items_safe c token Hs Ht) as H.
  split; [|split].
  - unfold Ini.items_ok. rewrite dump_items_keys.
    apply andb_true_intro. split; [reflexivity|].
    rewrite forallb_forall in H |- *. intros kv Hin.
    rewrite (safe_plain _ (H kv Hin)), andb_true_r.
    unfold dump_items in Hin. cbn [In] in Hin.
    repeat (destruct Hin as [<-|Hin]; [reflexivity|]). contradiction.
  - rewrite forallb_forall in H |- *. intros kv Hin.
    apply accepted_plain, safe_percent, H, Hin.
  - rewrite forallb_forall in H |- *. intros kv Hin.
    rewrite (safe_percent _ (H kv Hin)), andb_true_r.
    unfold dump_items in Hin. cbn [In] in Hin.
    repeat (destruct Hin as [<-|Hin]; [reflexivity|]). contradiction.
Qed.

(** [Config] on the items of a record gives the record with the slashes
    at the end of the base URL removed. *)
Lemma Config_of_carried (c : Config) token env :
  carried c = true -> Json.dumps (auth_token c) = Ok token ->
  exists kwargs,
    decode_token (dump_items c token) = Ok kwargs
    /\ Config_new env kwargs = Ok (normalized c).
Proof.
  intros Hs Hd.
  destruct (carried_parts c Hs) as (_ & _ & _ & _ & _ & _ & Ht).
  destruct (token_text _ Ht) as (j & Hj & Hsafe & Hne & Hl).
  rewrite Hd in Hj. injection Hj as <-.
  exists [ ("azul_url", PStr (azul_url c));
           ("oidc_url", PStr (oidc_url c));
           ("auth_type", PStr (auth_type c));
           ("auth_scopes", PStr (auth_scopes c));
           ("auth_client_id", PStr (auth_client_id c));
           ("auth_client_secret", PStr (auth_client_secret c));
           ("azul_verify_ssl", PStr (Py.str_of_bool (azul_verify_ssl c)));
           ("auth_token", auth_token c);
           ("auth_token_time", PStr (Py.str_of_Z (auth_token_time c)));
           ("max_timeout", PStr (float_str (max_timeout c)));
           ("oidc_timeout", PStr (float_str (oidc_timeout c))) ].
  split.
  - unfold decode_token.
    change (Dict.get "auth_token" (dump_items c token)) with (Some token).
    cbv iota beta. rewrite Hne, Hl. reflexivity.
  - assert (Hv : validate_token (auth_token c) = Ok (auth_token c)).
    { unfold token_ok in Ht.
      destruct (auth_token c); try discriminate; reflexivity. }
    unfold Config_new, field, field_input.
    cbn -[Py.str_of_Z Py.str_of_bool no_trailing_slash Pydantic.lax_bool
          validate_token].
    rewrite Hv.
    cbn -[Py.str_of_Z Py.str_of_bool no_trailing_slash Pydantic.lax_bool].
    rewrite lax_bool_str, lax_int_str, !lax_float_str.
    reflexivity.
Qed.

(** Reading a section that stores the items of a record. *)
Lemma read_config_stored (r : Config) section cfg token env :
  Ini.wf cfg = true ->
  Ini.name_ok section = true ->
  String.eqb section default_section = false ->
  defaults_known cfg = true ->
  Dict.get section (sections cfg) = Some (dump_items r token) ->
  carried r = true ->
  Json.dumps (auth_token r) = Ok token ->
  read_config (write cfg) section env = Returns (normalized r).
Proof.
  intros Hwf Hn Hd Hk Hget Hs Hj.
  destruct (carried_parts r Hs) as (_ & _ & _ & _ & _ & _ & Ht).
  destruct (token_text _ Ht) as (token' & Hj' & Hsafe & _ & _).
  assert (token' = token) by congruence. subst token'.
  destruct (carried_items_ok r token Hs Hsafe) as (_ & _ & Hlow).
  unfold read_config. rewrite read_write by exact Hwf.
  rewrite (getitem_dict_items _ section (dump_items r token)).
  - destruct (Config_of_carried r token env Hs Hj) as (kwargs & Hdec & Hnew).
    rewrite Hdec, Hnew. reflexivity.
  - apply name_ok_nonempty, Hn.
  - exact Hd.
  - exact Hget.
  - reflexivity.
  - exact Hlow.
  - apply defaults_known_mem, Hk.
Qed.

(** [save] of a record the file format carries. *)
Lemma save_carried (w : World) (self : Config) (loc : string)
    (cfg : ConfigParser.t) :
  lock_ok w = true ->
  location_of w = Ok loc ->
  ConfigParser.read (fs w !! loc) = Ok cfg ->
  Ini.wf cfg = true ->
  Ini.name_ok (config_section w) = true ->
  String.eqb (config_section w) default_section = false ->
  carried self = true ->
  exists token,
    Json.dumps (auth_token self) = Ok token
    /\ fst (save self w) = Returns tt
    /\ fs (snd (save self w))
       = <[loc := write (mk (defaults cfg)
                           (Dict.set (config_section w)
                              (dump_items self token) (sections cfg)))]>
           (fs w)
    /\ Ini.wf (mk (defaults cfg)
                 (Dict.set (config_section w) (dump_items self token)
                    (sections cfg))) = true.
Proof.
  intros Hok Hloc Hr Hwf Hn Hd Hs.
  destruct (carried_parts self Hs) as (_ & _ & _ & _ & _ & _ & Ht).
  destruct (token_text _ Ht) as (token & Hj & Hsafe & _ & _).
  destruct (carried_items_ok self token Hs Hsafe) as (Hio & Hacc & _).
  exists token. split; [exact Hj|].
  destruct (save_eq self w loc Hok Hloc) as [H1 H2].
  assert (Hm : merged self (fs w !! loc) (config_section w)
               = Ok (mk (defaults cfg)
                       (Dict.set (config_section w) (dump_items self token)
                          (sections cfg)))).
  { unfold merged. rewrite Hj, Hr. cbn [mbind result_bind rbind].
    rewrite setitem_section by (auto using name_ok_nonempty).
    rewrite Hacc, dump_items_stored. reflexivity. }
  rewrite Hm in H1, H2. split; [exact H1|]. split; [exact H2|].
  apply wf_set; assumption.
Qed.

(** The world after [switch_section]. *)
Lemma after_switch (w : World) (s : string) :
  lock_ok (snd (switch_section s w)) = lock_ok w
  /\ location_of (snd (switch_section s w)) = location_of w
  /\ fs (snd (switch_section s w)) = fs w
  /\ config_section (snd (switch_section s w)) = s
  /\ environ (snd (switch_section s w)) = environ w.
Proof. repeat split. Qed.

End Facts.
End CarryFacts.

(** ** [save] after [switch_section] *)

Section Switch.
Context {L : Lax} {LL : LaxLaws L}.
Import ConfigParser DictFacts IniFacts LockFacts OpFacts CarryFacts.

(** C9, amended. [save] writes to the section that is active when it is
    called. After [switch_section(B)], for a name [B] that is not empty,
    has no line break and is not [DEFAULT], on a file that is not there
    or whose content reads back from [write] unchanged, the [save] of a
    record whose values the file format carries returns; the file it has
    written reads, its section [B] holds the fields of the record, and
    every other section, the section [A] that was active before among
    them, holds the options and values it had. *)
Theorem save_after_switch (w : World) (self : Config) (A B loc : string)
    (cfg : ConfigParser.t) :
  lock_ok w = true ->
  location_of w = Ok loc ->
  config_section w = A ->
  ConfigParser.read (fs w !! loc) = Ok cfg ->
  Ini.wf cfg = true ->
  Ini.name_ok B = true ->
  String.eqb B default_section = false ->
  carried self = true ->
  fst (save self (snd (switch_section B w))) = Returns tt
  /\ exists token cfg',
       Json.dumps (auth_token self) = Ok token
       /\ fs (snd (save self (snd (switch_section B w))))
          = <[loc := write cfg']> (fs w)
       /\ ConfigParser.read
            (fs (snd (save self (snd (switch_section B w)))) !! loc)
          = Ok cfg'
       /\ section_items cfg' B = Some (dump_items self token)
       /\ (A <> B -> section_items cfg' A = section_items cfg A)
       /\ (forall other, other <> B ->
           section_items cfg' other = section_items cfg other).
Proof.
  intros Hok Hloc HA Hr Hwf Hn Hd Hs.
  pose (w' := snd (switch_section B w)).
  destruct (save_carried w' self loc cfg Hok Hloc Hr Hwf Hn Hd Hs)
    as (token & Hj & H1 & H2 & Hwf').
  change (config_section w') with B in H2, Hwf'.
  change (fs w') with (fs w) in H2. fold w'.
  split; [exact H1|].
  exists token, (mk (defaults cfg)
                   (Dict.set B (dump_items self token) (sections cfg))).
  assert (Ho : forall other, other <> B ->
               section_items
                 (mk (defaults cfg)
                    (Dict.set B (dump_items self token) (sections cfg)))
                 other
               = section_items cfg other).
  { intros other Hne. unfold section_items. cbn [defaults sections].
    destruct (String.eqb other default_section); [reflexivity|].
    apply get_set_other. congruence. }
  split; [exact Hj|]. split; [exact H2|]. split.
  { rewrite H2, lookup_insert_eq. apply read_write, Hwf'. }
  split.
  { unfold section_items. rewrite Hd. cbn [sections]. apply get_set_same. }
  split; [intros Hne; apply Ho; exact Hne|exact Ho].
Qed.

End Switch.

(** C9: a record saved after the switch from [default] to [staging],
    into a file with these two profiles. *)
Lemma save_after_switch_witness :
  fst (save Demo.signed_in
         (snd (switch_section "staging"
                 (Demo.fresh {[ Demo.home_ini := Demo.two_profiles ]} []))))
  = Returns tt
  /\ exists token cfg',
       Json.dumps (auth_token Demo.signed_in) = Ok token
       /\ ConfigParser.read
            (fs (snd (save Demo.signed_in
                        (snd (switch_section "staging"
                                (Demo.fresh
                                   {[ Demo.home_ini := Demo.two_profiles ]}
                                   [])))))
             !! Demo.home_ini)
          = Ok cfg'
       /\ section_items cfg' "staging"
          = Some (dump_items Demo.signed_in token)
       /\ section_items cfg' "default"
          = Some [("azul_url", "http://old.example");
                  ("auth_token_time", "5")].
Proof.
  destruct (save_after_switch
              (Demo.fresh {[ Demo.home_ini := Demo.two_profiles ]} [])
              Demo.signed_in "default" "staging" Demo.home_ini
              (ConfigParser.mk []
                 [("staging", [("azul_url", "https://staging.example")]);
                  ("default", [("azul_url", "http://old.example");
                               ("auth_token_time", "5")])]))
    as (H0 & token & cfg' & H1 & _ & H3 & H4 & H5 & _);
    try (vm_compute; reflexivity).
  split; [exact H0|].
  exists token, cfg'. split; [exact H1|]. split; [exact H3|].
  split; [exact H4|]. rewrite H5; [reflexivity|discriminate].
Defined.

(** ** How [save] and [get_config] compose *)

Section Compose.
Context {L : Lax} {LL : LaxLaws L}.
Import ConfigParser DictFacts IniFacts LockFacts OpFacts RoundFacts.
Import RecordFacts CarryFacts.


(** X13. The last [save] wins: after the [save] of a first record in
    [carried], from a lock the process can take, on a file that is not
    there or reads as a parser state in [Ini.wf], under an active section
    whose name is not empty, has no line break and is not [DEFAULT], the
    [save] of any second record has the outcome it would have had
    without the first, and when it returns the files are the same as
    without the first: nothing of the first record is left. *)
Theorem last_save_wins (w : World) (first second : Config) (loc : string)
    (cfg : ConfigParser.t) :
  lock_ok w = true ->
  location_of w = Ok loc ->
  ConfigParser.read (fs w !! loc) = Ok cfg ->
  Ini.wf cfg = true ->
  Ini.name_ok (config_section w) = true ->
  String.eqb (config_section w) default_section = false ->
  carried first = true ->
  fst (save second (snd (save first w))) = fst (save second w)
  /\ (fst (save second w) = Returns tt ->
      fs (snd (save second (snd (save first w))))
      = fs (snd (save second w))).
Proof.
  intros Hok Hloc Hr Hwf Hn Hd Hs.
  destruct (save_carried w first loc cfg Hok Hloc Hr Hwf Hn Hd Hs)
    as (token & Hj & H1 & H2 & Hwf').
  destruct (after_save w first Hok) as (Hok' & Hloc' & Hsec & Henv).
  rewrite Hloc in Hloc'.
  destruct (save_eq second w loc Hok Hloc) as [A1 A2].
  destruct (save_eq second _ loc Hok' Hloc') as [B1 B2].
  rewrite Hsec in B1, B2.
  assert (Hm : merged second (fs (snd (save first w)) !! loc)
                 (config_section w)
               = merged second (fs w !! loc) (config_section w)).
  { rewrite H2, lookup_insert_eq. unfold merged.
    destruct (Json.dumps (auth_token second)) as [t2|e]; [|reflexivity].
    cbn [mbind result_bind rbind ConfigParser.read].
    rewrite (read_write _ Hwf'), Hr. cbn [mbind result_bind rbind].
    rewrite !setitem_section by (auto using name_ok_nonempty).
    cbn [defaults sections]. rewrite set_set. reflexivity. }
  rewrite Hm in B1, B2. split; [congruence|].
  intros Hret. rewrite B2, A2. rewrite Hret in A1.
  destruct (merged second (fs w !! loc) (config_section w)); [|discriminate].
  rewrite H2. apply insert_insert_eq.
Qed.


End Compose.

(** ** Repeated calls *)

Module AgainFacts.
Import LockFacts OpFacts.
Section Facts.
Context {L : Lax}.

(** After a [get_config] that returns, under the held lock, the file is
    there and is what the record was read from. *)
Lemma get_config_body_returns (u : World) (c : Config) :
  is_locked (_lock_azul_config u) = true ->
  (0 < lock_counter (_lock_azul_config u))%nat ->
  fst (get_config_body u) = Returns c ->
  exists loc text,
    location_of u = Ok loc
    /\ fs (snd (get_config_body u)) !! loc = Some text
    /\ read_config text (config_section u) (environ u) = Returns c.
Proof.
  intros Hl Hc Hret.
  destruct (location_of u) as [loc|e] eqn:Hloc.
  2:{ exfalso. unfold get_config_body in Hret.
      assert (E : current_location u = (Raises e, u)).
      { unfold current_location. unfold location_of in Hloc.
        destruct (ConfigLocation_new _ _); [discriminate|].
        cbn in Hloc. congruence. }
      erewrite bind_raises in Hret by exact E. discriminate. }
  exists loc. destruct (fs u !! loc) as [text|] eqn:Hf.
  - exists text. destruct (get_config_body_eq u loc text Hloc Hf) as [H1 H2].
    split; [reflexivity|]. split; [rewrite H2; exact Hf|congruence].
  - destruct (Config_new (environ u) []) as [c0|e] eqn:Hc0.
    2:{ exfalso. unfold get_config_body, generate_default in Hret.
        erewrite bind_returns in Hret
          by (apply current_location_ok; exact Hloc).
        erewrite bind_returns in Hret by reflexivity.
        rewrite Hf in Hret.
        unfold mbind, M_bind, bind, print, modify, gets, lift in Hret.
        cbn [fst snd environ set_stderr] in Hret. rewrite Hc0 in Hret.
        discriminate. }
    destruct (merged c0 None (config_section u)) as [cfg0|e] eqn:Hm.
    + exists (ConfigParser.write cfg0).
      destruct (get_config_body_new u loc c0 cfg0 Hl Hc Hloc Hf Hc0 Hm)
        as [H1 H2].
      split; [reflexivity|]. split; [|congruence].
      rewrite H2. apply lookup_insert_eq.
    + exfalso. unfold get_config_body, generate_default in Hret.
      erewrite bind_returns in Hret
        by (apply current_location_ok; exact Hloc).
      erewrite bind_returns in Hret by reflexivity.
      rewrite Hf in Hret.
      pose (w1 := set_stderr
                    (stderr u
                     ++ ["ERROR - no config found - generating default at "
                           +:+ loc]) u).
      pose (w2 := set_stderr
                    (stderr w1
                     ++ ["You will likely need to edit this config."]) w1).
      assert (Hok : lock_ok w2 = true).
      { unfold lock_ok. cbn. rewrite Hl.
        destruct (lock_counter (_lock_azul_config u)); [lia|reflexivity]. }
      destruct (save_eq c0 w2 loc Hok Hloc) as [S1 _].
      change (fs w2 !! loc) with (fs u !! loc) in S1.
      change (config_section w2) with (config_section u) in S1.
      rewrite Hf, Hm in S1.
      unfold mbind, M_bind, bind, print, modify, gets, lift in Hret.
      cbn [fst snd environ set_stderr] in Hret. rewrite Hc0 in Hret.
      fold w1 in Hret. fold w2 in Hret.
      destruct (save c0 w2) as [o w3]. cbn [fst] in S1. subst o.
      discriminate.
Qed.

End Facts.
End AgainFacts.

Section Again.
Context {L : Lax}.
Import LockFacts OpFacts FrameFacts AgainFacts.

(** X15. A second [get_config] finds what the first one left: when
    [get_config] returns a record, also one it has just generated, the
    next [get_config] returns the same record and changes no file. *)
Theorem get_config_twice (w : World) (c : Config) :
  lock_ok w = true ->
  fst (get_config w) = Returns c ->
  fst (get_config (snd (get_config w))) = Returns c
  /\ fs (snd (get_config (snd (get_config w)))) = fs (snd (get_config w)).
Proof.
  intros Hok Hret.
  pose proof (lock_ok_get_config w Hok) as Hok'.
  pose proof (globals_get_config w) as Hg.
  unfold get_config in Hret, Hg, Hok' |- *.
  rewrite (locked_ok get_config_body w Hok) in Hret, Hg, Hok' |- *.
  cbn [fst snd] in *.
  destruct (get_config_body_returns (acquired w) c eq_refl
              ltac:(cbn; lia) Hret) as (loc & text & Hloc & Hf & Hrc).
  change (location_of (acquired w)) with (location_of w) in Hloc.
  change (config_section (acquired w)) with (config_section w) in Hrc.
  change (environ (acquired w)) with (environ w) in Hrc.
  set (w' := release (snd (get_config_body (acquired w)))) in *.
  assert (Hloc' : location_of w' = Ok loc)
    by (rewrite (globals_location _ _ Hg); exact Hloc).
  assert (Hf' : fs w' !! loc = Some text)
    by (unfold w'; rewrite fs_release; exact Hf).
  destruct (get_config_eq w' loc text Hok' Hloc' Hf') as [G1 G2].
  fold get_config. split; [|exact G2].
  rewrite G1, (globals_section _ _ Hg), (globals_environ _ _ Hg).
  exact Hrc.
Qed.

(** X16. On a config file that is there, [clear_auth] is all or nothing:
    it returns, or every file is as it was. *)
Theorem clear_auth_all_or_nothing (w : World) (loc text : string) :
  lock_ok w = true ->
  location_of w = Ok loc ->
  fs w !! loc = Some text ->
  fst (clear_auth w) = Returns tt \/ fs (snd (clear_auth w)) = fs w.
Proof.
  intros Hok Hloc Hf.
  pose proof (update_eq reset_auth w loc text Hok Hloc Hf) as U.
  fold clear_auth in U.
  destruct (read_config text (config_section w) (environ w)) as [c|e| |].
  - destruct (merged _ _ _); injection U as U1 U2; auto.
  - injection U as U1 U2; auto.
  - injection U as U1 U2; auto.
  - injection U as U1 U2; auto.
Qed.

End Again.

(** ** The callers of the integration test *)

Module UpdateFacts.
Import ConfigParser DictFacts IniFacts StoreFacts RecordFacts.
Import LockFacts OpFacts RoundFacts FrameFacts CarryFacts.
Section Facts.
Context {L : Lax} {LL : LaxLaws L}.

Lemma merged_carried (r : Config) text section cfg :
  read_string text = Ok cfg ->
  Ini.wf cfg = true ->
  Ini.name_ok section = true ->
  String.eqb section default_section = false ->
  carried r = true ->
  exists token,
    Json.dumps (auth_token r) = Ok token
    /\ merged r (Some text) section
       = Ok (mk (defaults cfg)
               (Dict.set section (dump_items r token) (sections cfg)))
    /\ Ini.wf (mk (defaults cfg)
                 (Dict.set section (dump_items r token) (sections cfg)))
       = true.
Proof.
  intros Hr Hwf Hn Hd Hs.
  destruct (carried_parts r Hs) as (_ & _ & _ & _ & _ & _ & Ht).
  destruct (token_text _ Ht) as (token & Hj & Hsafe & _ & _).
  destruct (carried_items_ok r token Hs Hsafe) as (Hio & Hacc & _).
  exists token. split; [exact Hj|]. split.
  - unfold merged. rewrite Hj. cbn [mbind result_bind rbind ConfigParser.read].
    rewrite Hr. cbn [mbind result_bind rbind].
    rewrite setitem_section by (auto using name_ok_nonempty).
    rewrite Hacc, dump_items_stored. reflexivity.
  - apply wf_set; assumption.
Qed.

(** Read, change and save under the lock, on a file that reads back from
    [write]: the file then stores the changed record. *)
Lemma update_core (f : Config -> Config) w loc text cfg conf :
  lock_ok w = true ->
  location_of w = Ok loc ->
  fs w !! loc = Some text ->
  read_string text = Ok cfg ->
  Ini.wf cfg = true ->
  defaults_known cfg = true ->
  Ini.name_ok (config_section w) = true ->
  String.eqb (config_section w) default_section = false ->
  read_config text (config_section w) (environ w) = Returns conf ->
  carried (f conf) = true ->
  fst (locked (conf ← get_config; save (f conf)) w) = Returns tt
  /\ lock_ok (snd (locked (conf ← get_config; save (f conf)) w)) = true
  /\ globals (snd (locked (conf ← get_config; save (f conf)) w)) = globals w
  /\ exists cfg',
       fs (snd (locked (conf ← get_config; save (f conf)) w))
       = <[loc := write cfg']> (fs w)
       /\ Ini.wf cfg' = true
       /\ defaults_known cfg' = true
       /\ read_config (write cfg') (config_section w) (environ w)
          = Returns (normalized (f conf)).
Proof.
  intros Hok Hloc Hf Hr Hwf Hk Hn Hd Hrc Hs.
  destruct (merged_carried (f conf) text _ cfg Hr Hwf Hn Hd Hs)
    as (token & Hj & Hm & Hwf').
  pose proof (update_eq f w loc text Hok Hloc Hf) as U.
  rewrite Hrc, Hm in U. injection U as U1 U2.
  split; [exact U1|]. split; [apply lock_ok_update, Hok|].
  split; [apply (proj1 (update_keeps f))|].
  eexists. split; [exact U2|]. split; [exact Hwf'|]. split; [exact Hk|].
  apply (read_config_stored (f conf) _ _ token); try assumption.
  apply get_set_same.
Qed.

Lemma normalized_id (c : Config) :
  no_trailing_slash (azul_url c) = azul_url c -> normalized c = c.
Proof. intros H. unfold normalized. rewrite H. destruct c; reflexivity. Qed.

(** [update_azul_ini] again and again, on a record whose time of issue
    is 0 already. *)
Lemma update_again n : forall w loc cfg conf,
  lock_ok w = true ->
  location_of w = Ok loc ->
  fs w !! loc = Some (write cfg) ->
  Ini.wf cfg = true ->
  defaults_known cfg = true ->
  Ini.name_ok (config_section w) = true ->
  String.eqb (config_section w) default_section = false ->
  read_config (write cfg) (config_section w) (environ w) = Returns conf ->
  carried conf = true ->
  reset_time conf = conf ->
  fst (for_range n update_azul_ini w) = Returns tt
  /\ lock_ok (snd (for_range n update_azul_ini w)) = true
  /\ globals (snd (for_range n update_azul_ini w)) = globals w
  /\ exists cfg',
       fs (snd (for_range n update_azul_ini w)) !! loc = Some (write cfg')
       /\ read_config (write cfg') (config_section w) (environ w)
          = Returns conf.
Proof.
  induction n as [|n IH]; intros w loc cfg conf Hok Hloc Hf Hwf Hk Hn Hd Hrc
                                 Hs Hfix.
  { cbn. repeat split; try assumption. exists cfg. split; assumption. }
  assert (Hr : read_string (write cfg) = Ok cfg) by (apply read_write, Hwf).
  assert (Hs' : carried (reset_time conf) = true) by (rewrite Hfix; exact Hs).
  destruct (update_core reset_time w loc _ cfg conf Hok Hloc Hf Hr Hwf Hk Hn
              Hd Hrc Hs') as (U1 & U2 & U3 & cfg' & U4 & U5 & U6 & U7).
  fold update_azul_ini in U1, U2, U3, U4.
  rewrite Hfix, (normalized_id conf) in U7
    by (exact (read_config_url _ _ _ _ Hrc)).
  destruct (update_azul_ini w) as [o w1] eqn:E. cbn [fst snd] in *. subst o.
  assert (Hstep : for_range (S n) update_azul_ini w
                  = for_range n update_azul_ini w1).
  { cbn [for_range]. erewrite bind_returns by exact E. reflexivity. }
  rewrite Hstep.
  destruct (IH w1 loc cfg' conf) as (I1 & I2 & I3 & cfg2 & I4 & I5);
    try assumption.
  - rewrite (globals_location _ _ U3). exact Hloc.
  - rewrite U4. apply lookup_insert_eq.
  - rewrite (globals_section _ _ U3). exact Hn.
  - rewrite (globals_section _ _ U3). exact Hd.
  - rewrite (globals_section _ _ U3), (globals_environ _ _ U3). exact U7.
  - split; [exact I1|]. split; [exact I2|]. split; [congruence|].
    exists cfg2. split; [exact I4|].
    rewrite <- (globals_section _ _ U3), <- (globals_environ _ _ U3).
    exact I5.
Qed.

End Facts.
End UpdateFacts.

Section Callers.
Context {L : Lax} {LL : LaxLaws L}.
Import ConfigParser DictFacts IniFacts LockFacts OpFacts RoundFacts.
Import FrameFacts CarryFacts UpdateFacts.

(** The first update, from any text the file has. *)
Lemma update_first (w : World) (loc text : string) (cfg : ConfigParser.t)
    (conf : Config) :
  lock_ok w = true ->
  location_of w = Ok loc ->
  fs w !! loc = Some text ->
  read_string text = Ok cfg ->
  Ini.wf cfg = true ->
  defaults_known cfg = true ->
  Ini.name_ok (config_section w) = true ->
  String.eqb (config_section w) default_section = false ->
  fst (get_config w) = Returns conf ->
  carried conf = true ->
  fst (update_azul_ini w) = Returns tt
  /\ lock_ok (snd (update_azul_ini w)) = true
  /\ globals (snd (update_azul_ini w)) = globals w
  /\ exists cfg',
       fs (snd (update_azul_ini w)) = <[loc := write cfg']> (fs w)
       /\ Ini.wf cfg' = true
       /\ defaults_known cfg' = true
       /\ read_config (write cfg') (config_section w) (environ w)
          = Returns (reset_time conf).
Proof.
  intros Hok Hloc Hf Hr Hwf Hk Hn Hd Hget Hs.
  destruct (get_config_eq w loc text Hok Hloc Hf) as [G _].
  rewrite Hget in G. symmetry in G.
  destruct (update_core reset_time w loc text cfg conf Hok Hloc Hf Hr Hwf Hk
              Hn Hd G Hs) as (U1 & U2 & U3 & cfg' & U4 & U5 & U6 & U7).
  rewrite (normalized_id (reset_time conf)) in U7
    by (exact (read_config_url _ _ _ _ G)).
  split; [exact U1|]. split; [exact U2|]. split; [exact U3|].
  exists cfg'. auto.
Qed.

(** X17. [update_azul_ini] of the integration test sets the time of
    issue of the stored record to 0 and keeps everything else, the token
    included. From a lock the process can take, on a file that reads as
    a parser state in [Ini.wf] whose default section names fields only,
    under an active section whose name is not empty, has no line break
    and is not [DEFAULT], when [get_config] returns a record in
    [carried] (text fields without percent sign, line break or blank at
    either end; a token without float and without percent sign):
    [update_azul_ini] returns, and [get_config] then returns that record
    with the time 0. *)
Theorem update_azul_ini_resets_time (w : World) (loc text : string)
    (cfg : ConfigParser.t) (conf : Config) :
  lock_ok w = true ->
  location_of w = Ok loc ->
  fs w !! loc = Some text ->
  read_string text = Ok cfg ->
  Ini.wf cfg = true ->
  defaults_known cfg = true ->
  Ini.name_ok (config_section w) = true ->
  String.eqb (config_section w) default_section = false ->
  fst (get_config w) = Returns conf ->
  carried conf = true ->
  fst (update_azul_ini w) = Returns tt
  /\ fst (get_config (snd (update_azul_ini w))) = Returns (reset_time conf).
Proof.
  intros Hok Hloc Hf Hr Hwf Hk Hn Hd Hget Hs.
  destruct (update_first w loc text cfg conf Hok Hloc Hf Hr Hwf Hk Hn Hd
              Hget Hs) as (U1 & U2 & U3 & cfg' & U4 & _ & _ & U7).
  split; [exact U1|].
  assert (Hloc' : location_of (snd (update_azul_ini w)) = Ok loc)
    by (rewrite (globals_location _ _ U3); exact Hloc).
  assert (Hf' : fs (snd (update_azul_ini w)) !! loc = Some (write cfg'))
    by (rewrite U4; apply lookup_insert_eq).
  destruct (get_config_eq _ loc _ U2 Hloc' Hf') as [G _].
  rewrite G, (globals_section _ _ U3), (globals_environ _ _ U3).
  exact U7.
Qed.

(** X18. [save_to_azul_init] of the integration test, under the same
    conditions (a lock the process can take; a file that reads as a
    parser state in [Ini.wf] whose default section names fields only; an
    active section whose name is not empty, has no line break and is not
    [DEFAULT]; a record in [carried] returned by [get_config]): the four
    updates go through, it returns ["success"], and [get_config] then
    returns the record with the time 0. *)
Theorem save_to_azul_init_succeeds (index : Z) (w : World)
    (loc text : string) (cfg : ConfigParser.t) (conf : Config) :
  lock_ok w = true ->
  location_of w = Ok loc ->
  fs w !! loc = Some text ->
  read_string text = Ok cfg ->
  Ini.wf cfg = true ->
  defaults_known cfg = true ->
  Ini.name_ok (config_section w) = true ->
  String.eqb (config_section w) default_section = false ->
  fst (get_config w) = Returns conf ->
  carried conf = true ->
  fst (save_to_azul_init index w) = Returns "success"
  /\ fst (get_config (snd (save_to_azul_init index w)))
     = Returns (reset_time conf).
Proof.
  intros Hok Hloc Hf Hr Hwf Hk Hn Hd Hget Hs.
  destruct (update_first w loc text cfg conf Hok Hloc Hf Hr Hwf Hk Hn Hd
              Hget Hs) as (U1 & U2 & U3 & cfg' & U4 & U5 & U6 & U7).
  destruct (update_azul_ini w) as [o w1] eqn:E. cbn [fst snd] in *. subst o.
  assert (Hstep : for_range 4 update_azul_ini w
                  = for_range 3 update_azul_ini w1).
  { cbn [for_range]. erewrite bind_returns by exact E. reflexivity. }
  destruct (update_again 3 w1 loc cfg' (reset_time conf))
    as (I1 & I2 & I3 & cfg2 & I4 & I5); try assumption; try reflexivity.
  - rewrite (globals_location _ _ U3). exact Hloc.
  - rewrite U4. apply lookup_insert_eq.
  - rewrite (globals_section _ _ U3). exact Hn.
  - rewrite (globals_section _ _ U3). exact Hd.
  - rewrite (globals_section _ _ U3), (globals_environ _ _ U3). exact U7.
  - unfold save_to_azul_init. rewrite Hstep.
    destruct (for_range 3 update_azul_ini w1) as [o w4].
    cbn [fst snd] in *. subst o. cbn [fst snd].
    split; [reflexivity|].
    assert (Hloc4 : location_of w4 = Ok loc).
    { rewrite (globals_location _ _ I3), (globals_location _ _ U3).
      exact Hloc. }
    destruct (get_config_eq w4 loc _ I2 Hloc4 I4) as [G _].
    rewrite G, (globals_section _ _ I3), (globals_environ _ _ I3).
    exact I5.
Qed.

End Callers.

Section Busy.
Context {L : Lax}.

(** X19. While another process holds the lock for good and this process
    does not hold it, the first update of [save_to_azul_init] only waits
    for the lock. With a timeout of the lock that is [0] or more and
    finite the wait ends in the timeout, which the function catches: no
    further update is tried and it returns ["fail"]. With any other
    timeout (negative, infinite, not a number) the function does not
    return. Either way no file has been read or written and nothing was
    printed to the standard error. *)
Theorem save_to_azul_init_busy (index : Z) (w : World) :
  is_locked (_lock_azul_config w) = false ->
  held_elsewhere w = true ->
  fst (save_to_azul_init index w)
  = (if float_elapses (lock_timeout (_lock_azul_config w))
     then Returns "fail" else Blocked)
  /\ fs (snd (save_to_azul_init index w)) = fs w
  /\ stderr (snd (save_to_azul_init index w)) = stderr w
  /\ flock_calls (snd (save_to_azul_init index w)) = S (flock_calls w).
Proof.
  intros Hl Hh.
  assert (H : fst (update_azul_ini w)
              = (if float_elapses (lock_timeout (_lock_azul_config w))
                 then LockTimeout else Blocked)
              /\ fs (snd (update_azul_ini w)) = fs w
              /\ stderr (snd (update_azul_ini w)) = stderr w
              /\ flock_calls (snd (update_azul_ini w)) = S (flock_calls w)).
  { unfold update_azul_ini, locked, acquire. rewrite Hl, Hh.
    destruct (float_elapses _); repeat split. }
  destruct H as (H1 & H2 & H3 & H4).
  destruct (update_azul_ini w) as [o w1] eqn:E. cbn [fst snd] in *.
  assert (Hf : for_range 4 update_azul_ini w
               = (if float_elapses (lock_timeout (_lock_azul_config w))
                  then LockTimeout else Blocked, w1)).
  { cbn [for_range]. unfold mbind at 1, M_bind, bind. rewrite E, H1.
    destruct (float_elapses _); reflexivity. }
  unfold save_to_azul_init. rewrite Hf.
  destruct (float_elapses _); cbn [fst snd]; auto.
Qed.

End Busy.

(** ** A first run, and the two encodings *)

Section FirstRun.
Context {L : Lax} {LL : LaxLaws L}.
Import ConfigParser DictFacts IniFacts LockFacts OpFacts RoundFacts.
Import RecordFacts NewFacts CarryFacts.

(** X20. [clear_auth] as the first call on a machine without config
    file: with the section [default] active and no environment variable
    that names a field, it returns and leaves the file [get_config]
    generates, the compiled-in defaults under [default]. *)
Theorem clear_auth_first_run (w : World) (loc : string) :
  lock_ok w = true ->
  location_of w = Ok loc ->
  fs w !! loc = None ->
  config_section w = "default" ->
  no_settings_env (environ w) = true ->
  fst (clear_auth w) = Returns tt
  /\ fs (snd (clear_auth w))
     = <[loc := write (mk [] [("default", dump_items Config_defaults "{}")])]>
         (fs w).
Proof.
  intros Hok Hloc Hf Hs Henv.
  set (cfg0 := mk [] [("default", dump_items Config_defaults "{}")]).
  assert (Hm : merged Config_defaults None "default" = Ok cfg0
               /\ Ini.wf cfg0 = true).
  { destruct (merged_storable Config_defaults None "default" empty)
      as (token & Hj & Hm & Hwf); try reflexivity.
    injection Hj as <-. split; [exact Hm|exact Hwf]. }
  destruct Hm as [Hm Hwf].
  (* the nested [get_config] *)
  pose (wa := acquired w).
  assert (Hoka : lock_ok wa = true) by reflexivity.
  pose proof (globals_get_config wa) as Gg.
  pose proof (lock_ok_get_config wa Hoka) as Gok.
  assert (G : fst (get_config wa) = Returns Config_defaults
              /\ fs (snd (get_config wa)) = <[loc := write cfg0]> (fs w)).
  { unfold get_config. rewrite locked_ok by exact Hoka. cbn [fst snd].
    rewrite fs_release.
    destruct (get_config_body_new (acquired wa) loc Config_defaults cfg0
                eq_refl ltac:(cbn; lia) Hloc Hf
                (Config_new_defaults _ Henv))
      as [H1 H2].
    { cbn [config_section acquired set_lock wa]. rewrite Hs. exact Hm. }
    split; [|exact H2]. rewrite H1.
    cbn [config_section acquired set_lock wa]. rewrite Hs.
    apply (read_config_written Config_defaults "default" empty "{}");
      try reflexivity. exact Hwf. }
  destruct G as [G1 G2].
  destruct (get_config wa) as [o w1] eqn:E1. cbn [fst snd] in *. subst o.
  (* the nested [save] *)
  assert (Hloc1 : location_of w1 = Ok loc)
    by (rewrite (globals_location _ _ Gg); exact Hloc).
  assert (Hsec1 : config_section w1 = "default")
    by (rewrite (globals_section _ _ Gg); exact Hs).
  assert (Hr1 : ConfigParser.read (fs w1 !! loc) = Ok cfg0).
  { rewrite G2, lookup_insert_eq. apply read_write, Hwf. }
  destruct (save_carried w1 (reset_auth Config_defaults) loc cfg0 Gok Hloc1
              Hr1 Hwf) as (token & Hj & S1 & S2 & _);
    try (rewrite Hsec1; reflexivity); try reflexivity.
  injection Hj as <-. rewrite Hsec1 in S2.
  destruct (save (reset_auth Config_defaults) w1) as [o w2] eqn:E2.
  cbn [fst snd] in *. subst o.
  unfold clear_auth. rewrite locked_ok by exact Hok. fold wa.
  erewrite bind_returns by exact E1. rewrite E2. cbn [fst snd].
  rewrite fs_release. split; [reflexivity|].
  rewrite S2, G2. apply insert_insert_eq.
Qed.

End FirstRun.

Section Encodings.
Import Json ConfigParser.

(** X21. The token as [save] stores it and [get_config] decodes it:
    [json.loads] undoes [json.dumps] on every value made of [None],
    booleans, integers, strings of code points below 256, lists, and
    dictionaries whose keys are strings, pairwise different in each
    dictionary. *)
Theorem token_encoding_round_trip (v : pyval) :
  representable v = true ->
  exists j, dumps v = Ok j /\ loads j = Ok v.
Proof.
  intros Hr. destruct (JsonFacts.dumps_roundtrips v Hr) as (j & Hd & _).
  exists j. split; [exact Hd|]. exact (JsonFacts.loads_dumps v j Hr Hd).
Qed.

(** X22. The file as [save] writes it and [get_config] reads it:
    [read] undoes [write] on every parser state in [Ini.wf], with
    sections, options and values in the same order. These are the states
    whose section names are not empty, have no line break, are not
    [DEFAULT] and are pairwise different; whose option names, in the
    default section too, are not empty, are in lower case, have no [=],
    [:] or line break, end in no blank, start with none of blank, [#],
    [;] and [[], and are pairwise different within their section; and
    whose values have no blank at either end and no line break. *)
Theorem written_file_reads_back (cfg : ConfigParser.t) :
  Ini.wf cfg = true ->
  ConfigParser.read (Some (write cfg)) = Ok cfg.
Proof. intros H. exact (IniFacts.read_write cfg H). Qed.

End Encodings.

(** ** Examples *)

(** X3: a file that does not parse is left alone by a [get_config] that
    raises. *)
Lemma get_config_keeps_file_witness :
  fs (snd (get_config (Demo.fresh {[ Demo.home_ini := Demo.malformed ]} [])))
  = {[ Demo.home_ini := Demo.malformed ]}.
Proof.
  exact (get_config_keeps_file
           (Demo.fresh {[ Demo.home_ini := Demo.malformed ]} [])
           Demo.home_ini Demo.malformed eq_refl eq_refl).
Defined.

(** X4: a line without delimiter. *)
Lemma malformed_file_surfaces_witness :
  fst (get_config (Demo.fresh {[ Demo.home_ini := Demo.malformed ]} []))
  = Raises ConfigParserError
  /\ fst (clear_auth (Demo.fresh {[ Demo.home_ini := Demo.malformed ]} []))
     = Raises ConfigParserError
  /\ fst (save Demo.signed_in
            (Demo.fresh {[ Demo.home_ini := Demo.malformed ]} []))
     = Raises ConfigParserError.
Proof.
  destruct (malformed_file_surfaces
              (Demo.fresh {[ Demo.home_ini := Demo.malformed ]} [])
              Demo.home_ini Demo.malformed ConfigParserError)
    as (H1 & _ & H3 & _ & H5); try (vm_compute; reflexivity).
  split; [exact H1|]. split; [exact H3|].
  refine (proj1 (H5 Demo.signed_in _ _)). vm_compute. reflexivity.
Defined.

(** X5: another process holds the lock; with the timeout of 30 seconds,
    and in a process started with [TOKEN_LOCK_TIMEOUT=-1]. *)
Lemma busy_lock_times_out_witness :
  (fst (get_config (Demo.busy {[ Demo.home_ini := Demo.signed_in_file ]}))
   = LockTimeout
   /\ fst (save Demo.signed_in
             (Demo.busy {[ Demo.home_ini := Demo.signed_in_file ]}))
      = LockTimeout
   /\ fs (snd (clear_auth
                 (Demo.busy {[ Demo.home_ini := Demo.signed_in_file ]})))
      = {[ Demo.home_ini := Demo.signed_in_file ]})
  /\ lock_timeout
       (_lock_azul_config
          (Demo.busy_for_good {[ Demo.home_ini := Demo.signed_in_file ]}))
     = (-1)%Z
  /\ fst (get_config
            (Demo.busy_for_good {[ Demo.home_ini := Demo.signed_in_file ]}))
     = Blocked.
Proof.
  split; [|split; [reflexivity|]].
  - destruct (busy_lock_times_out
                (Demo.busy {[ Demo.home_ini := Demo.signed_in_file ]})
                Demo.signed_in eq_refl eq_refl)
      as ((S1 & _) & (G1 & _) & (_ & C2 & _)).
    split; [exact G1|]. split; [exact S1|exact C2].
  - destruct (busy_lock_times_out
                (Demo.busy_for_good
                   {[ Demo.home_ini := Demo.signed_in_file ]})
                Demo.signed_in eq_refl eq_refl)
      as (_ & (G1 & _) & _).
    exact G1.
Defined.

(** X6: calls of which one raises. *)
Lemma lock_released_after_calls_witness :
  _lock_azul_config
    (run_calls [CallLoad; CallSwitch "staging"; CallSave Demo.with_object;
                CallClearAuth] (Demo.fresh ∅ []))
  = _lock_azul_config (Demo.fresh ∅ []).
Proof.
  exact (proj1 (lock_released_after_calls
                  [CallLoad; CallSwitch "staging"; CallSave Demo.with_object;
                   CallClearAuth] (Demo.fresh ∅ []) eq_refl)).
Defined.

(** X7: a secret with a single percent sign, saved where no file is;
    and the defaults saved over a file that does not parse. *)
Lemma save_checks_percent_witness :
  (fst (save (Demo.with_secret "a%b") (Demo.fresh ∅ [])) = Raises ValueError
   /\ fs (snd (save (Demo.with_secret "a%b") (Demo.fresh ∅ []))) = ∅)
  /\ fst (save Demo.defaults
            (Demo.fresh {[ Demo.home_ini := Demo.malformed ]} []))
     = Raises ConfigParserError.
Proof.
  split.
  - exact (save_checks_percent (Demo.fresh ∅ []) (Demo.with_secret "a%b")
             Demo.home_ini "{}" eq_refl eq_refl eq_refl eq_refl).
  - pose proof (save_checks_percent
                  (Demo.fresh {[ Demo.home_ini := Demo.malformed ]} [])
                  Demo.defaults Demo.home_ini "{}") as H.
    replace (ConfigParser.read
               (fs (Demo.fresh {[ Demo.home_ini := Demo.malformed ]} [])
                !! Demo.home_ini))
      with (@Err ConfigParser.t ConfigParserError) in H
      by (vm_compute; reflexivity).
    apply H; vm_compute; reflexivity.
Defined.

(** X8: an option with a letter missing. *)
Lemma load_refuses_unknown_option_witness :
  fst (get_config (Demo.fresh {[ Demo.home_ini := Demo.misspelt ]} []))
  = Raises ValidationError.
Proof.
  refine (proj1 (load_refuses_unknown_option
                   (Demo.fresh {[ Demo.home_ini := Demo.misspelt ]} [])
                   Demo.home_ini Demo.misspelt
                   (ConfigParser.mk []
                      [("default", [("azul_ur", "https://azul.example")])])
                   [("azul_ur", "https://azul.example")]
                   [("azul_ur", PStr "https://azul.example")]
                   _ _ _ _ _ _ _)); vm_compute; reflexivity.
Defined.

(** X9: a JSON list as token. *)
Lemma load_refuses_other_token_witness :
  fst (get_config (Demo.fresh {[ Demo.home_ini := Demo.list_token ]} []))
  = Raises ValidationError.
Proof.
  refine (load_refuses_other_token
            (Demo.fresh {[ Demo.home_ini := Demo.list_token ]} [])
            Demo.home_ini Demo.list_token
            (ConfigParser.mk [] [("default", [("auth_token", "[1, 2]")])])
            [("auth_token", "[1, 2]")] "[1, 2]" _ _ _ _ _ _ _);
    try (vm_compute; reflexivity).
  right. exists (PList [PInt 1; PInt 2]). split; vm_compute; reflexivity.
Defined.

(** X10: the variable is set to a word. *)
Lemma bad_timeout_variable_witness :
  fst (get_config (Demo.fresh ∅ [("TOKEN_LOCK_TIMEOUT", "soon")]))
  = Raises ValidationError.
Proof.
  refine (proj1 (bad_timeout_variable
                   (Demo.fresh ∅ [("TOKEN_LOCK_TIMEOUT", "soon")]) "soon"
                   _ _ _)); vm_compute; reflexivity.
Defined.

(** X11: the two notices of a signed-in profile. *)
Lemma load_notices_witness :
  stderr (snd (get_config
                 (Demo.fresh {[ Demo.home_ini := Demo.signed_in_file ]} [])))
  = ["Loading config [default] from /home/user/.azul.ini";
     "using Azul API at https://azul.example"
       +:+ String ConfigParser.NL EmptyString].
Proof.
  refine (load_notices
            (Demo.fresh {[ Demo.home_ini := Demo.signed_in_file ]} [])
            Demo.home_ini Demo.signed_in_file
            (ConfigParser.mk []
               [("staging", [("azul_url", "https://staging.example")]);
                ("default",
                 dump_items Demo.signed_in
                   match Json.dumps (auth_token Demo.signed_in) with
                   | Ok j => j
                   | Err _ => EmptyString
                   end)])
            (dump_items Demo.signed_in
               match Json.dumps (auth_token Demo.signed_in) with
               | Ok j => j
               | Err _ => EmptyString
               end)
            Demo.signed_in _ _ _ _ _ _); vm_compute; reflexivity.
Defined.


(** X13: two records saved one after the other. *)
Lemma last_save_wins_witness :
  fs (snd (save Demo.signed_in
             (snd (save Demo.slashed
                     (Demo.fresh {[ Demo.home_ini := Demo.two_profiles ]}
                        [])))))
  = fs (snd (save Demo.signed_in
               (Demo.fresh {[ Demo.home_ini := Demo.two_profiles ]} []))).
Proof.
  refine (proj2 (last_save_wins
            (Demo.fresh {[ Demo.home_ini := Demo.two_profiles ]} [])
            Demo.slashed Demo.signed_in Demo.home_ini
            (ConfigParser.mk []
               [("staging", [("azul_url", "https://staging.example")]);
                ("default", [("azul_url", "http://old.example");
                             ("auth_token_time", "5")])])
            _ _ _ _ _ _ _) _); vm_compute; reflexivity.
Defined.


(** X15: the first and the second [get_config] of a process. *)
Lemma get_config_twice_witness :
  fst (get_config (snd (get_config (Demo.fresh ∅ []))))
  = Returns Demo.defaults.
Proof.
  refine (proj1 (get_config_twice (Demo.fresh ∅ []) Demo.defaults _ _));
    vm_compute; reflexivity.
Defined.

(** X16: the [clear_auth] that raises on the escaped percent sign. *)
Lemma clear_auth_all_or_nothing_witness :
  fs (snd (clear_auth
             (Demo.fresh {[ Demo.home_ini := Demo.escaped_percent ]} [])))
  = {[ Demo.home_ini := Demo.escaped_percent ]}.
Proof.
  assert (H : fst (clear_auth
                     (Demo.fresh {[ Demo.home_ini := Demo.escaped_percent ]}
                        []))
              = Returns tt
              \/ fs (snd (clear_auth
                            (Demo.fresh
                               {[ Demo.home_ini := Demo.escaped_percent ]}
                               [])))
                 = fs (Demo.fresh {[ Demo.home_ini := Demo.escaped_percent ]}
                         [])).
  { apply (clear_auth_all_or_nothing _ Demo.home_ini Demo.escaped_percent);
      vm_compute; reflexivity. }
  destruct H as [H|H]; [vm_compute in H; discriminate H|exact H].
Defined.

(** X17: one update of a signed-in profile. *)
Lemma update_azul_ini_resets_time_witness :
  fst (get_config
         (snd (update_azul_ini
                 (Demo.fresh {[ Demo.home_ini := Demo.signed_in_file ]} []))))
  = Returns (reset_time Demo.signed_in)
  /\ auth_token (reset_time Demo.signed_in) = auth_token Demo.signed_in.
Proof.
  split; [|reflexivity].
  refine (proj2 (update_azul_ini_resets_time
            (Demo.fresh {[ Demo.home_ini := Demo.signed_in_file ]} [])
            Demo.home_ini Demo.signed_in_file
            (ConfigParser.mk []
               [("staging", [("azul_url", "https://staging.example")]);
                ("default",
                 dump_items Demo.signed_in
                   match Json.dumps (auth_token Demo.signed_in) with
                   | Ok j => j
                   | Err _ => EmptyString
                   end)])
            Demo.signed_in _ _ _ _ _ _ _ _ _ _)); vm_compute; reflexivity.
Defined.

(** X18: the worker of the test on a signed-in profile. *)
Lemma save_to_azul_init_succeeds_witness :
  fst (save_to_azul_init 7
         (Demo.fresh {[ Demo.home_ini := Demo.signed_in_file ]} []))
  = Returns "success".
Proof.
  refine (proj1 (save_to_azul_init_succeeds 7
            (Demo.fresh {[ Demo.home_ini := Demo.signed_in_file ]} [])
            Demo.home_ini Demo.signed_in_file
            (ConfigParser.mk []
               [("staging", [("azul_url", "https://staging.example")]);
                ("default",
                 dump_items Demo.signed_in
                   match Json.dumps (auth_token Demo.signed_in) with
                   | Ok j => j
                   | Err _ => EmptyString
                   end)])
            Demo.signed_in _ _ _ _ _ _ _ _ _ _)); vm_compute; reflexivity.
Defined.

(** X19: the worker of the test while another process holds the lock;
    with the timeout of 30 seconds, and in a process started with
    [TOKEN_LOCK_TIMEOUT=-1]. *)
Lemma save_to_azul_init_busy_witness :
  fst (save_to_azul_init 7
         (Demo.busy {[ Demo.home_ini := Demo.signed_in_file ]}))
  = Returns "fail"
  /\ fst (save_to_azul_init 7
            (Demo.busy_for_good {[ Demo.home_ini := Demo.signed_in_file ]}))
     = Blocked.
Proof.
  split.
  - exact (proj1 (save_to_azul_init_busy 7
                    (Demo.busy {[ Demo.home_ini := Demo.signed_in_file ]})
                    eq_refl eq_refl)).
  - exact (proj1 (save_to_azul_init_busy 7
                    (Demo.busy_for_good
                       {[ Demo.home_ini := Demo.signed_in_file ]})
                    eq_refl eq_refl)).
Defined.

(** X20: [clear_auth] as the first call. *)
Lemma clear_auth_first_run_witness :
  fst (clear_auth (Demo.fresh ∅ [])) = Returns tt
  /\ is_Some (fs (snd (clear_auth (Demo.fresh ∅ []))) !! Demo.home_ini).
Proof.
  destruct (clear_auth_first_run (Demo.fresh ∅ []) Demo.home_ini)
    as [H1 H2]; try reflexivity.
  split; [exact H1|]. rewrite H2, lookup_insert_eq. eauto.
Defined.

(** X21: a token with a nested list. *)
Lemma token_encoding_round_trip_witness :
  exists j,
    Json.dumps (PDict [("t", PStr "x"); ("n", PList [PInt 1; PNone])]) = Ok j
    /\ Json.loads j
       = Ok (PDict [("t", PStr "x"); ("n", PList [PInt 1; PNone])]).
Proof.
  exact (token_encoding_round_trip
           (PDict [("t", PStr "x"); ("n", PList [PInt 1; PNone])]) eq_refl).
Defined.

(** X22: a file with two profiles. *)
Lemma written_file_reads_back_witness :
  ConfigParser.read (Some Demo.two_profiles)
  = Ok (ConfigParser.mk []
          [("staging", [("azul_url", "https://staging.example")]);
           ("default", [("azul_url", "http://old.example");
                        ("auth_token_time", "5")])]).
Proof.
  exact (written_file_reads_back
           (ConfigParser.mk []
              [("staging", [("azul_url", "https://staging.example")]);
               ("default", [("azul_url", "http://old.example");
                            ("auth_token_time", "5")])])
           eq_refl).
Defined.
